(** * P2000-NFTY: a shallow embedding of the delivery pipeline

  The development follows the Go packages of the repository:
  [capcode] (the enrichment lookup), [filter] (the subscription filter),
  [websocket] (the feed client) and [notifier] (the ntfy delivery client).
  Go strings are byte strings and are modelled by [string]; Go maps by
  stdpp's [gmap]; [time.Duration] by [Z] nanoseconds with the int64
  wrap-around written out. *)

From Stdlib Require Import ZArith Lia Bool List Ascii String.
From stdpp Require Import base option list strings gmap.
Import ListNotations.

Set Warnings "-register-all".
Local Open Scope string_scope.
Local Open Scope Z_scope.

(* ===================================================================== *)
(** * Part I: definitions                                                 *)
(* ===================================================================== *)

(** ** The fragment of Go's [strings] package the program calls

  The cut sets and needles the program passes are ASCII, and an ASCII
  byte never occurs inside a multi-byte UTF-8 sequence, so working on
  bytes agrees with Go's rune-wise definitions on valid UTF-8. *)
Module strings.

Fixpoint inCutset (a : ascii) (cutset : string) : bool :=
  match cutset with
  | EmptyString => false
  | String c rest => if Ascii.eqb a c then true else inCutset a rest
  end.

(** [strings.TrimLeft(s, cutset)] *)
Fixpoint TrimLeft (s cutset : string) : string :=
  match s with
  | EmptyString => EmptyString
  | String a rest => if inCutset a cutset then TrimLeft rest cutset else s
  end.

(** [strings.TrimRight(s, cutset)] *)
Fixpoint TrimRight (s cutset : string) : string :=
  match s with
  | EmptyString => EmptyString
  | String a rest =>
      match TrimRight rest cutset with
      | EmptyString => if inCutset a cutset then EmptyString else String a EmptyString
      | kept => String a kept
      end
  end.

(** [strings.Trim(s, cutset)] *)
Definition Trim (s cutset : string) : string :=
  TrimRight (TrimLeft s cutset) cutset.

Definition lowerByte (a : ascii) : ascii :=
  let n := nat_of_ascii a in
  if (Nat.leb 65 n && Nat.leb n 90)%bool then ascii_of_nat (n + 32) else a.

(** [strings.ToLower(s)], on the ASCII letters.  No code point outside
    ASCII lower-cases to one of the letters the header test looks for. *)
Fixpoint ToLower (s : string) : string :=
  match s with
  | EmptyString => EmptyString
  | String a rest => String (lowerByte a) (ToLower rest)
  end.

(** [strings.Contains(s, substr)] *)
Fixpoint Contains (s substr : string) : bool :=
  if String.prefix substr s then true
  else match s with
       | EmptyString => false
       | String _ rest => Contains rest substr
       end.

(** [strings.TrimSuffix(s, suffix)] *)
Definition TrimSuffix (s suffix : string) : string :=
  let n := String.length s in
  let k := String.length suffix in
  if (Nat.leb k n && String.eqb (String.substring (n - k) k s) suffix)%bool
  then String.substring 0 (n - k) s
  else s.

(** [strings.Repeat(string(a), k)]: [k] copies of the byte [a]. *)
Fixpoint copies (k : nat) (a : ascii) : string :=
  match k with
  | O => EmptyString
  | S k' => String a (copies k' a)
  end.

(** [strings.Join(elems, sep)] *)
Fixpoint Join (elems : list string) (sep : string) : string :=
  match elems with
  | [] => EmptyString
  | [e] => e
  | e :: rest => e ++ sep ++ Join rest sep
  end.

End strings.

(** ** internal/capcode/lookup.go *)
Module capcode.

Record CapcodeInfo := {
  Capcode : string;
  Agency : string;
  Region : string;
  Station : string;
  Function : string
}.

(** [type Lookup struct { data map[string]CapcodeInfo }] *)
Record Lookup := { data : gmap string CapcodeInfo }.

(** What [os.Open] followed by [csv.Reader.ReadAll] hands to [NewLookup]:
    the two failures it checks for, or the parsed records. *)
Inductive csvFile :=
| OpenFails (cause : string)
| ReadAllFails (cause : string)
| Records (records : list (list string)).

Inductive loadError :=
| FailedToOpen (cause : string)   (* "failed to open capcode CSV: %w" *)
| FailedToRead (cause : string).  (* "failed to read CSV: %w" *)

Inductive loadResult :=
| Loaded (lookup : Lookup)
| Failed (err : loadError)
| IndexPanic.                     (* records[0][0] on a record with no field *)

(** The header test of lines 49-55; [None] is the index panic. *)
Definition startIdx (records : list (list string)) : option nat :=
  match records with
  | [] => Some 0%nat
  | [] :: _ => None
  | (first :: _) :: _ =>
      let firstRow := strings.ToLower first in
      if (strings.Contains firstRow "capcode" || strings.Contains firstRow "cap")%bool
      then Some 1%nat else Some 0%nat
  end.

(** Lines 74-77 of [NewLookup] and 96-99 of [Get]: the same computation. *)
Definition normalize (capcode : string) : string :=
  let normalizedKey := strings.TrimLeft capcode "0" in
  if String.eqb normalizedKey EmptyString then "0" else normalizedKey.

(** The cut set of the [strings.Trim] calls of lines 64-70: one double
    quote character. *)
Definition quote : string := String (ascii_of_nat 34) EmptyString.

(** One iteration of the loop of lines 58-82. *)
Definition addRecord (m : gmap string CapcodeInfo) (record : list string)
  : gmap string CapcodeInfo :=
  match record with
  | r0 :: r1 :: r2 :: r3 :: r4 :: _ =>
      let capcode := strings.Trim r0 quote in
      let info := {| Capcode := capcode;
                     Agency := strings.Trim r1 quote;
                     Region := strings.Trim r2 quote;
                     Station := strings.Trim r3 quote;
                     Function := strings.Trim r4 quote |} in
      <[capcode := info]> (<[normalize capcode := info]> m)
  | _ => m                        (* len(record) < 5: continue *)
  end.

Definition NewLookup (f : csvFile) : loadResult :=
  match f with
  | OpenFails cause => Failed (FailedToOpen cause)
  | ReadAllFails cause => Failed (FailedToRead cause)
  | Records records =>
      match startIdx records with
      | None => IndexPanic
      | Some i => Loaded {| data := foldl addRecord ∅ (drop i records) |}
      end
  end.

Definition Get (l : Lookup) (capcode : string) : option CapcodeInfo :=
  match data l !! capcode with
  | Some info => Some info
  | None => data l !! normalize capcode
  end.

Fixpoint GetMultiple (l : Lookup) (capcodes : list string) : list CapcodeInfo :=
  match capcodes with
  | [] => []
  | c :: rest =>
      match Get l c with
      | Some info => info :: GetMultiple l rest
      | None => GetMultiple l rest
      end
  end.

End capcode.

(** ** internal/filter/capcode.go *)
Module filter.

(** [allowedCaps map[string]struct{}]: the values carry no information. *)
Record CapcodeFilter := {
  forwardAll : bool;
  allowedCaps : gmap string unit
}.

Definition NewCapcodeFilter (forwardAll : bool) (capcodes : list string)
  : CapcodeFilter :=
  {| forwardAll := forwardAll;
     allowedCaps := foldl (fun m capcode => <[capcode := tt]> m) ∅ capcodes |}.

(** The [for ... range capcodes] loop of lines 51-58. *)
Fixpoint anyAllowed (allowed : gmap string unit) (capcodes : list string) : bool :=
  match capcodes with
  | [] => false
  | capcode :: rest =>
      match allowed !! capcode with
      | Some _ => true
      | None => anyAllowed allowed rest
      end
  end.

Definition ShouldForward (f : CapcodeFilter) (capcodes : list string) : bool :=
  if forwardAll f then true
  else match capcodes with
       | [] => false
       | _ => anyAllowed (allowedCaps f) capcodes
       end.

Definition Count (f : CapcodeFilter) : nat := size (allowedCaps f).

End filter.

(** ** [time.Duration]: an int64 count of nanoseconds *)
Module time.

Definition Duration := Z.

(** Two's-complement wrap-around of a 64-bit signed result. *)
Definition wrap64 (z : Z) : Z := (z + 2 ^ 63) mod 2 ^ 64 - 2 ^ 63.

Definition mul (a b : Duration) : Duration := wrap64 (a * b).

Definition Second : Duration := 1000000000.

(** The outcome of [select] between [<-time.After(d)] and [<-ctx.Done()]. *)
Inductive waitResult := TimerFires | DoneWhileWaiting.

End time.

(** ** Go channels, as far as the client uses them *)
Module channel.

(** A buffered channel that the program never closes. *)
Record chan (A : Type) := { capacity : nat; buffer : list A }.
Arguments capacity {A} _.
Arguments buffer {A} _.

(** [make(chan A, n)] *)
Definition make (A : Type) (n : nat) : chan A :=
  {| capacity := n; buffer := [] |}.

(** [ch <- v]: [None] when the buffer is full, where a plain send parks
    the sending goroutine until a receiver arrives. *)
Definition send {A} (ch : chan A) (v : A) : option (chan A) :=
  if Nat.ltb (length (buffer ch)) (capacity ch)
  then Some {| capacity := capacity ch; buffer := (buffer ch ++ [v])%list |}
  else None.

(** [<-ch]: [None] when the buffer is empty, where the receiver parks. *)
Definition recv {A} (ch : chan A) : option (A * chan A) :=
  match buffer ch with
  | [] => None
  | v :: rest => Some (v, {| capacity := capacity ch; buffer := rest |})
  end.

(** A [chan struct{}] on which nothing is sent: its state is whether
    [close] has been called on it. *)
Inductive signal := Open | Closed.

(** [close(ch)]: [None] is the run-time panic "close of closed channel". *)
Definition close (ch : signal) : option signal :=
  match ch with
  | Open => Some Closed
  | Closed => None
  end.

End channel.

(** ** [encoding/json], as far as [json.Unmarshal] into the message struct
  uses it

  The scanner (syntax check, string unescaping) and [strconv.ParseFloat]
  are taken as given by a [Codec]; what the decoder does with a scanned
  value is written out. *)
Module json.

Inductive value :=
| JNull
| JBool (b : bool)
| JNumber (literal : string)
| JString (s : string)
| JArray (elems : list value)
| JObject (members : list (string * value)).

(** A float64 is carried as its IEEE-754 binary64 bit pattern; the zero
    value is the pattern 0. *)
Definition float64 := Z.

Record Codec := {
  scan : string -> option value;          (* [None]: a syntax error *)
  ParseFloat : string -> option float64   (* [strconv.ParseFloat(lit, 64)] *)
}.

Fixpoint digits (s : string) (acc : Z) : option Z :=
  match s with
  | EmptyString => Some acc
  | String a rest =>
      let n := Z.of_nat (nat_of_ascii a) in
      if (48 <=? n) && (n <=? 57) then digits rest (10 * acc + (n - 48)) else None
  end.

(** [strconv.ParseInt(lit, 10, 64)] on a JSON number literal: a literal
    with a fraction or an exponent, or out of the int64 range, fails. *)
Definition ParseInt (lit : string) : option Z :=
  match lit with
  | EmptyString => None
  | String "-" EmptyString => None
  | String "-" rest =>
      match digits rest 0 with
      | Some z => if z <=? 2 ^ 63 then Some (- z) else None
      | None => None
      end
  | _ =>
      match digits lit 0 with
      | Some z => if z <? 2 ^ 63 then Some z else None
      | None => None
      end
  end.

(** The UTF-8 bytes of the two runes outside ASCII that Unicode simple
    case folding joins to an ASCII letter: U+017F (long s) to s, and
    U+212A (Kelvin sign) to k. *)
Definition smallLongEss : string :=
  String (ascii_of_nat 197) (String (ascii_of_nat 191) EmptyString).
Definition kelvin : string :=
  String (ascii_of_nat 226) (String (ascii_of_nat 132)
    (String (ascii_of_nat 170) EmptyString)).

(** [bytes.EqualFold(name, key)] for a field name that is ASCII, as the
    names of this program's structs all are: equality under Unicode
    simple case folding.  An ASCII byte of the key matches the same byte
    or the same letter in the other case; a rune of the key outside ASCII
    matches only as above, long s for s or S and the Kelvin sign for k or
    K (encoding/json's equalFoldRight walks the two in this way). *)
Fixpoint equalFold (name key : string) : bool :=
  match name, key with
  | EmptyString, EmptyString => true
  | String a name', String b key' =>
      if (nat_of_ascii b <? 128)%nat then
        Ascii.eqb (strings.lowerByte a) (strings.lowerByte b) && equalFold name' key'
      else if Ascii.eqb (strings.lowerByte a) "s" then
        match key' with
        | String b2 rest =>
            String.eqb (String b (String b2 EmptyString)) smallLongEss
            && equalFold name' rest
        | EmptyString => false
        end
      else if Ascii.eqb (strings.lowerByte a) "k" then
        match key' with
        | String b2 (String b3 rest) =>
            String.eqb (String b (String b2 (String b3 EmptyString))) kelvin
            && equalFold name' rest
        | _ => false
        end
      else false
  | _, _ => false
  end.

(** A JSON key selects a struct field by its tag: exactly, or else under
    case folding. *)
Definition nameMatches (key tag : string) : bool :=
  String.eqb key tag || equalFold tag key.

(** Decoding into a field of the given kind.  [cur] is what the field
    holds; JSON null leaves it alone; [None] is an UnmarshalTypeError.
    (The decoder records such an error and carries on, and Unmarshal
    returns it at the end; the caller here discards the struct whenever
    an error is returned.) *)
Definition intoString (v : value) (cur : string) : option string :=
  match v with
  | JString s => Some s
  | JNull => Some cur
  | _ => None
  end.

Definition intoInt (v : value) (cur : Z) : option Z :=
  match v with
  | JNumber lit => ParseInt lit
  | JNull => Some cur
  | _ => None
  end.

Definition intoFloat (c : Codec) (v : value) (cur : float64) : option float64 :=
  match v with
  | JNumber lit => ParseFloat c lit
  | JNull => Some cur
  | _ => None
  end.

(** The elements of an array, each decoded into the element of the
    backing array at its index; where the backing array was never
    written the element holds the zero value. *)
Fixpoint intoStrings' (elems : list value) (backing : list string) : option (list string) :=
  match elems with
  | [] => Some []
  | e :: rest =>
      match intoString e (hd EmptyString backing), intoStrings' rest (tl backing) with
      | Some s, Some ss => Some (s :: ss)
      | _, _ => None
      end
  end.

(** Into a [[]string].  The slice is decoded into in place: [cur] are
    its elements and [spare] is what its backing array holds behind them,
    between length and capacity.  Element i of the array goes into
    element i of the backing array, the slice growing over [spare] as
    needed, so a null element keeps what is there; the slice is cut to
    the length of the array, and what lay behind stays in the backing
    array.  (When the decoder has to grow the backing array it copies
    the elements to a new one that is zero behind them, which reads the
    same.)  An empty array gives a new empty slice, JSON null the nil
    slice (the empty list, nothing behind it).  The result is the
    elements and the new [spare]. *)
Definition intoStrings (v : value) (cur spare : list string)
  : option (list string * list string) :=
  match v with
  | JArray [] => Some ([], [])
  | JArray elems =>
      match intoStrings' elems (cur ++ spare) with
      | Some ss => Some (ss, drop (length elems) (cur ++ spare))
      | None => None
      end
  | JNull => Some ([], [])
  | _ => None
  end.

End json.

(** ** The feed client (package websocket, src/unnamed/part_001) *)
Module websocket.
Import time channel json.

Definition initialBackoff : Duration := 1 * Second.
Definition maxBackoff : Duration := 30 * Second.
Definition backoffMultiplier : Duration := 2.
Definition pingInterval : Duration := 30 * Second.
Definition pongTimeout : Duration := 10 * Second.
Definition writeTimeout : Duration := 10 * Second.

Record Signal := {
  Baudrate : Z;          (* int, 64 bits wide *)
  Frame : Z;
  Subtype : string;
  Function : string
}.

Record P2000Message := {
  Type_ : string;
  Timestamp : Z;         (* int64 *)
  Signal_ : Signal;
  FrequencyErr : float64;
  Capcodes : list string;   (* the nil slice is the empty list *)
  Message : string;
  Agency : string
}.

(** The zero values of the two structs: what [var msg P2000Message]
    declares. *)
Definition zeroSignal : Signal :=
  {| Baudrate := 0; Frame := 0; Subtype := EmptyString; Function := EmptyString |}.

Definition zeroMessage : P2000Message :=
  {| Type_ := EmptyString; Timestamp := 0; Signal_ := zeroSignal;
     FrequencyErr := 0; Capcodes := []; Message := EmptyString;
     Agency := EmptyString |}.

(** *** [json.Unmarshal(data, &msg)] along the json tags of lines 24-40 *)

Definition setSignalField (key : string) (v : value) (s : Signal) : option Signal :=
  if nameMatches key "baudrate" then
    b ← intoInt v (Baudrate s);
    Some {| Baudrate := b; Frame := Frame s; Subtype := Subtype s; Function := Function s |}
  else if nameMatches key "frame" then
    f ← intoInt v (Frame s);
    Some {| Baudrate := Baudrate s; Frame := f; Subtype := Subtype s; Function := Function s |}
  else if nameMatches key "subtype" then
    t ← intoString v (Subtype s);
    Some {| Baudrate := Baudrate s; Frame := Frame s; Subtype := t; Function := Function s |}
  else if nameMatches key "function" then
    f ← intoString v (Function s);
    Some {| Baudrate := Baudrate s; Frame := Frame s; Subtype := Subtype s; Function := f |}
  else Some s.                           (* a key no field answers to is skipped *)

Fixpoint fillSignal (members : list (string * value)) (s : Signal) : option Signal :=
  match members with
  | [] => Some s
  | (key, v) :: rest =>
      match setSignalField key v s with
      | Some s' => fillSignal rest s'
      | None => None
      end
  end.

Definition intoSignal (v : value) (cur : Signal) : option Signal :=
  match v with
  | JObject members => fillSignal members cur
  | JNull => Some cur
  | _ => None
  end.

(** One member of the object, decoded into the struct.  [spare] is what
    the backing array of [Capcodes] holds behind the slice; only a member
    for that field reads or changes it. *)
Definition setField (c : Codec) (key : string) (v : value) (m : P2000Message)
    (spare : list string) : option (P2000Message * list string) :=
  if nameMatches key "type" then
    x ← intoString v (Type_ m);
    Some ({| Type_ := x; Timestamp := Timestamp m; Signal_ := Signal_ m;
             FrequencyErr := FrequencyErr m; Capcodes := Capcodes m;
             Message := Message m; Agency := Agency m |}, spare)
  else if nameMatches key "timestamp" then
    x ← intoInt v (Timestamp m);
    Some ({| Type_ := Type_ m; Timestamp := x; Signal_ := Signal_ m;
             FrequencyErr := FrequencyErr m; Capcodes := Capcodes m;
             Message := Message m; Agency := Agency m |}, spare)
  else if nameMatches key "signal" then
    x ← intoSignal v (Signal_ m);
    Some ({| Type_ := Type_ m; Timestamp := Timestamp m; Signal_ := x;
             FrequencyErr := FrequencyErr m; Capcodes := Capcodes m;
             Message := Message m; Agency := Agency m |}, spare)
  else if nameMatches key "frequency_error" then
    x ← intoFloat c v (FrequencyErr m);
    Some ({| Type_ := Type_ m; Timestamp := Timestamp m; Signal_ := Signal_ m;
             FrequencyErr := x; Capcodes := Capcodes m;
             Message := Message m; Agency := Agency m |}, spare)
  else if nameMatches key "capcodes" then
    x ← intoStrings v (Capcodes m) spare;
    Some ({| Type_ := Type_ m; Timestamp := Timestamp m; Signal_ := Signal_ m;
             FrequencyErr := FrequencyErr m; Capcodes := fst x;
             Message := Message m; Agency := Agency m |}, snd x)
  else if nameMatches key "message" then
    x ← intoString v (Message m);
    Some ({| Type_ := Type_ m; Timestamp := Timestamp m; Signal_ := Signal_ m;
             FrequencyErr := FrequencyErr m; Capcodes := Capcodes m;
             Message := x; Agency := Agency m |}, spare)
  else if nameMatches key "agency" then
    x ← intoString v (Agency m);
    Some ({| Type_ := Type_ m; Timestamp := Timestamp m; Signal_ := Signal_ m;
             FrequencyErr := FrequencyErr m; Capcodes := Capcodes m;
             Message := Message m; Agency := x |}, spare)
  else Some (m, spare).                  (* unknown keys are skipped *)

Fixpoint fillMessage (c : Codec) (members : list (string * value)) (m : P2000Message)
    (spare : list string) : option (P2000Message * list string) :=
  match members with
  | [] => Some (m, spare)
  | (key, v) :: rest =>
      match setField c key v m spare with
      | Some (m', spare') => fillMessage c rest m' spare'
      | None => None
      end
  end.

(** Decoding a scanned value into the struct [m] points to. *)
Definition intoMessage (c : Codec) (v : value) (m : P2000Message) (spare : list string)
  : option (P2000Message * list string) :=
  match v with
  | JObject members => fillMessage c members m spare
  | JNull => Some (m, spare)
  | _ => None
  end.

(** [json.Unmarshal(data, &m)]: [None] is a non-nil error.  The slice of
    [m] comes without capacity behind its length, as the nil slice of
    [var msg] does. *)
Definition Unmarshal (c : Codec) (data : string) (m : P2000Message) : option P2000Message :=
  match scan c data with
  | Some v => fst <$> intoMessage c v m []
  | None => None
  end.

(** *** The fields by name, to speak of those a payload leaves out *)

Inductive field :=
| FType | FTimestamp | FSignal | FFrequencyErr | FCapcodes | FMessage | FAgency.

Definition allFields : list field :=
  [FType; FTimestamp; FSignal; FFrequencyErr; FCapcodes; FMessage; FAgency].

Definition tag (f : field) : string :=
  match f with
  | FType => "type"
  | FTimestamp => "timestamp"
  | FSignal => "signal"
  | FFrequencyErr => "frequency_error"
  | FCapcodes => "capcodes"
  | FMessage => "message"
  | FAgency => "agency"
  end.

(** The two messages hold the same value in the field [f]. *)
Definition sameAt (f : field) (m m' : P2000Message) : Prop :=
  match f with
  | FType => Type_ m = Type_ m'
  | FTimestamp => Timestamp m = Timestamp m'
  | FSignal => Signal_ m = Signal_ m'
  | FFrequencyErr => FrequencyErr m = FrequencyErr m'
  | FCapcodes => Capcodes m = Capcodes m'
  | FMessage => Message m = Message m'
  | FAgency => Agency m = Agency m'
  end.

Inductive signalField := SBaudrate | SFrame | SSubtype | SFunction.

Definition signalTag (f : signalField) : string :=
  match f with
  | SBaudrate => "baudrate"
  | SFrame => "frame"
  | SSubtype => "subtype"
  | SFunction => "function"
  end.

Definition sameSignalAt (f : signalField) (s s' : Signal) : Prop :=
  match f with
  | SBaudrate => Baudrate s = Baudrate s'
  | SFrame => Frame s = Frame s'
  | SSubtype => Subtype s = Subtype s'
  | SFunction => Function s = Function s'
  end.

(** Some member of the object has a key that selects the tag [t]. *)
Definition mentions (members : list (string * value)) (t : string) : bool :=
  existsb (fun member => nameMatches (fst member) t) members.

(** Some member for the signal field is an object that mentions the
    tag [t] of the nested struct. *)
Definition signalMentions (members : list (string * value)) (t : string) : bool :=
  existsb (fun member =>
             nameMatches (fst member) "signal"
             && match snd member with
                | JObject smembers => mentions smembers t
                | _ => false
                end) members.

(** The key selects one of the fields of the message. *)
Definition known (key : string) : bool :=
  existsb (fun f => nameMatches key (tag f)) allFields.

(** *** The client *)

(** A live [*websocket.Conn], named by a handle. *)
Definition Conn := nat.

Record Client := {
  conn : option Conn;             (* [None] is the nil pointer *)
  msgHandler : bool;              (* [false]: the handler is nil *)
  statusChan : chan bool;
  done : signal;
  backoff : Duration
}.

(** What the client does to the outside world, in order. *)
Inductive event :=
| Dialed
| ParseFailed (raw : string)      (* the error log line of handleMessage *)
| Handled (msg : P2000Message)    (* [c.msgHandler(msg)] *)
| CloseFrameWritten (cn : Conn)
| ConnClosed (cn : Conn)
| Waited (d : Duration).          (* [time.After(c.backoff)] armed *)

Definition NewClient (msgHandler : bool) : Client :=
  {| conn := None; msgHandler := msgHandler;
     statusChan := make bool 1; done := Open; backoff := initialBackoff |}.

Definition setConn (c : Client) (cn : option Conn) : Client :=
  {| conn := cn; msgHandler := msgHandler c; statusChan := statusChan c;
     done := done c; backoff := backoff c |}.

Definition setBackoff (c : Client) (d : Duration) : Client :=
  {| conn := conn c; msgHandler := msgHandler c; statusChan := statusChan c;
     done := done c; backoff := d |}.

Definition setStatusChan (c : Client) (ch : chan bool) : Client :=
  {| conn := conn c; msgHandler := msgHandler c; statusChan := ch;
     done := done c; backoff := backoff c |}.

Definition setDone (c : Client) (d : signal) : Client :=
  {| conn := conn c; msgHandler := msgHandler c; statusChan := statusChan c;
     done := d; backoff := backoff c |}.

(** [select { case c.statusChan <- connected: default: }] *)
Definition notifyStatus (c : Client) (connected : bool) : Client :=
  match send (statusChan c) connected with
  | Some ch => setStatusChan c ch
  | None => c                     (* channel full, skip *)
  end.

Definition increaseBackoff (c : Client) : Client :=
  let b := mul (backoff c) backoffMultiplier in
  if b >? maxBackoff then setBackoff c maxBackoff else setBackoff c b.

Definition resetBackoff (c : Client) : Client := setBackoff c initialBackoff.

Definition closeConnection (c : Client) : Client * list event :=
  match conn c with
  | Some cn => (setConn c None, [CloseFrameWritten cn; ConnClosed cn])
  | None => (c, [])
  end.

(** A call that may end in a run-time panic. *)
Inductive outcome (A : Type) :=
| Returns (a : A)
| Panics (reason : string).
Arguments Returns {A} _.
Arguments Panics {A} _.

Definition Close (c : Client) : outcome (Client * list event) :=
  match close (done c) with
  | None => Panics "close of closed channel"
  | Some d => Returns (closeConnection (setDone c d))
  end.

Definition handleMessage (codec : Codec) (c : Client) (data : string) : list event :=
  match Unmarshal codec data zeroMessage with
  | None => [ParseFailed data]
  | Some msg => if msgHandler c then [Handled msg] else []
  end.

(** How a connection ends: [ReadMessage] fails (deadline expiry
    included), or the select of the read loop finds the context done. *)
Inductive sessionEnd := ReadFails | ContextDone.

(** What one call of [connectAndListen] meets. *)
Inductive attempt :=
| DialFails
| Connects (cn : Conn) (frames : list string) (e : sessionEnd).

(** The errors [connectAndListen] returns; every return statement of
    it returns one. *)
Inductive connError := DialFailed | ReadFailed | ContextErr.

(** The read loop of lines 135-151, over the frames the socket yields. *)
Fixpoint readLoop (codec : Codec) (c : Client) (frames : list string) (e : sessionEnd)
  : Client * connError * list event :=
  match frames with
  | data :: rest =>
      let '(c', err, evs) := readLoop codec c rest e in
      (c', err, (handleMessage codec c data ++ evs)%list)
  | [] =>
      let '(c', evs) := closeConnection c in
      (c', match e with ReadFails => ReadFailed | ContextDone => ContextErr end, evs)
  end.

(** Lines 99-101: the socket is stored, the backoff reset and the
    status reported, in this order, before anything is read. *)
Definition established (c : Client) (cn : Conn) : Client :=
  notifyStatus (resetBackoff (setConn c (Some cn))) true.

Definition connectAndListen (codec : Codec) (c : Client) (a : attempt)
  : Client * connError * list event :=
  match a with
  | DialFails => (c, DialFailed, [Dialed])
  | Connects cn frames e =>
      let '(c', err, evs) := readLoop codec (established c cn) frames e in
      (c', err, Dialed :: evs)
  end.

(** One turn of the loop of [Connect]: what [connectAndListen] meets and
    how the select of lines 79-84 ends. *)
Record iteration := { meets : attempt; wait : waitResult }.

(** [Connect], over the iterations the environment lets it make: when
    the script is used up the context is done at the select of line 68
    and [Connect] returns. *)
Fixpoint Connect (codec : Codec) (script : list iteration) (c : Client)
  : Client * list event :=
  match script with
  | [] => (c, [])
  | it :: rest =>
      let '(c1, _, evs) := connectAndListen codec c (meets it) in
      let c2 := notifyStatus c1 false in
      match wait it with
      | TimerFires =>
          let '(c3, evs') := Connect codec rest (increaseBackoff c2) in
          (c3, (evs ++ Waited (backoff c2) :: evs')%list)
      | DoneWhileWaiting => (c2, (evs ++ [Waited (backoff c2)])%list)
      end
  end.

Fixpoint delays (evs : list event) : list Duration :=
  match evs with
  | [] => []
  | Waited d :: rest => d :: delays rest
  | _ :: rest => delays rest
  end.

Fixpoint handled (evs : list event) : list P2000Message :=
  match evs with
  | [] => []
  | Handled m :: rest => m :: handled rest
  | _ :: rest => handled rest
  end.

(** *** The backoff sequence as the specification words it *)

Definition specDelay (n : nat) : Duration :=
  Z.min (initialBackoff * backoffMultiplier ^ Z.of_nat n) maxBackoff.

(** The number of consecutive failed iterations before each iteration
    of a script, counted from the last completed handshake (or from the
    start): an iteration that connects restarts the count at 0. *)
Fixpoint failureIndex (n : nat) (script : list iteration) : list nat :=
  match script with
  | [] => []
  | it :: rest =>
      let k := match meets it with DialFails => n | Connects _ _ _ => 0%nat end in
      k :: match wait it with
           | TimerFires => failureIndex (S k) rest
           | DoneWhileWaiting => []
           end
  end.

(** *** The status feed under an arbitrary consumer *)

Inductive statusOp :=
| Report (connected : bool)       (* the client calls notifyStatus *)
| Drain.                          (* the consumer receives from StatusChan() *)

Definition statusStep (c : Client) (op : statusOp) : Client :=
  match op with
  | Report connected => notifyStatus c connected
  | Drain =>
      match recv (statusChan c) with
      | Some (_, ch) => setStatusChan c ch
      | None => c                 (* the consumer parks; the client goes on *)
      end
  end.

End websocket.

(** ** internal/config/config.go: the delivery credentials *)
Module config.

Record NtfyConfig := {
  Server : string;
  Topic : string;
  Token : string;        (* optional authentication token (Bearer) *)
  Username : string;     (* optional username for Basic Auth *)
  Password : string      (* optional password for Basic Auth *)
}.

End config.

(** ** [net/http] and [encoding/base64], as far as a delivery uses them *)
Module http.

(** [http.Header] with [Set]; the four keys the program sets are in
    canonical form already. *)
Record Request := {
  Method : string;
  URL : string;
  Header : gmap string string;
  Body : string
}.

Definition HeaderSet (r : Request) (key val : string) : Request :=
  {| Method := Method r; URL := URL r;
     Header := <[key := val]> (Header r); Body := Body r |}.

Definition alphabet : string :=
  "ABCDEFGHIJKLMNOPQRSTUVWXYZabcdefghijklmnopqrstuvwxyz0123456789+/".

Definition sextet (n : nat) : ascii :=
  match String.get n alphabet with
  | Some a => a
  | None => "="%char
  end.

(** [base64.StdEncoding.EncodeToString] *)
Fixpoint EncodeToString (src : string) : string :=
  match src with
  | EmptyString => EmptyString
  | String a EmptyString =>
      let x := nat_of_ascii a in
      String (sextet (x / 4)) (String (sextet (x mod 4 * 16)) "==")
  | String a (String b EmptyString) =>
      let x := nat_of_ascii a in
      let y := nat_of_ascii b in
      String (sextet (x / 4))
        (String (sextet (x mod 4 * 16 + y / 16))
           (String (sextet (y mod 16 * 4)) "="))
  | String a (String b (String c rest)) =>
      let x := nat_of_ascii a in
      let y := nat_of_ascii b in
      let z := nat_of_ascii c in
      String (sextet (x / 4))
        (String (sextet (x mod 4 * 16 + y / 16))
           (String (sextet (y mod 16 * 4 + z / 64))
              (String (sextet (z mod 64)) (EncodeToString rest))))
  end%nat.

(** [req.SetBasicAuth(username, password)] *)
Definition SetBasicAuth (r : Request) (username password : string) : Request :=
  HeaderSet r "Authorization" ("Basic " ++ EncodeToString (username ++ ":" ++ password)).

(** What one call of [sendRequest] meets: [http.NewRequestWithContext]
    fails, [httpClient.Do] fails, or a response arrives. *)
Inductive exchange :=
| NewRequestFails (cause : string)
| DoFails (cause : string)
| Responds (StatusCode : Z).

End http.

(** ** The delivery client (package notifier, src/unnamed/part_000) *)
Module notifier.
Import time http.

Definition maxRetries : Z := 3.
Definition retryBackoff : Duration := 2 * Second.
Definition requestTimeout : Duration := 10 * Second.
Definition defaultPriority : string := "3".

(** The line feed, and the UTF-8 bytes of U+1F6A8 that open every title. *)
Definition nl : string := String (ascii_of_nat 10) EmptyString.
Definition siren : string :=
  String (ascii_of_nat 240) (String (ascii_of_nat 159)
    (String (ascii_of_nat 154) (String (ascii_of_nat 168) EmptyString))).

Record Notifier := {
  server : string;
  topic : string;
  token : string;
  translations : gmap string string;
  capcodeLookup : option capcode.Lookup     (* [None] is the nil pointer *)
}.

Definition NewNotifier (server topic token : string)
    (translations : gmap string string) (capcodeLookup : option capcode.Lookup)
  : Notifier :=
  {| server := strings.TrimSuffix server "/"; topic := topic; token := token;
     translations := translations; capcodeLookup := capcodeLookup |}.

(** [n.capcodeLookup != nil] and then [n.capcodeLookup.Get(c)]. *)
Definition lookupGet (l : option capcode.Lookup) (c : string) : option capcode.CapcodeInfo :=
  match l with
  | Some lookup => capcode.Get lookup c
  | None => None
  end.

(** Lines 127-142. *)
Definition formatTitle (n : Notifier) (msg : websocket.P2000Message) : string :=
  let agency :=
    match websocket.Capcodes msg with
    | first :: _ =>
        match lookupGet (capcodeLookup n) first with
        | Some info => capcode.Agency info
        | None => websocket.Agency msg
        end
    | [] => websocket.Agency msg
    end in
  if negb (String.eqb agency EmptyString)
  then siren ++ " P2000 " ++ agency
  else siren ++ " P2000".

(** The body of the loop of lines 156-184 for one capcode. *)
Definition capcodeDetails (n : Notifier) (c : string) : string :=
  match lookupGet (capcodeLookup n) c with
  | Some info =>
      "Capcode: " ++ c ++ nl
      ++ (if negb (String.eqb (capcode.Region info) EmptyString)
          then "Regio: " ++ capcode.Region info ++ nl else EmptyString)
      ++ (if negb (String.eqb (capcode.Station info) EmptyString)
          then "Kazerne: " ++ capcode.Station info ++ nl else EmptyString)
      ++ (if negb (String.eqb (capcode.Function info) EmptyString)
          then "Functie: " ++ capcode.Function info ++ nl else EmptyString)
  | None =>
      match translations n !! c with
      | Some translation => "Capcode: " ++ c ++ " - " ++ translation ++ nl
      | None => "Capcode: " ++ c ++ nl
      end
  end.

Fixpoint capcodeSection (n : Notifier) (i : nat) (capcodes : list string) : string :=
  match capcodes with
  | [] => EmptyString
  | c :: rest =>
      (if Nat.ltb 0 i then nl else EmptyString)
      ++ capcodeDetails n c ++ capcodeSection n (S i) rest
  end.

(** Lines 145-188. *)
Definition formatMessage (n : Notifier) (msg : websocket.P2000Message) : string :=
  websocket.Message msg ++ nl ++ nl
  ++ match websocket.Capcodes msg with
     | [] => EmptyString
     | capcodes => "Capcode Details:" ++ nl ++ capcodeSection n 0 capcodes
     end.

Definition getTags (msgType : string) : string :=
  if String.eqb msgType "FLEX" then "rotating_light,emergency" else "warning".

(** The request of lines 96-110, once [NewRequestWithContext] succeeded. *)
Definition newRequest (n : Notifier) (title message priority tags : string) : Request :=
  let req := {| Method := "POST"; URL := server n ++ "/" ++ topic n;
                Header := ∅; Body := message |} in
  let req := HeaderSet req "Title" title in
  let req := HeaderSet req "Priority" priority in
  let req := HeaderSet req "Tags" tags in
  if negb (String.eqb (token n) EmptyString)
  then HeaderSet req "Authorization" ("Bearer " ++ token n)
  else req.

Inductive sendError :=
| FailedToCreateRequest (cause : string)  (* "failed to create request: %w" *)
| RequestFailed (cause : string)          (* "request failed: %w" *)
| UnexpectedStatusCode (code : Z).        (* "unexpected status code: %d" *)

(** What a delivery does to the outside world, in order. *)
Inductive event :=
| Waited (d : Duration)                   (* [time.After(...)] armed *)
| NotCreated                              (* sendRequest left before Do *)
| Did (req : Request).                    (* [n.httpClient.Do(req)] *)

(** [sendRequest]; [None] is the nil error. *)
Definition sendRequest (n : Notifier) (title message priority tags : string)
    (x : exchange) : list event * option sendError :=
  match x with
  | NewRequestFails cause => ([NotCreated], Some (FailedToCreateRequest cause))
  | DoFails cause =>
      ([Did (newRequest n title message priority tags)], Some (RequestFailed cause))
  | Responds StatusCode =>
      ([Did (newRequest n title message priority tags)],
       if (StatusCode <? 200) || (StatusCode >=? 300)
       then Some (UnexpectedStatusCode StatusCode) else None)
  end.

(** What the [attempt]-th turn of the loop of [Send] meets: how its
    wait ends (not looked at when [attempt] is 0) and what happens to
    its request. *)
Record conditions := { waiting : waitResult; exchanged : exchange }.

Inductive deliveryError :=
| ContextErr                                            (* [ctx.Err()] *)
| FailedAfter (attempts : Z) (lastErr : option sendError).
                                  (* "failed after %d attempts: %w" *)

(** The loop of lines 61-89 from the turn [attempt] on; [remaining] is
    [maxRetries - attempt], so the loop is left when it is 0. *)
Fixpoint attemptsFrom (n : Notifier) (env : nat -> conditions)
    (title message priority tags : string)
    (remaining attempt : nat) (lastErr : option sendError)
  : list event * option deliveryError :=
  match remaining with
  | O => ([], Some (FailedAfter maxRetries lastErr))
  | S remaining' =>
      let request :=
        let '(evs, r) := sendRequest n title message priority tags
                           (exchanged (env attempt)) in
        match r with
        | Some err =>
            let '(evs', res) :=
              attemptsFrom n env title message priority tags
                remaining' (S attempt) (Some err) in
            ((evs ++ evs')%list, res)
        | None => (evs, None)
        end in
      if Nat.ltb 0 attempt then
        let w := Waited (mul retryBackoff (Z.of_nat attempt)) in
        match waiting (env attempt) with
        | DoneWhileWaiting => ([w], Some ContextErr)
        | TimerFires => let '(evs, res) := request in (w :: evs, res)
        end
      else request
  end.

(** [Send]; [None] is the nil error. *)
Definition Send (n : Notifier) (env : nat -> conditions) (msg : websocket.P2000Message)
  : list event * option deliveryError :=
  let message := formatMessage n msg in
  let title := formatTitle n msg in
  let priority := defaultPriority in
  let tags := getTags (websocket.Type_ msg) in
  attemptsFrom n env title message priority tags (Z.to_nat maxRetries) 0 None.

(** A response counts as a delivery when its status code is in
    [200,300), as the specification words it. *)
Definition delivered (x : exchange) : bool :=
  match x with
  | Responds code => (200 <=? code) && (code <? 300)
  | _ => false
  end.

(** The calls of [sendRequest] in a trace. *)
Fixpoint requests (evs : list event) : nat :=
  match evs with
  | [] => 0
  | Waited _ :: rest => requests rest
  | _ :: rest => S (requests rest)
  end.

Fixpoint waits (evs : list event) : list Duration :=
  match evs with
  | [] => []
  | Waited d :: rest => d :: waits rest
  | _ :: rest => waits rest
  end.

End notifier.

(** ** The second copy of package notifier in the sources (the third
  document of src/internal/metrics/prometheus.go, lines 454-660), the
  one internal/notifier/ntfy_test.go is written against: the notifier
  with the password credential, the title from the body and the agency
  label.  Its [Send] is the [Send] above word for word. *)
Module notifier_rev.
Import time http.

Record Notifier := {
  server : string;
  topic : string;
  token : string;
  username : string;
  password : string;
  translations : gmap string string;
  capcodeLookup : option capcode.Lookup
}.

Definition NewNotifier (server topic token username password : string)
    (translations : gmap string string) (capcodeLookup : option capcode.Lookup)
  : Notifier :=
  {| server := strings.TrimSuffix server "/"; topic := topic; token := token;
     username := username; password := password;
     translations := translations; capcodeLookup := capcodeLookup |}.

Definition newRequest (n : Notifier) (title message priority tags : string) : Request :=
  let req := {| Method := "POST"; URL := server n ++ "/" ++ topic n;
                Header := ∅; Body := message |} in
  let req := HeaderSet req "Title" title in
  let req := HeaderSet req "Priority" priority in
  let req := HeaderSet req "Tags" tags in
  if negb (String.eqb (password n) EmptyString)
  then SetBasicAuth req (username n) (password n)
  else if negb (String.eqb (token n) EmptyString)
  then HeaderSet req "Authorization" ("Bearer " ++ token n)
  else req.

Definition formatTitle (n : Notifier) (msg : websocket.P2000Message) : string :=
  let message := websocket.Message msg in
  if negb (String.eqb message EmptyString)
  then notifier.siren ++ " " ++ message
  else notifier.siren ++ " P2000".

(** The agency label of lines 604-612. *)
Definition agencyLabel (n : Notifier) (msg : websocket.P2000Message) : string :=
  match websocket.Capcodes msg with
  | first :: _ =>
      match notifier.lookupGet (capcodeLookup n) first with
      | Some info => capcode.Agency info
      | None => "overig"
      end
  | [] => "overig"
  end.

Definition capcodeDetails (n : Notifier) (c : string) : string :=
  match notifier.lookupGet (capcodeLookup n) c with
  | Some info =>
      let details :=
        ((if negb (String.eqb (capcode.Region info) EmptyString)
          then [capcode.Region info] else [])
         ++ (if negb (String.eqb (capcode.Station info) EmptyString)
             then [capcode.Station info] else [])
         ++ (if negb (String.eqb (capcode.Function info) EmptyString)
             then [capcode.Function info] else []))%list in
      match details with
      | [] => c ++ notifier.nl
      | _ => c ++ " - " ++ strings.Join details ", " ++ notifier.nl
      end
  | None => EmptyString
  end.

Fixpoint capcodeSection (n : Notifier) (i : nat) (capcodes : list string) : string :=
  match capcodes with
  | [] => EmptyString
  | c :: rest =>
      (if Nat.ltb 0 i then notifier.nl else EmptyString)
      ++ capcodeDetails n c ++ capcodeSection n (S i) rest
  end.

Definition formatMessage (n : Notifier) (msg : websocket.P2000Message) : string :=
  agencyLabel n msg ++ notifier.nl ++ notifier.nl
  ++ match websocket.Capcodes msg with
     | [] => EmptyString
     | capcodes => "Capcode Details:" ++ notifier.nl ++ capcodeSection n 0 capcodes
     end.

Definition getTags (msgType : string) : string :=
  if String.eqb msgType "FLEX" then "rotating_light,emergency" else "warning".

(** [sendRequest] (lines 552-585), with the events and errors of the
    first copy. *)
Definition sendRequest (n : Notifier) (title message priority tags : string)
    (x : exchange) : list notifier.event * option notifier.sendError :=
  match x with
  | NewRequestFails cause =>
      ([notifier.NotCreated], Some (notifier.FailedToCreateRequest cause))
  | DoFails cause =>
      ([notifier.Did (newRequest n title message priority tags)],
       Some (notifier.RequestFailed cause))
  | Responds StatusCode =>
      ([notifier.Did (newRequest n title message priority tags)],
       if (StatusCode <? 200) || (StatusCode >=? 300)
       then Some (notifier.UnexpectedStatusCode StatusCode) else None)
  end.

(** The loop of [Send] (lines 518-546) from the turn [attempt] on. *)
Fixpoint attemptsFrom (n : Notifier) (env : nat -> notifier.conditions)
    (title message priority tags : string)
    (remaining attempt : nat) (lastErr : option notifier.sendError)
  : list notifier.event * option notifier.deliveryError :=
  match remaining with
  | O => ([], Some (notifier.FailedAfter notifier.maxRetries lastErr))
  | S remaining' =>
      let request :=
        let '(evs, r) := sendRequest n title message priority tags
                           (notifier.exchanged (env attempt)) in
        match r with
        | Some err =>
            let '(evs', res) :=
              attemptsFrom n env title message priority tags
                remaining' (S attempt) (Some err) in
            ((evs ++ evs')%list, res)
        | None => (evs, None)
        end in
      if Nat.ltb 0 attempt then
        let w := notifier.Waited (mul notifier.retryBackoff (Z.of_nat attempt)) in
        match notifier.waiting (env attempt) with
        | DoneWhileWaiting => ([w], Some notifier.ContextErr)
        | TimerFires => let '(evs, res) := request in (w :: evs, res)
        end
      else request
  end.

(** [Send] (lines 507-549). *)
Definition Send (n : Notifier) (env : nat -> notifier.conditions)
    (msg : websocket.P2000Message)
  : list notifier.event * option notifier.deliveryError :=
  let message := formatMessage n msg in
  let title := formatTitle n msg in
  let priority := notifier.defaultPriority in
  let tags := getTags (websocket.Type_ msg) in
  attemptsFrom n env title message priority tags (Z.to_nat notifier.maxRetries) 0 None.

End notifier_rev.

(** ** cmd/p2000-forwarder/main.go: how the notifier is built from the
  configuration (the second document of integration_test.go, lines
  535-542) *)
Module main.

Definition newNotifier (cfg : config.NtfyConfig)
    (translations : gmap string string) (capcodeLookup : option capcode.Lookup)
  : notifier.Notifier :=
  notifier.NewNotifier (config.Server cfg) (config.Topic cfg) (config.Token cfg)
    translations capcodeLookup.

End main.

(** ** More of the packages above: what the functions of Part I are used
    with, and the vocabulary to speak of their runs *)

(** *** internal/capcode/lookup.go: the rows [NewLookup] indexes *)
Module capcode_rows.

(** The capcode a row is indexed under (line 64). *)
Definition rowKey (record : list string) : string :=
  strings.Trim (hd EmptyString record) capcode.quote.

(** The test of line 60, negated: the row has its five fields. *)
Definition complete (record : list string) : bool :=
  Nat.leb 5 (length record).

(** The record lines 64-71 build from a row. *)
Definition infoOf (record : list string) : option capcode.CapcodeInfo :=
  match record with
  | r0 :: r1 :: r2 :: r3 :: r4 :: _ =>
      Some {| capcode.Capcode := strings.Trim r0 capcode.quote;
              capcode.Agency := strings.Trim r1 capcode.quote;
              capcode.Region := strings.Trim r2 capcode.quote;
              capcode.Station := strings.Trim r3 capcode.quote;
              capcode.Function := strings.Trim r4 capcode.quote |}
  | _ => None
  end.

(** The rows the loop of lines 58-82 visits. *)
Definition dataRows (records : list (list string)) : list (list string) :=
  match capcode.startIdx records with
  | Some i => drop i records
  | None => []
  end.

End capcode_rows.

(** *** src/unnamed/part_001: runs of the client, seen from outside *)
Module feed.
Import time channel json websocket.

(** The iterations [Connect] gets to make: it returns in the first one
    whose wait the context ends. *)
Fixpoint executed (script : list iteration) : list iteration :=
  match script with
  | [] => []
  | it :: rest =>
      it :: match wait it with
            | TimerFires => executed rest
            | DoneWhileWaiting => []
            end
  end.

(** The sockets the iterations open and the frames read from them, in
    order. *)
Fixpoint opened (script : list iteration) : list Conn :=
  match script with
  | [] => []
  | it :: rest =>
      match meets it with
      | DialFails => opened rest
      | Connects cn _ _ => cn :: opened rest
      end
  end.

Fixpoint framesRead (script : list iteration) : list string :=
  match script with
  | [] => []
  | it :: rest =>
      match meets it with
      | DialFails => framesRead rest
      | Connects _ frames _ => (frames ++ framesRead rest)%list
      end
  end.

(** The frames that decode, decoded. *)
Fixpoint decoded (codec : Codec) (frames : list string) : list P2000Message :=
  match frames with
  | [] => []
  | data :: rest =>
      match Unmarshal codec data zeroMessage with
      | Some msg => msg :: decoded codec rest
      | None => decoded codec rest
      end
  end.

(** The sockets closed and the close frames written in a trace. *)
Fixpoint closedConns (evs : list event) : list Conn :=
  match evs with
  | [] => []
  | ConnClosed cn :: rest => cn :: closedConns rest
  | _ :: rest => closedConns rest
  end.

Fixpoint closeFrames (evs : list event) : list Conn :=
  match evs with
  | [] => []
  | CloseFrameWritten cn :: rest => cn :: closeFrames rest
  | _ :: rest => closeFrames rest
  end.

(** The statuses [Connect] reports: [true] after a handshake, [false]
    after every return of [connectAndListen]. *)
Fixpoint reportedBy (script : list iteration) : list bool :=
  match script with
  | [] => []
  | it :: rest =>
      match meets it with
      | DialFails => false :: reportedBy rest
      | Connects _ _ _ => true :: false :: reportedBy rest
      end
  end.

(** What the consumer of [StatusChan()] receives while the client
    reports: the values its receives take out of the channel. *)
Fixpoint drained (c : Client) (ops : list statusOp) : list bool :=
  match ops with
  | [] => []
  | Report connected :: rest => drained (notifyStatus c connected) rest
  | Drain :: rest =>
      match recv (statusChan c) with
      | Some (v, ch) => v :: drained (setStatusChan c ch) rest
      | None => drained c rest
      end
  end.

Fixpoint reported (ops : list statusOp) : list bool :=
  match ops with
  | [] => []
  | Report connected :: rest => connected :: reported rest
  | Drain :: rest => reported rest
  end.

(** A consumer that receives after every report. *)
Fixpoint prompt (statuses : list bool) : list statusOp :=
  match statuses with
  | [] => []
  | b :: rest => Report b :: Drain :: prompt rest
  end.

End feed.

(** *** [strconv], as far as the configuration uses it *)
Module strconv.

(** [strconv.ParseBool] *)
Definition ParseBool (str : string) : option bool :=
  if existsb (String.eqb str) ["1"; "t"; "T"; "TRUE"; "true"; "True"] then Some true
  else if existsb (String.eqb str) ["0"; "f"; "F"; "FALSE"; "false"; "False"] then Some false
  else None.

(** [strconv.Atoi] with a 64-bit [int]: an optional sign, at least one
    decimal digit, a value in the int64 range. *)
Definition Atoi (s : string) : option Z :=
  match s with
  | EmptyString => None
  | String "-" EmptyString => None
  | String "+" EmptyString => None
  | String "-" rest =>
      match json.digits rest 0 with
      | Some z => if z <=? 2 ^ 63 then Some (- z) else None
      | None => None
      end
  | String "+" rest =>
      match json.digits rest 0 with
      | Some z => if z <? 2 ^ 63 then Some z else None
      | None => None
      end
  | _ =>
      match json.digits s 0 with
      | Some z => if z <? 2 ^ 63 then Some z else None
      | None => None
      end
  end.

End strconv.

(** *** internal/config/config.go: [Load] and [Validate] *)
Module settings.
Import config.

Record ServerConfig := {
  Port : Z;
  HealthPath : string;
  MetricsPath : string;
  ReadTimeout : Z;       (* seconds *)
  WriteTimeout : Z       (* seconds *)
}.

(** [type Config struct]; the field [Server] is [Server_] here, next to
    [config.Server] of [NtfyConfig]. *)
Record Config := {
  ForwardAll : bool;
  Capcodes : list string;
  CapcodeTranslations : gmap string string;
  CapcodeCSVPath : string;
  Ntfy : NtfyConfig;
  Server_ : ServerConfig
}.

(** What [Load] reads from: [os.Getenv] (the empty string for a variable
    that is not set), [os.ReadFile] and [yaml.Unmarshal(data, cfg)], which
    fills the struct it is given; [None] is an error. *)
Record World := {
  Getenv : string -> string;
  ReadFile : string -> option string;
  yamlUnmarshal : string -> Config -> option Config
}.

Inductive validationError :=
| NeedsCapcode     (* at least one capcode must be configured when forward_all is false *)
| NeedsServer      (* ntfy server must be configured *)
| NeedsTopic.      (* ntfy topic must be configured *)

Inductive loadError :=
| FailedToReadConfigFile
| FailedToParseConfigFile
| InvalidConfiguration (e : validationError).

(** Lines 41-51. *)
Definition defaults : Config :=
  {| ForwardAll := true; Capcodes := []; CapcodeTranslations := ∅;
     CapcodeCSVPath := "capcodelijst.csv";
     Ntfy := {| Server := EmptyString; Topic := EmptyString; Token := EmptyString;
                Username := EmptyString; Password := EmptyString |};
     Server_ := {| Port := 8080; HealthPath := "/health"; MetricsPath := "/metrics";
                   ReadTimeout := 10; WriteTimeout := 10 |} |}.

(** [Validate]; [None] is the nil error. *)
Definition Validate (c : Config) : option validationError :=
  if negb (ForwardAll c) && Nat.eqb (length (Capcodes c)) 0 then Some NeedsCapcode
  else if String.eqb (Server (Ntfy c)) EmptyString then Some NeedsServer
  else if String.eqb (Topic (Ntfy c)) EmptyString then Some NeedsTopic
  else None.

(** Lines 54-63: the configuration file over the defaults. *)
Definition fromFile (w : World) (configPath : string) : Config + loadError :=
  if String.eqb configPath EmptyString then inl defaults
  else match ReadFile w configPath with
       | None => inr FailedToReadConfigFile
       | Some data =>
           match yamlUnmarshal w data defaults with
           | None => inr FailedToParseConfigFile
           | Some cfg => inl cfg
           end
       end.

Definition withNtfy (c : Config) (n : NtfyConfig) : Config :=
  {| ForwardAll := ForwardAll c; Capcodes := Capcodes c;
     CapcodeTranslations := CapcodeTranslations c;
     CapcodeCSVPath := CapcodeCSVPath c; Ntfy := n; Server_ := Server_ c |}.

(** Lines 66-93: the environment over the file, one variable at a time. *)
Definition overrideForwardAll (w : World) (c : Config) : Config :=
  let forwardAll := Getenv w "FORWARD_ALL" in
  if negb (String.eqb forwardAll EmptyString) then
    match strconv.ParseBool forwardAll with
    | Some fa =>
        {| ForwardAll := fa; Capcodes := Capcodes c;
           CapcodeTranslations := CapcodeTranslations c;
           CapcodeCSVPath := CapcodeCSVPath c; Ntfy := Ntfy c; Server_ := Server_ c |}
    | None => c
    end
  else c.

Definition overrideNtfy (w : World) (c : Config) : Config :=
  let pick (name : string) (cur : string) : string :=
    if negb (String.eqb (Getenv w name) EmptyString) then Getenv w name else cur in
  withNtfy c
    {| Server := pick "NTFY_SERVER" (Server (Ntfy c));
       Topic := pick "NTFY_TOPIC" (Topic (Ntfy c));
       Token := pick "NTFY_TOKEN" (Token (Ntfy c));
       Username := pick "NTFY_USERNAME" (Username (Ntfy c));
       Password := pick "NTFY_PASSWORD" (Password (Ntfy c)) |}.

Definition overridePort (w : World) (c : Config) : Config :=
  let port := Getenv w "SERVER_PORT" in
  if negb (String.eqb port EmptyString) then
    match strconv.Atoi port with
    | Some p =>
        {| ForwardAll := ForwardAll c; Capcodes := Capcodes c;
           CapcodeTranslations := CapcodeTranslations c;
           CapcodeCSVPath := CapcodeCSVPath c; Ntfy := Ntfy c;
           Server_ := {| Port := p; HealthPath := HealthPath (Server_ c);
                         MetricsPath := MetricsPath (Server_ c);
                         ReadTimeout := ReadTimeout (Server_ c);
                         WriteTimeout := WriteTimeout (Server_ c) |} |}
    | None => c
    end
  else c.

Definition overrideCSVPath (w : World) (c : Config) : Config :=
  let csvPath := Getenv w "CAPCODE_CSV_PATH" in
  if negb (String.eqb csvPath EmptyString) then
    {| ForwardAll := ForwardAll c; Capcodes := Capcodes c;
       CapcodeTranslations := CapcodeTranslations c;
       CapcodeCSVPath := csvPath; Ntfy := Ntfy c; Server_ := Server_ c |}
  else c.

Definition overrides (w : World) (c : Config) : Config :=
  overrideCSVPath w (overridePort w (overrideNtfy w (overrideForwardAll w c))).

Definition Load (w : World) (configPath : string) : Config + loadError :=
  match fromFile w configPath with
  | inr e => inr e
  | inl cfg =>
      let cfg := overrides w cfg in
      match Validate cfg with
      | Some e => inr (InvalidConfiguration e)
      | None => inl cfg
      end
  end.

End settings.

(** *** internal/metrics/prometheus.go (first document) *)
Module metrics.

(** A counter is the number of its [Inc] calls, the histogram the
    durations observed (kept in nanoseconds), the gauge the value last
    set. *)
Record Metrics := {
  MessagesReceived : Z;
  MessagesFiltered : Z;
  NotificationsSent : Z;
  NotificationsFailed : Z;
  NotificationDuration : list time.Duration;
  WebsocketConnected : Z
}.

Definition NewMetrics : Metrics :=
  {| MessagesReceived := 0; MessagesFiltered := 0; NotificationsSent := 0;
     NotificationsFailed := 0; NotificationDuration := []; WebsocketConnected := 0 |}.

Definition RecordMessageReceived (m : Metrics) : Metrics :=
  {| MessagesReceived := MessagesReceived m + 1; MessagesFiltered := MessagesFiltered m;
     NotificationsSent := NotificationsSent m; NotificationsFailed := NotificationsFailed m;
     NotificationDuration := NotificationDuration m;
     WebsocketConnected := WebsocketConnected m |}.

Definition RecordMessageFiltered (m : Metrics) : Metrics :=
  {| MessagesReceived := MessagesReceived m; MessagesFiltered := MessagesFiltered m + 1;
     NotificationsSent := NotificationsSent m; NotificationsFailed := NotificationsFailed m;
     NotificationDuration := NotificationDuration m;
     WebsocketConnected := WebsocketConnected m |}.

Definition RecordNotificationSent (m : Metrics) : Metrics :=
  {| MessagesReceived := MessagesReceived m; MessagesFiltered := MessagesFiltered m;
     NotificationsSent := NotificationsSent m + 1;
     NotificationsFailed := NotificationsFailed m;
     NotificationDuration := NotificationDuration m;
     WebsocketConnected := WebsocketConnected m |}.

Definition RecordNotificationFailed (m : Metrics) : Metrics :=
  {| MessagesReceived := MessagesReceived m; MessagesFiltered := MessagesFiltered m;
     NotificationsSent := NotificationsSent m;
     NotificationsFailed := NotificationsFailed m + 1;
     NotificationDuration := NotificationDuration m;
     WebsocketConnected := WebsocketConnected m |}.

Definition Observe (m : Metrics) (d : time.Duration) : Metrics :=
  {| MessagesReceived := MessagesReceived m; MessagesFiltered := MessagesFiltered m;
     NotificationsSent := NotificationsSent m; NotificationsFailed := NotificationsFailed m;
     NotificationDuration := (NotificationDuration m ++ [d])%list;
     WebsocketConnected := WebsocketConnected m |}.

Definition SetWebsocketConnected (m : Metrics) (connected : bool) : Metrics :=
  {| MessagesReceived := MessagesReceived m; MessagesFiltered := MessagesFiltered m;
     NotificationsSent := NotificationsSent m; NotificationsFailed := NotificationsFailed m;
     NotificationDuration := NotificationDuration m;
     WebsocketConnected := if connected then 1 else 0 |}.

End metrics.

(** *** cmd/p2000-forwarder/main.go (second document of
    integration_test.go): the application around the two clients *)
Module app.
Import time.

Definition healthCheckWindow : Duration := 5 * (60 * Second).

(** [type Application struct], without the configuration, the logger and
    the two servers. *)
Record Application := {
  metrics_ : metrics.Metrics;
  filter_ : filter.CapcodeFilter;
  notifier_ : notifier.Notifier;
  lastMsg : Z;                   (* a time, in nanoseconds *)
  wsConnected : bool
}.

Definition withMetrics (a : Application) (m : metrics.Metrics) : Application :=
  {| metrics_ := m; filter_ := filter_ a; notifier_ := notifier_ a;
     lastMsg := lastMsg a; wsConnected := wsConnected a |}.

(** What one call of [handleMessage] meets: the clock when the message
    arrives, what the delivery meets, and how long the delivery took. *)
Record arrival := {
  now : Z;
  delivery : nat -> notifier.conditions;
  took : Duration
}.

(** [handleMessage] (lines 656-691), with the requests it causes. *)
Definition handleMessage (a : Application) (at_ : arrival) (msg : websocket.P2000Message)
  : Application * list notifier.event :=
  let a := {| metrics_ := metrics.RecordMessageReceived (metrics_ a);
              filter_ := filter_ a; notifier_ := notifier_ a;
              lastMsg := now at_; wsConnected := wsConnected a |} in
  if negb (filter.ShouldForward (filter_ a) (websocket.Capcodes msg)) then (a, [])
  else
    let a := withMetrics a (metrics.RecordMessageFiltered (metrics_ a)) in
    match notifier.Send (notifier_ a) (delivery at_) msg with
    | (evs, Some _) =>
        (withMetrics a (metrics.RecordNotificationFailed (metrics_ a)), evs)
    | (evs, None) =>
        (withMetrics a
           (metrics.RecordNotificationSent (metrics.Observe (metrics_ a) (took at_))),
         evs)
    end.

(** One turn of [monitorConnectionStatus] (lines 638-653) that receives
    a status. *)
Definition statusReceived (a : Application) (connected : bool) : Application :=
  {| metrics_ := metrics.SetWebsocketConnected (metrics_ a) connected;
     filter_ := filter_ a; notifier_ := notifier_ a;
     lastMsg := lastMsg a; wsConnected := connected |}.

(** [time.Since(t)] at the clock [now]: the difference, kept within the
    int64 range. *)
Definition Since (now t : Z) : Duration :=
  Z.max (- 2 ^ 63) (Z.min (2 ^ 63 - 1) (now - t)).

(** [healthCheckHandler] (lines 618-635): the status code written. *)
Definition healthCheckHandler (a : Application) (now : Z) : Z :=
  if negb (wsConnected a) then 503
  else if Since now (lastMsg a) >? healthCheckWindow then 503
  else 200.

(** What happens to the application, in order. *)
Inductive happening :=
| Arrives (at_ : arrival) (msg : websocket.P2000Message)
| Status (connected : bool).

Definition step (a : Application) (h : happening) : Application :=
  match h with
  | Arrives at_ msg => fst (handleMessage a at_ msg)
  | Status connected => statusReceived a connected
  end.

(** The application as [main] sets it up (lines 523-542), at the clock
    [start]. *)
Definition start (f : filter.CapcodeFilter) (n : notifier.Notifier) (clock : Z)
  : Application :=
  {| metrics_ := metrics.NewMetrics; filter_ := f; notifier_ := n;
     lastMsg := clock; wsConnected := false |}.

(** The messages of a run that pass the filter. *)
Fixpoint forwarded (f : filter.CapcodeFilter) (hs : list happening) : Z :=
  match hs with
  | [] => 0
  | Arrives _ msg :: rest =>
      (if filter.ShouldForward f (websocket.Capcodes msg) then 1 else 0) + forwarded f rest
  | Status _ :: rest => forwarded f rest
  end.

Fixpoint arrivals (hs : list happening) : Z :=
  match hs with
  | [] => 0
  | Arrives _ _ :: rest => 1 + arrivals rest
  | Status _ :: rest => arrivals rest
  end.

End app.

(** ** Data of the repository's tests, used to run the definitions *)
Module testdata.

(** internal/capcode/lookup_test.go, TestGet_LeadingZeros. *)
Definition leadingZerosCSV : capcode.csvFile :=
  capcode.Records
    [ ["0000123"; "Brandweer"; "Utrecht"; "Utrecht"; "Kazernealarm"];
      ["0101001"; "Ambulance"; "Utrecht"; "Utrecht"; "A1 Dienst"] ].

Definition leadingZerosData : gmap string capcode.CapcodeInfo :=
  foldl capcode.addRecord ∅
    [ ["0000123"; "Brandweer"; "Utrecht"; "Utrecht"; "Kazernealarm"];
      ["0101001"; "Ambulance"; "Utrecht"; "Utrecht"; "A1 Dienst"] ].

Definition leadingZeros : capcode.Lookup := {| capcode.data := leadingZerosData |}.

(** internal/capcode/lookup_test.go, TestNewLookup_ValidCSV: its header row. *)
Definition headerRow : list string :=
  ["Capcode"; "Agency"; "Region"; "Station"; "Function"].

(** internal/websocket/client_test.go: the payload of
    TestP2000Message_PartialData (an object with the members type,
    message and capcodes only) and that of TestHandleMessage_InvalidJSON,
    with a scanner that knows the two of them. *)
Definition str (s : string) : string := capcode.quote ++ s ++ capcode.quote.

Definition partialJSON : string :=
  "{" ++ str "type" ++ ":" ++ str "FLEX" ++ "," ++ str "message" ++ ":" ++ str "Test"
  ++ "," ++ str "capcodes" ++ ":[" ++ str "0101001" ++ "]}".

Definition partialMembers : list (string * json.value) :=
  [ ("type", json.JString "FLEX"); ("message", json.JString "Test");
    ("capcodes", json.JArray [json.JString "0101001"]) ].

Definition invalidJSON : string := "invalid json {".

Definition stubCodec : json.Codec :=
  {| json.scan := fun data =>
       if String.eqb data partialJSON then Some (json.JObject partialMembers) else None;
     json.ParseFloat := fun _ => None |}.

Definition partialMessage : websocket.P2000Message :=
  {| websocket.Type_ := "FLEX"; websocket.Timestamp := 0;
     websocket.Signal_ := websocket.zeroSignal; websocket.FrequencyErr := 0;
     websocket.Capcodes := ["0101001"]; websocket.Message := "Test";
     websocket.Agency := EmptyString |}.

(** internal/notifier/ntfy_test.go: a server that answers 500 to every
    request, with a caller that never cancels, and the message of the
    delivery tests. *)
Definition always500 : nat -> notifier.conditions :=
  fun _ => {| notifier.waiting := time.TimerFires;
              notifier.exchanged := http.Responds 500 |}.

Definition testAlert : websocket.P2000Message :=
  {| websocket.Type_ := "FLEX"; websocket.Timestamp := 0;
     websocket.Signal_ := websocket.zeroSignal; websocket.FrequencyErr := 0;
     websocket.Capcodes := []; websocket.Message := "Test alert";
     websocket.Agency := EmptyString |}.

Definition plainNotifier : notifier.Notifier :=
  notifier.NewNotifier "https://ntfy.sh" "test-topic" EmptyString ∅ None.

(** internal/notifier/ntfy_test.go, TestSend_BasicAuthPreferredOverToken:
    a token and a password are both configured. *)
Definition bothCredentials : config.NtfyConfig :=
  {| config.Server := "https://ntfy.sh"; config.Topic := "test-topic";
     config.Token := "token"; config.Username := "user";
     config.Password := "pass" |}.

(** The notifier of that test, in the copy of the package the test is
    written against, and a notifier with the lookup above. *)
Definition preferredNotifier : notifier_rev.Notifier :=
  notifier_rev.NewNotifier "https://ntfy.sh" "test-topic" "token" "user" "pass" ∅ None.

Definition lookupNotifier : notifier_rev.Notifier :=
  notifier_rev.NewNotifier "https://ntfy.sh" "topic" EmptyString EmptyString
    EmptyString ∅ (Some leadingZeros).

Definition answers200 : nat -> notifier.conditions :=
  fun _ => {| notifier.waiting := time.TimerFires;
              notifier.exchanged := http.Responds 200 |}.

(** TestFormatTitle, case With message, and TestFormatMessage_NoLookup. *)
Definition brandWoning : websocket.P2000Message :=
  {| websocket.Type_ := EmptyString; websocket.Timestamp := 0;
     websocket.Signal_ := websocket.zeroSignal; websocket.FrequencyErr := 0;
     websocket.Capcodes := []; websocket.Message := "Brand woning";
     websocket.Agency := EmptyString |}.

Definition twoCapcodes : websocket.P2000Message :=
  {| websocket.Type_ := EmptyString; websocket.Timestamp := 0;
     websocket.Signal_ := websocket.zeroSignal; websocket.FrequencyErr := 0;
     websocket.Capcodes := ["0101001"; "0101002"]; websocket.Message := EmptyString;
     websocket.Agency := EmptyString |}.

(** A run of the feed client: two failed dials, a connection that
    reads two frames and drops, two more failed dials. *)
Definition dialFailure : websocket.iteration :=
  {| websocket.meets := websocket.DialFails; websocket.wait := time.TimerFires |}.

Definition droppedSession : websocket.iteration :=
  {| websocket.meets :=
       websocket.Connects 1%nat [partialJSON; invalidJSON] websocket.ReadFails;
     websocket.wait := time.TimerFires |}.

Definition reconnectScript : list websocket.iteration :=
  [dialFailure; dialFailure; droppedSession; dialFailure; dialFailure].

(** cmd/p2000-forwarder/integration_test.go, TestEndToEnd_WithRetry: a
    server that answers 500 to the first two requests and 200 to the
    third. *)
Definition thirdTime200 : nat -> notifier.conditions :=
  fun attempt =>
    {| notifier.waiting := time.TimerFires;
       notifier.exchanged := http.Responds (if Nat.ltb attempt 2 then 500 else 200) |}.

(** internal/config/config_test.go, TestLoadWithEmptyPath: no file, the
    server and the topic in the environment. *)
Definition envOnly : settings.World :=
  {| settings.Getenv := fun name =>
       if String.eqb name "NTFY_SERVER" then "https://ntfy.sh"
       else if String.eqb name "NTFY_TOPIC" then "test"
       else EmptyString;
     settings.ReadFile := fun _ => None;
     settings.yamlUnmarshal := fun _ _ => None |}.

(** The application with a filter for one capcode, and two messages
    arriving at a server that answers 200: one for that capcode, one for
    another. *)
Definition always200 : nat -> notifier.conditions :=
  fun _ => {| notifier.waiting := time.TimerFires;
              notifier.exchanged := http.Responds 200 |}.

Definition oneCapcodeApp : app.Application :=
  app.start (filter.NewCapcodeFilter false ["0101001"]) plainNotifier 0.

Definition forCapcode (c : string) : websocket.P2000Message :=
  {| websocket.Type_ := "FLEX"; websocket.Timestamp := 0;
     websocket.Signal_ := websocket.zeroSignal; websocket.FrequencyErr := 0;
     websocket.Capcodes := [c]; websocket.Message := "Test alert";
     websocket.Agency := EmptyString |}.

Definition arrivalAt (clock : Z) : app.arrival :=
  {| app.now := clock; app.delivery := always200; app.took := 1000000 |}.

End testdata.

(* ===================================================================== *)
(** * Part II: theorems                                                   *)
(* ===================================================================== *)

(** ** Strings *)
Section StringFacts.
Import strings.

Lemma eqb_empty_iff (s : string) : String.eqb s EmptyString = true <-> s = EmptyString.
Proof. apply String.eqb_eq. Qed.

(** A string [TrimLeft] has worked on does not start with a byte of the
    cut set. *)
Lemma TrimLeft_head (s cutset : string) :
  match TrimLeft s cutset with
  | EmptyString => True
  | String a _ => inCutset a cutset = false
  end.
Proof.
  induction s as [|a s IH]; simpl; [exact I|].
  destruct (inCutset a cutset) eqn:E; [exact IH | exact E].
Qed.

Lemma TrimLeft_fixed (s cutset : string) :
  match s with
  | EmptyString => True
  | String a _ => inCutset a cutset = false
  end -> TrimLeft s cutset = s.
Proof. destruct s as [|a s]; simpl; [reflexivity|]. intros ->. reflexivity. Qed.

Lemma TrimLeft_idem (s cutset : string) :
  TrimLeft (TrimLeft s cutset) cutset = TrimLeft s cutset.
Proof. apply TrimLeft_fixed, TrimLeft_head. Qed.

(** [TrimLeft] with a one-byte cut set removes exactly the leading run
    of that byte. *)
Lemma TrimLeft_run (s : string) (a : ascii) :
  exists k, s = copies k a ++ TrimLeft s (String a EmptyString).
Proof.
  induction s as [|b s IH]; [exists 0%nat; reflexivity|].
  destruct IH as [k IH].
  simpl. destruct (Ascii.eqb b a) eqn:E.
  - apply Ascii.eqb_eq in E. subst b. exists (S k).
    change (String a s = String a (copies k a ++ TrimLeft s (String a EmptyString))).
    f_equal. exact IH.
  - exists 0%nat. reflexivity.
Qed.

End StringFacts.

(** ** The enrichment lookup *)
Section LookupFacts.
Import capcode.

Lemma normalize_idem (c : string) : normalize (normalize c) = normalize c.
Proof.
  unfold normalize.
  destruct (String.eqb (strings.TrimLeft c "0") EmptyString) eqn:E; [reflexivity|].
  rewrite TrimLeft_idem, E. reflexivity.
Qed.

(** The normalized key is the capcode without its leading run of zeros,
    or "0" when nothing else is left. *)
Lemma normalize_strips_zeros (c : string) :
  exists (k : nat) (r : string),
    c = strings.copies k "0" ++ r
    /\ (forall r', r <> String "0" r')
    /\ normalize c = (if String.eqb r EmptyString then "0" else r).
Proof.
  destruct (TrimLeft_run c "0"%char) as [k Hk].
  exists k, (strings.TrimLeft c "0"). split; [exact Hk|]. split; [|reflexivity].
  pose proof (TrimLeft_head c "0") as H.
  intros r' E. rewrite E in H. simpl in H. discriminate H.
Qed.

Lemma Get_empty (c : string) : Get {| data := ∅ |} c = None.
Proof. unfold Get. simpl. rewrite !lookup_empty. reflexivity. Qed.

(** A row of five or more fields is found afterwards under its literal
    capcode and under its normalized capcode. *)
Lemma addRecord_indexes (m : gmap string CapcodeInfo) (r0 r1 r2 r3 r4 : string)
    (more : list string) :
  let m' := addRecord m (r0 :: r1 :: r2 :: r3 :: r4 :: more) in
  let key := strings.Trim r0 quote in
  exists info,
    Capcode info = key
    /\ Get {| data := m' |} key = Some info
    /\ Get {| data := m' |} (normalize key) = Some info.
Proof.
  intros m' key. subst m'. unfold addRecord. fold key.
  set (info := {| Capcode := key; Agency := strings.Trim r1 quote;
                  Region := strings.Trim r2 quote;
                  Station := strings.Trim r3 quote;
                  Function := strings.Trim r4 quote |}).
  exists info. split; [reflexivity|]. unfold Get; cbn [data].
  split.
  - rewrite lookup_insert_eq. reflexivity.
  - rewrite normalize_idem.
    destruct (decide (key = normalize key)) as [E|N].
    + rewrite <- E, lookup_insert_eq. reflexivity.
    + rewrite (lookup_insert_ne _ key (normalize key)) by exact N.
      rewrite lookup_insert_eq. reflexivity.
Qed.

(** A row of fewer than five fields leaves the lookup as it was. *)
Lemma addRecord_short (m : gmap string CapcodeInfo) (record : list string) :
  (length record < 5)%nat -> addRecord m record = m.
Proof.
  destruct record as [|? [|? [|? [|? [|? ?]]]]]; simpl; intros H;
    try reflexivity; lia.
Qed.

End LookupFacts.

Section LookupClaims.
Import capcode.

(** C5. [Get] answers from the exact key when the map has it; otherwise
    it answers whatever the map holds under the normalized key, which is
    the capcode without its leading zeros, or "0" when only zeros were
    there; it answers nothing exactly when neither key is present; and a
    capcode without an exact entry is answered like its normalized form. *)
Theorem Get_exact_then_normalized (l : Lookup) (c : string) :
  (forall info, data l !! c = Some info -> Get l c = Some info)
  /\ (data l !! c = None -> Get l c = data l !! normalize c)
  /\ (Get l c = None <-> data l !! c = None /\ data l !! normalize c = None)
  /\ (data l !! c = None -> is_Some (data l !! normalize c) ->
      Get l c = Get l (normalize c))
  /\ (exists (k : nat) (r : string),
        c = strings.copies k "0" ++ r
        /\ (forall r', r <> String "0" r')
        /\ normalize c = (if String.eqb r EmptyString then "0" else r)).
Proof.
  unfold Get. repeat split.
  - intros info ->. reflexivity.
  - intros ->. reflexivity.
  - destruct (data l !! c); [discriminate | reflexivity].
  - destruct (data l !! c); [discriminate | tauto].
  - intros [-> ->]. reflexivity.
  - intros -> [info Hn]. rewrite normalize_idem, Hn. reflexivity.
  - apply normalize_strips_zeros.
Qed.

Lemma Get_exact_then_normalized_witness :
  Get testdata.leadingZeros "00123" = Get testdata.leadingZeros (normalize "00123").
Proof.
  destruct (Get_exact_then_normalized testdata.leadingZeros "00123")
    as (_ & _ & _ & H & _).
  apply H.
  - vm_compute. reflexivity.
  - vm_compute. eexists. reflexivity.
Defined.

(** C10. A file without data rows loads: with no record at all, or with
    one record that the header test skips, [NewLookup] returns a lookup
    in which [Get] finds nothing for any capcode.  [NewLookup] returns an
    error exactly for a failed open and a failed read, and from records
    as the CSV reader delivers them (none without a field) it returns a
    lookup. *)
Theorem NewLookup_without_data_rows :
  (exists l, NewLookup (Records []) = Loaded l /\ forall c, Get l c = None)
  /\ (forall header : list string, startIdx [header] = Some 1%nat ->
        exists l, NewLookup (Records [header]) = Loaded l /\ forall c, Get l c = None)
  /\ (forall f err, NewLookup f = Failed err <->
        exists cause, (f = OpenFails cause /\ err = FailedToOpen cause)
                      \/ (f = ReadAllFails cause /\ err = FailedToRead cause))
  /\ (forall records, Forall (fun record => record <> []) records ->
        exists l, NewLookup (Records records) = Loaded l).
Proof.
  split; [|split; [|split]].
  - eexists. split; [reflexivity|]. intros c. apply Get_empty.
  - intros header H. unfold NewLookup. rewrite H. eexists. split; [reflexivity|].
    intros c. apply Get_empty.
  - intros f err. split.
    + destruct f as [cause|cause|records]; simpl.
      * intros [= <-]. exists cause. left. split; reflexivity.
      * intros [= <-]. exists cause. right. split; reflexivity.
      * destruct (startIdx records); discriminate.
    + intros [cause [[-> ->]|[-> ->]]]; reflexivity.
  - intros records H. unfold NewLookup.
    destruct records as [|[|first more] rest].
    + eexists. reflexivity.
    + inversion H as [|? ? Hne _]. contradiction.
    + unfold startIdx.
      destruct (strings.Contains (strings.ToLower first) "capcode"
                || strings.Contains (strings.ToLower first) "cap")%bool;
        eexists; reflexivity.
Qed.

Lemma NewLookup_without_data_rows_witness :
  exists l, NewLookup (Records [testdata.headerRow]) = Loaded l
            /\ forall c, Get l c = None.
Proof.
  destruct NewLookup_without_data_rows as (_ & H & _).
  apply (H testdata.headerRow). vm_compute. reflexivity.
Defined.

End LookupClaims.

(** ** The subscription filter *)
Section FilterFacts.
Import filter.

Lemma allowedCaps_fold (capcodes : list string) (m : gmap string unit) (c : string) :
  foldl (fun m capcode => <[capcode := tt]> m) m capcodes !! c
  = if decide (c ∈ capcodes) then Some tt else m !! c.
Proof.
  revert m. induction capcodes as [|a capcodes IH]; intros m; simpl.
  - destruct (decide (c ∈ [])) as [H|_]; [|reflexivity]. inversion H.
  - rewrite IH.
    destruct (decide (c ∈ capcodes)) as [H|H].
    + destruct (decide (c ∈ a :: capcodes)) as [_|N]; [reflexivity|].
      exfalso. apply N. right. exact H.
    + destruct (decide (c ∈ a :: capcodes)) as [H'|N].
      * apply elem_of_cons in H' as [->|H']; [|contradiction].
        rewrite lookup_insert_eq. reflexivity.
      * rewrite lookup_insert_ne; [reflexivity|].
        intros ->. apply N. left.
Qed.

(** The allow-set built by [NewCapcodeFilter] holds exactly the
    configured capcodes. *)
Lemma allowedCaps_NewCapcodeFilter (all : bool) (configured : list string) (c : string) :
  is_Some (allowedCaps (NewCapcodeFilter all configured) !! c) <-> c ∈ configured.
Proof.
  unfold NewCapcodeFilter; cbn [allowedCaps]. rewrite allowedCaps_fold, lookup_empty.
  destruct (decide (c ∈ configured)) as [H|H]; split; intros H'.
  - exact H.
  - eexists; reflexivity.
  - destruct H' as [? H']. discriminate H'.
  - contradiction.
Qed.

Lemma anyAllowed_true (allowed : gmap string unit) (capcodes : list string) :
  anyAllowed allowed capcodes = true
  <-> exists c, c ∈ capcodes /\ is_Some (allowed !! c).
Proof.
  induction capcodes as [|a capcodes IH]; simpl.
  - split; [discriminate|]. intros (c & H & _). inversion H.
  - destruct (allowed !! a) as [u|] eqn:E.
    + split; [|reflexivity]. intros _. exists a. split; [left|]. rewrite E. eexists; reflexivity.
    + rewrite IH. split.
      * intros (c & H & S). exists c. split; [right; exact H | exact S].
      * intros (c & H & S). apply elem_of_cons in H as [->|H].
        -- rewrite E in S. destruct S as [? S]. discriminate S.
        -- exists c. split; assumption.
Qed.

End FilterFacts.

Section FilterClaims.
Import filter.

(** C4. With allowAll set, [ShouldForward] is true for every list, the
    empty one included.  Otherwise it is true exactly when some element
    of the list is, as the same byte string, one of the configured
    capcodes; so the empty list is refused, and a capcode that differs in
    any byte (case, white space, zero padding) from a configured one does
    not match it. *)
Theorem ShouldForward_exact_match (configured capcodes : list string) :
  ShouldForward (NewCapcodeFilter true configured) capcodes = true
  /\ ShouldForward (NewCapcodeFilter true configured) [] = true
  /\ (ShouldForward (NewCapcodeFilter false configured) capcodes = true
      <-> exists c, c ∈ capcodes /\ c ∈ configured)
  /\ ShouldForward (NewCapcodeFilter false configured) [] = false
  /\ (forall a c : string, a <> c ->
        ShouldForward (NewCapcodeFilter false [a]) [c] = false).
Proof.
  split; [reflexivity|]. split; [reflexivity|]. split; [|split; [reflexivity|]].
  - unfold ShouldForward. cbn [forwardAll].
    destruct capcodes as [|a capcodes].
    + split; [discriminate|]. intros (c & H & _). inversion H.
    + change (anyAllowed (allowedCaps (NewCapcodeFilter false configured))
                (a :: capcodes) = true
              <-> (exists c, c ∈ a :: capcodes /\ c ∈ configured)).
      rewrite anyAllowed_true. split.
      * intros (c & H & S). exists c. split; [exact H|].
        apply (allowedCaps_NewCapcodeFilter false). exact S.
      * intros (c & H & S). exists c. split; [exact H|].
        apply (allowedCaps_NewCapcodeFilter false). exact S.
  - intros a c N.
    destruct (ShouldForward (NewCapcodeFilter false [a]) [c]) eqn:E; [|reflexivity].
    exfalso.
    change (anyAllowed (allowedCaps (NewCapcodeFilter false [a])) [c] = true) in E.
    apply anyAllowed_true in E as (x & Hx & S).
    apply (allowedCaps_NewCapcodeFilter false) in S.
    apply list_elem_of_singleton in Hx, S. congruence.
Qed.

Lemma ShouldForward_exact_match_witness :
  ShouldForward (NewCapcodeFilter false ["abc123"]) ["ABC123"] = false
  /\ ShouldForward (NewCapcodeFilter false ["0101001"; " 0101002"]) ["0101002"] = false
  /\ ShouldForward (NewCapcodeFilter false ["0101001"; "0101002"]) ["9999999"; "0101001"] = true.
Proof.
  split; [|split].
  - apply (ShouldForward_exact_match [] []). discriminate.
  - destruct (ShouldForward (NewCapcodeFilter false ["0101001"; " 0101002"]) ["0101002"]) eqn:E;
      [|reflexivity].
    apply (ShouldForward_exact_match ["0101001"; " 0101002"] ["0101002"]) in E
      as (c & Hc & Ha).
    apply list_elem_of_singleton in Hc. subst c.
    apply elem_of_cons in Ha as [Ha|Ha]; [discriminate Ha|].
    apply list_elem_of_singleton in Ha. discriminate Ha.
  - apply (ShouldForward_exact_match ["0101001"; "0101002"] ["9999999"; "0101001"]).
    exists "0101001". split; [right; left | left].
Defined.

End FilterClaims.

(** ** The feed client: backoff *)
Section BackoffFacts.
Import time channel json websocket.

Variable codec : Codec.

Lemma wrap64_small (z : Z) : - 2 ^ 63 <= z < 2 ^ 63 -> wrap64 z = z.
Proof. intros H. unfold wrap64. rewrite Z.mod_small; lia. Qed.

Lemma specDelay_range (n : nat) : initialBackoff <= specDelay n <= maxBackoff.
Proof.
  unfold specDelay, initialBackoff, maxBackoff, backoffMultiplier, Second.
  assert (1 <= 2 ^ Z.of_nat n) by (apply (Z.pow_le_mono_r 2 0); lia).
  lia.
Qed.

(** Doubling and capping takes one term of the specified sequence to
    the next; the int64 product never wraps on the way. *)
Lemma specDelay_succ (n : nat) :
  specDelay (S n)
  = (if mul (specDelay n) backoffMultiplier >? maxBackoff
     then maxBackoff else mul (specDelay n) backoffMultiplier).
Proof.
  pose proof (specDelay_range n) as R.
  unfold mul. rewrite wrap64_small.
  2:{ unfold initialBackoff, maxBackoff, backoffMultiplier, Second in *. lia. }
  unfold specDelay in *.
  replace (Z.of_nat (S n)) with (Z.of_nat n + 1) by lia.
  rewrite Z.pow_add_r by lia. rewrite Z.pow_1_r.
  assert (1 <= backoffMultiplier ^ Z.of_nat n)
    by (apply (Z.pow_le_mono_r 2 0); lia).
  unfold initialBackoff, maxBackoff, backoffMultiplier, Second in *.
  destruct (Z.gtb_spec (Z.min (1 * 1000000000 * 2 ^ Z.of_nat n) (30 * 1000000000) * 2)
              (30 * 1000000000)); lia.
Qed.

Lemma backoff_setBackoff (c : Client) (d : Duration) : backoff (setBackoff c d) = d.
Proof. reflexivity. Qed.

Lemma backoff_increaseBackoff (c : Client) (n : nat) :
  backoff c = specDelay n -> backoff (increaseBackoff c) = specDelay (S n).
Proof.
  intros H. rewrite specDelay_succ. unfold increaseBackoff. rewrite H.
  destruct (mul (specDelay n) backoffMultiplier >? maxBackoff); reflexivity.
Qed.

Lemma backoff_notifyStatus (c : Client) (b : bool) :
  backoff (notifyStatus c b) = backoff c.
Proof. unfold notifyStatus. destruct (send (statusChan c) b); reflexivity. Qed.

Lemma backoff_closeConnection (c : Client) :
  backoff (fst (closeConnection c)) = backoff c.
Proof. unfold closeConnection. destruct (conn c); reflexivity. Qed.

Lemma backoff_established (c : Client) (cn : Conn) :
  backoff (established c cn) = initialBackoff.
Proof. unfold established. rewrite backoff_notifyStatus. reflexivity. Qed.

Lemma delays_app (evs evs' : list event) :
  delays (evs ++ evs') = (delays evs ++ delays evs')%list.
Proof.
  induction evs as [|ev evs IH]; [reflexivity|].
  destruct ev; simpl; rewrite IH; reflexivity.
Qed.

Lemma delays_handleMessage (c : Client) (data : string) :
  delays (handleMessage codec c data) = [].
Proof.
  unfold handleMessage. destruct (Unmarshal codec data zeroMessage); [|reflexivity].
  destruct (msgHandler c); reflexivity.
Qed.

Lemma delays_closeConnection (c : Client) : delays (snd (closeConnection c)) = [].
Proof. unfold closeConnection. destruct (conn c); reflexivity. Qed.

(** A session neither waits nor touches the backoff. *)
Lemma readLoop_backoff (c : Client) (frames : list string) (e : sessionEnd) :
  backoff (fst (fst (readLoop codec c frames e))) = backoff c
  /\ delays (snd (readLoop codec c frames e)) = [].
Proof.
  induction frames as [|data rest IH]; simpl.
  - pose proof (backoff_closeConnection c). pose proof (delays_closeConnection c).
    destruct (closeConnection c) as [c' evs]. simpl in *. split; assumption.
  - destruct (readLoop codec c rest e) as [[c' err] evs]. simpl in *.
    destruct IH as [IH1 IH2]. split; [exact IH1|].
    rewrite delays_app, delays_handleMessage, IH2. reflexivity.
Qed.

Lemma connectAndListen_backoff (c : Client) (a : attempt) :
  backoff (fst (fst (connectAndListen codec c a)))
  = match a with DialFails => backoff c | Connects _ _ _ => initialBackoff end
  /\ delays (snd (connectAndListen codec c a)) = [].
Proof.
  destruct a as [|cn frames e]; simpl; [split; reflexivity|].
  pose proof (readLoop_backoff (established c cn) frames e) as [H1 H2].
  destruct (readLoop codec (established c cn) frames e) as [[c' err] evs]. simpl in *.
  rewrite backoff_established in H1. split; assumption.
Qed.

Lemma specDelay_0 : specDelay 0 = initialBackoff.
Proof. reflexivity. Qed.

Lemma Connect_delays (script : list iteration) (c : Client) (n : nat) :
  backoff c = specDelay n ->
  delays (snd (Connect codec script c)) = map specDelay (failureIndex n script).
Proof.
  revert c n. induction script as [|it rest IH]; intros c n Hc; [reflexivity|].
  cbn [Connect failureIndex].
  pose proof (connectAndListen_backoff c (meets it)) as [Hb Hd].
  destruct (connectAndListen codec c (meets it)) as [[c1 err] evs]. simpl in Hb, Hd.
  set (k := match meets it with DialFails => n | Connects _ _ _ => 0%nat end).
  assert (Hk : backoff (notifyStatus c1 false) = specDelay k).
  { rewrite backoff_notifyStatus, Hb. subst k.
    destruct (meets it); [exact Hc | reflexivity]. }
  destruct (wait it).
  - specialize (IH (increaseBackoff (notifyStatus c1 false)) (S k)
                  (backoff_increaseBackoff _ _ Hk)).
    destruct (Connect codec rest (increaseBackoff (notifyStatus c1 false))) as [c3 evs'].
    simpl in *. rewrite delays_app, Hd. simpl. rewrite Hk, IH. reflexivity.
  - simpl. rewrite delays_app, Hd. simpl. rewrite Hk. reflexivity.
Qed.

Lemma failureIndex_dial_failures (k n : nat) :
  failureIndex k (repeat {| meets := DialFails; wait := TimerFires |} n) = seq k n.
Proof.
  revert k. induction n as [|n IH]; intros k; [reflexivity|].
  simpl. rewrite IH. reflexivity.
Qed.

End BackoffFacts.

Section BackoffClaims.
Import time channel json websocket.

(** C1. In every run of the reconnect loop from a new client, the delay
    armed after an iteration is min(1s * 2^n, 30s), where n counts the
    consecutive failed iterations since the last completed handshake (or
    since the start).  With nothing but failed dials this is 1s, 2s, 4s,
    8s, 16s, 30s, 30s, and so on.  A completed handshake sets the
    backoff to 1s before the read loop is entered. *)
Theorem Connect_backoff_sequence (codec : Codec) (handler : bool)
    (script : list iteration) :
  delays (snd (Connect codec script (NewClient handler)))
  = map specDelay (failureIndex 0 script)
  /\ (forall n : nat,
        delays (snd (Connect codec
                       (repeat {| meets := DialFails; wait := TimerFires |} n)
                       (NewClient handler)))
        = map specDelay (seq 0 n))
  /\ map specDelay (seq 0 7)
     = [1 * Second; 2 * Second; 4 * Second; 8 * Second; 16 * Second;
        30 * Second; 30 * Second]
  /\ (forall n : nat, (5 <= n)%nat -> specDelay n = 30 * Second)
  /\ (forall (c : Client) (cn : Conn) (frames : list string) (e : sessionEnd),
        backoff (established c cn) = 1 * Second
        /\ connectAndListen codec c (Connects cn frames e)
           = (let '(c', err, evs) := readLoop codec (established c cn) frames e in
              (c', err, Dialed :: evs))).
Proof.
  split; [|split; [|split; [|split]]].
  - apply Connect_delays. reflexivity.
  - intros n. rewrite (Connect_delays codec _ _ 0%nat) by reflexivity.
    rewrite failureIndex_dial_failures. reflexivity.
  - reflexivity.
  - intros n Hn. unfold specDelay, initialBackoff, maxBackoff, backoffMultiplier, Second.
    assert (2 ^ 5 <= 2 ^ Z.of_nat n) by (apply Z.pow_le_mono_r; lia).
    lia.
  - intros c cn frames e. split; [apply backoff_established | reflexivity].
Qed.

(** The run of the test data: the delays restart at 1s after the
    handshake, and the frames of the session reach the handler or the
    log in the order read. *)
Example Connect_reconnect_run :
  snd (Connect testdata.stubCodec testdata.reconnectScript (NewClient true))
  = [ Dialed; Waited (1 * Second);
      Dialed; Waited (2 * Second);
      Dialed; Handled testdata.partialMessage; ParseFailed testdata.invalidJSON;
      CloseFrameWritten 1%nat; ConnClosed 1%nat; Waited (1 * Second);
      Dialed; Waited (2 * Second);
      Dialed; Waited (4 * Second) ].
Proof. vm_compute. reflexivity. Qed.

Lemma Connect_backoff_sequence_witness : specDelay 9 = 30 * Second.
Proof.
  destruct (Connect_backoff_sequence
              {| scan := fun _ => None; ParseFloat := fun _ => None |} true [])
    as (_ & _ & _ & H & _).
  apply (H 9%nat). lia.
Defined.

End BackoffClaims.

(** ** The feed client: decoding *)
Section DecodeFacts.
Import time channel json websocket.

Variable codec : Codec.

Lemma sameAt_refl (f : field) (m : P2000Message) : sameAt f m m.
Proof. destruct f; reflexivity. Qed.

Lemma sameAt_trans (f : field) (m1 m2 m3 : P2000Message) :
  sameAt f m1 m2 -> sameAt f m2 m3 -> sameAt f m1 m3.
Proof. destruct f; simpl; congruence. Qed.

Lemma sameSignalAt_trans (f : signalField) (s1 s2 s3 : Signal) :
  sameSignalAt f s1 s2 -> sameSignalAt f s2 s3 -> sameSignalAt f s1 s3.
Proof. destruct f; simpl; congruence. Qed.

(** Keys select a field whatever the case of their letters, and a long s
    stands for an s; a key that differs otherwise selects nothing. *)
Lemma nameMatches_folds :
  nameMatches "Signal" "signal" = true
  /\ nameMatches "CAPCODES" "capcodes" = true
  /\ nameMatches (smallLongEss ++ "ignal") "signal" = true
  /\ nameMatches ("capcode" ++ smallLongEss) "capcodes" = true
  /\ nameMatches (kelvin ++ "ey") "key" = true
  /\ nameMatches "signals" "signal" = false
  /\ nameMatches "frequency-error" "frequency_error" = false.
Proof. repeat split; vm_compute; reflexivity. Qed.

(** For a key of ASCII bytes the folding is that of the letters a to z. *)
Lemma equalFold_ascii (name key : string) :
  (forall b, In b (list_ascii_of_string key) -> (nat_of_ascii b < 128)%nat) ->
  equalFold name key = String.eqb (strings.ToLower name) (strings.ToLower key).
Proof.
  revert key. induction name as [|a name IH]; intros [|b key] H; try reflexivity.
  cbn [equalFold strings.ToLower String.eqb].
  assert (Hb : (nat_of_ascii b < 128)%nat) by (apply H; left; reflexivity).
  apply Nat.ltb_lt in Hb. rewrite Hb.
  rewrite IH by (intros b' Hb'; apply H; right; exact Hb').
  destruct (Ascii.eqb (strings.lowerByte a) (strings.lowerByte b)); reflexivity.
Qed.

Ltac step_field :=
  match goal with
  | H : context [if nameMatches ?k ?t then _ else _] |- _ =>
      destruct (nameMatches k t) eqn:?
  | H : (?o ≫= _) = Some _ |- _ => destruct o eqn:?; simpl in H; [|discriminate H]
  | H : Some _ = Some _ |- _ => injection H as <- <-
  end.

(** One member changes at most the field its key selects. *)
Lemma setField_untouched (key : string) (v : value)
    (m m' : P2000Message) (sp sp' : list string) (f : field) :
  setField codec key v m sp = Some (m', sp') ->
  nameMatches key (tag f) = false -> sameAt f m m'.
Proof.
  intros H N. unfold setField in H.
  repeat step_field; destruct f; simpl in N; try congruence; reflexivity.
Qed.

Lemma setSignalField_untouched (key : string) (v : value) (s s' : Signal)
    (f : signalField) :
  setSignalField key v s = Some s' ->
  nameMatches key (signalTag f) = false -> sameSignalAt f s s'.
Proof.
  intros H N. unfold setSignalField in H.
  repeat match goal with
         | H : context [if nameMatches ?k ?t then _ else _] |- _ =>
             destruct (nameMatches k t) eqn:?
         | H : (?o ≫= _) = Some _ |- _ =>
             destruct o eqn:?; simpl in H; [|discriminate H]
         | H : Some _ = Some _ |- _ => injection H as <-
         end;
    destruct f; simpl in N; try congruence; reflexivity.
Qed.

(** A field no member mentions is left as it was. *)
Lemma fillMessage_untouched (members : list (string * value))
    (m m' : P2000Message) (sp sp' : list string) (f : field) :
  fillMessage codec members m sp = Some (m', sp') ->
  mentions members (tag f) = false -> sameAt f m m'.
Proof.
  revert m sp. induction members as [|[key v] rest IH]; intros m sp H N; simpl in H.
  - injection H as <- <-. apply sameAt_refl.
  - simpl in N. apply orb_false_iff in N as [N1 N2].
    destruct (setField codec key v m sp) as [[m1 sp1]|] eqn:E; [|discriminate H].
    apply (sameAt_trans f m m1 m').
    + apply (setField_untouched key v m m1 sp sp1); assumption.
    + apply (IH m1 sp1); assumption.
Qed.

Lemma fillSignal_untouched (members : list (string * value)) (s s' : Signal)
    (f : signalField) :
  fillSignal members s = Some s' ->
  mentions members (signalTag f) = false -> sameSignalAt f s s'.
Proof.
  revert s. induction members as [|[key v] rest IH]; intros s H N; simpl in H.
  - injection H as <-. destruct f; reflexivity.
  - simpl in N. apply orb_false_iff in N as [N1 N2].
    destruct (setSignalField key v s) as [s1|] eqn:E; [|discriminate H].
    apply (sameSignalAt_trans f s s1 s').
    + apply (setSignalField_untouched key v); assumption.
    + apply IH; assumption.
Qed.

(** A member whose key selects no field is skipped, whatever its value. *)
Lemma setField_unknown (key : string) (v : value) (m : P2000Message)
    (sp : list string) :
  known key = false -> setField codec key v m sp = Some (m, sp).
Proof.
  unfold known, allFields. simpl. intros H.
  repeat (apply orb_false_iff in H as [? H]).
  unfold setField.
  repeat match goal with E : nameMatches key _ = false |- _ => rewrite E; clear E end.
  reflexivity.
Qed.

Lemma fillMessage_skips_unknown (members : list (string * value))
    (m : P2000Message) (sp : list string) :
  fillMessage codec members m sp
  = fillMessage codec (List.filter (fun member => known (fst member)) members) m sp.
Proof.
  revert m sp. induction members as [|[key v] rest IH]; intros m sp; [reflexivity|].
  cbn [List.filter fst]. destruct (known key) eqn:K.
  - cbn [fillMessage].
    destruct (setField codec key v m sp) as [[m1 sp1]|]; [apply IH | reflexivity].
  - cbn [fillMessage]. rewrite setField_unknown by exact K. apply IH.
Qed.

Lemma sameSignalAt_refl (f : signalField) (s : Signal) : sameSignalAt f s s.
Proof. destruct f; reflexivity. Qed.

(** One member changes a field of the nested struct only when it is an
    object for the signal field that mentions it. *)
Lemma setField_signal_untouched (key : string) (v : value)
    (m m' : P2000Message) (sp sp' : list string) (f : signalField) :
  setField codec key v m sp = Some (m', sp') ->
  nameMatches key "signal"
  && match v with JObject smembers => mentions smembers (signalTag f) | _ => false end
  = false ->
  sameSignalAt f (Signal_ m) (Signal_ m').
Proof.
  intros H N. unfold setField in H.
  destruct (nameMatches key "type");
    [destruct (intoString v (Type_ m)); simpl in H; [|discriminate H];
     injection H as <- <-; apply sameSignalAt_refl|].
  destruct (nameMatches key "timestamp");
    [destruct (intoInt v (Timestamp m)); simpl in H; [|discriminate H];
     injection H as <- <-; apply sameSignalAt_refl|].
  destruct (nameMatches key "signal") eqn:S.
  - simpl in N. destruct v as [| | | | |smembers]; simpl in H; try discriminate H.
    + injection H as <- <-. apply sameSignalAt_refl.
    + destruct (fillSignal smembers (Signal_ m)) as [s|] eqn:E; simpl in H;
        [|discriminate H].
      injection H as <- <-. cbn [Signal_].
      apply (fillSignal_untouched smembers); assumption.
  - repeat step_field; apply sameSignalAt_refl.
Qed.

Lemma fillMessage_signal_untouched (members : list (string * value))
    (m m' : P2000Message) (sp sp' : list string) (f : signalField) :
  fillMessage codec members m sp = Some (m', sp') ->
  signalMentions members (signalTag f) = false ->
  sameSignalAt f (Signal_ m) (Signal_ m').
Proof.
  revert m sp. induction members as [|[key v] rest IH]; intros m sp H N; simpl in H.
  - injection H as <- <-. apply sameSignalAt_refl.
  - cbn [signalMentions existsb fst snd] in N. apply orb_false_iff in N as [N1 N2].
    destruct (setField codec key v m sp) as [[m1 sp1]|] eqn:E; [|discriminate H].
    apply (sameSignalAt_trans f _ (Signal_ m1)).
    + apply (setField_signal_untouched key v m m1 sp sp1); assumption.
    + apply (IH m1 sp1); assumption.
Qed.

(** A member for a field that is given twice is decoded into what the
    first left: a null element of the second array keeps the string of
    the first, and a shorter array cuts the slice without clearing what
    lies behind it, which a later, longer array brings back. *)
Lemma fillMessage_repeated_capcodes :
  fst <$> fillMessage codec
            [ ("capcodes", JArray [JString "a"; JString "b"]);
              ("capcodes", JArray [JNull; JString "c"]) ] zeroMessage []
  = Some {| Type_ := EmptyString; Timestamp := 0; Signal_ := zeroSignal;
            FrequencyErr := 0; Capcodes := ["a"; "c"]; Message := EmptyString;
            Agency := EmptyString |}
  /\ fst <$> fillMessage codec
               [ ("capcodes", JArray [JString "a"; JString "b"; JString "c"]);
                 ("capcodes", JArray [JString "x"]);
                 ("capcodes", JArray [JNull; JNull]) ] zeroMessage []
     = Some {| Type_ := EmptyString; Timestamp := 0; Signal_ := zeroSignal;
               FrequencyErr := 0; Capcodes := ["x"; "b"]; Message := EmptyString;
               Agency := EmptyString |}
  /\ fst <$> fillMessage codec
               [ ("capcodes", JArray [JString "a"; JString "b"]);
                 ("capcodes", JArray []);
                 ("capcodes", JArray [JNull; JNull]) ] zeroMessage []
     = Some {| Type_ := EmptyString; Timestamp := 0; Signal_ := zeroSignal;
               FrequencyErr := 0; Capcodes := [EmptyString; EmptyString];
               Message := EmptyString; Agency := EmptyString |}.
Proof. repeat split. Qed.

(** A key written with a long s selects the signal field: a string for
    it is a type error, and an object for it fills the nested struct. *)
Lemma fillMessage_long_s :
  fillMessage codec [(smallLongEss ++ "ignal", JString "x")] zeroMessage [] = None
  /\ fst <$> fillMessage codec
               [(smallLongEss ++ "ignal", JObject [("frame", JNumber "7")])]
               zeroMessage []
     = Some {| Type_ := EmptyString; Timestamp := 0;
               Signal_ := {| Baudrate := 0; Frame := 7; Subtype := EmptyString;
                             Function := EmptyString |};
               FrequencyErr := 0; Capcodes := []; Message := EmptyString;
               Agency := EmptyString |}.
Proof. split; reflexivity. Qed.

End DecodeFacts.

Section DecodeClaims.
Import time channel json websocket.

(** C6. A frame whose payload does not decode is dropped: handleMessage
    logs it and returns without calling the handler, and the read loop
    goes on with the next frame on the same connection.  A payload that
    is an object and decodes gives the handler a message in which every
    field the object does not mention holds its zero value, and so does
    every field of the nested signal struct that no signal member
    mentions; members whose key names no field are skipped, so an object
    of unknown members only (or of none) decodes to the zero message.
    A key names a field as the decoder has it: by the exact tag, or by
    the tag under case folding, where a long s counts as an s. *)
Theorem handleMessage_drops_and_defaults (codec : Codec) (c : Client) (data : string) :
  (Unmarshal codec data zeroMessage = None ->
     handleMessage codec c data = [ParseFailed data]
     /\ handled (handleMessage codec c data) = []
     /\ forall rest e,
          readLoop codec c (data :: rest) e
          = (let '(c', err, evs) := readLoop codec c rest e in
             (c', err, ParseFailed data :: evs)))
  /\ (forall members msg,
        scan codec data = Some (JObject members) ->
        Unmarshal codec data zeroMessage = Some msg ->
        handleMessage codec c data = (if msgHandler c then [Handled msg] else [])
        /\ (forall f, mentions members (tag f) = false -> sameAt f zeroMessage msg)
        /\ (forall sf, signalMentions members (signalTag sf) = false ->
                       sameSignalAt sf zeroSignal (Signal_ msg)))
  /\ (forall members,
        scan codec data = Some (JObject members) ->
        Unmarshal codec data zeroMessage
        = fst <$> fillMessage codec
                    (List.filter (fun member => known (fst member)) members)
                    zeroMessage [])
  /\ (forall members,
        scan codec data = Some (JObject members) ->
        (forall member, member ∈ members -> known (fst member) = false) ->
        Unmarshal codec data zeroMessage = Some zeroMessage).
Proof.
  split; [|split; [|split]].
  - intros H. unfold handleMessage. rewrite H. split; [reflexivity|].
    split; [reflexivity|]. intros rest e. cbn [readLoop]. unfold handleMessage.
    rewrite H. reflexivity.
  - intros members msg Hs Hu. split; [|split].
    + unfold handleMessage. rewrite Hu. reflexivity.
    + intros f Hf. unfold Unmarshal in Hu. rewrite Hs in Hu. cbn [intoMessage] in Hu.
      apply fmap_Some in Hu as ([m' sp'] & Hu & ->).
      apply (fillMessage_untouched codec members zeroMessage m' [] sp'); assumption.
    + intros sf Hf. unfold Unmarshal in Hu. rewrite Hs in Hu. cbn [intoMessage] in Hu.
      apply fmap_Some in Hu as ([m' sp'] & Hu & ->).
      apply (fillMessage_signal_untouched codec members zeroMessage m' [] sp');
        assumption.
  - intros members Hs. unfold Unmarshal. rewrite Hs. cbn [intoMessage].
    rewrite (fillMessage_skips_unknown codec members zeroMessage []). reflexivity.
  - intros members Hs Hk. unfold Unmarshal. rewrite Hs. cbn [intoMessage].
    clear Hs.
    assert (E : fillMessage codec members zeroMessage [] = Some (zeroMessage, [])).
    { induction members as [|[key v] rest IH]; [reflexivity|].
      cbn [fillMessage]. rewrite setField_unknown.
      - apply IH. intros member Hm. apply Hk. right. exact Hm.
      - apply (Hk (key, v)). left. }
    rewrite E. reflexivity.
Qed.

Lemma handleMessage_drops_and_defaults_witness :
  handleMessage testdata.stubCodec (NewClient true) testdata.invalidJSON
  = [ParseFailed testdata.invalidJSON]
  /\ handleMessage testdata.stubCodec (NewClient true) testdata.partialJSON
     = [Handled testdata.partialMessage]
  /\ Timestamp testdata.partialMessage = 0.
Proof.
  split; [|split].
  - apply (handleMessage_drops_and_defaults testdata.stubCodec (NewClient true)
             testdata.invalidJSON).
    vm_compute. reflexivity.
  - destruct (handleMessage_drops_and_defaults testdata.stubCodec (NewClient true)
                testdata.partialJSON) as (_ & H & _).
    destruct (H testdata.partialMembers testdata.partialMessage) as (H1 & _).
    + vm_compute. reflexivity.
    + vm_compute. reflexivity.
    + exact H1.
  - destruct (handleMessage_drops_and_defaults testdata.stubCodec (NewClient true)
                testdata.partialJSON) as (_ & H & _).
    destruct (H testdata.partialMembers testdata.partialMessage) as (_ & H2 & _).
    + vm_compute. reflexivity.
    + vm_compute. reflexivity.
    + symmetry. apply (H2 FTimestamp). vm_compute. reflexivity.
Defined.

End DecodeClaims.

(** ** The feed client: the status feed *)
Section StatusFacts.
Import time channel json websocket.

(** The status channel keeps its one slot whatever the client and the
    consumer do. *)
Lemma statusStep_slot (c : Client) (op : statusOp) :
  capacity (statusChan c) = 1%nat /\ (length (buffer (statusChan c)) <= 1)%nat ->
  capacity (statusChan (statusStep c op)) = 1%nat
  /\ (length (buffer (statusChan (statusStep c op))) <= 1)%nat.
Proof.
  intros [Hc Hl]. destruct op as [connected|]; simpl.
  - unfold notifyStatus, send. rewrite Hc.
    destruct (Nat.ltb_spec (length (buffer (statusChan c))) 1); simpl.
    + split; [reflexivity|]. rewrite length_app. simpl. lia.
    + split; [exact Hc | exact Hl].
  - unfold recv. destruct (buffer (statusChan c)) as [|v rest] eqn:E; simpl.
    + rewrite E. split; [exact Hc | simpl; lia].
    + split; [exact Hc|]. simpl in Hl. lia.
Qed.

Lemma status_slot (ops : list statusOp) (c : Client) :
  capacity (statusChan c) = 1%nat /\ (length (buffer (statusChan c)) <= 1)%nat ->
  capacity (statusChan (foldl statusStep c ops)) = 1%nat
  /\ (length (buffer (statusChan (foldl statusStep c ops))) <= 1)%nat.
Proof.
  revert c. induction ops as [|op ops IH]; intros c H; [exact H|].
  simpl. apply IH, statusStep_slot, H.
Qed.

End StatusFacts.

Section StatusClaims.
Import time channel json websocket.

(** C7. The status feed is a channel of one slot, and stays one under
    every interleaving of reports and of receives by the consumer.  In
    each state reached, notifyStatus returns: into an empty slot it puts
    the status; with the slot taken, where a plain send would park the
    sender, it drops the status and leaves the client as it is. *)
Theorem notifyStatus_never_blocks (handler : bool) (ops : list statusOp)
    (connected : bool) :
  let c := foldl statusStep (NewClient handler) ops in
  capacity (statusChan (NewClient handler)) = 1%nat
  /\ capacity (statusChan c) = 1%nat
  /\ (length (buffer (statusChan c)) <= 1)%nat
  /\ (buffer (statusChan c) = [] ->
        notifyStatus c connected
        = setStatusChan c {| capacity := 1; buffer := [connected] |})
  /\ (buffer (statusChan c) <> [] ->
        send (statusChan c) connected = None /\ notifyStatus c connected = c).
Proof.
  intros c.
  assert (H : capacity (statusChan c) = 1%nat
              /\ (length (buffer (statusChan c)) <= 1)%nat).
  { apply status_slot. simpl. split; [reflexivity | lia]. }
  destruct H as [Hc Hl].
  split; [reflexivity|]. split; [exact Hc|]. split; [exact Hl|]. split.
  - intros E. unfold notifyStatus, send. rewrite Hc, E. reflexivity.
  - intros N. unfold notifyStatus, send. rewrite Hc.
    destruct (buffer (statusChan c)) as [|v rest]; [contradiction|].
    simpl in Hl. destruct rest; [|simpl in Hl; lia].
    split; reflexivity.
Qed.

Lemma notifyStatus_never_blocks_witness :
  notifyStatus (notifyStatus (NewClient true) true) false
  = notifyStatus (NewClient true) true.
Proof.
  apply (notifyStatus_never_blocks true [Report true] false). discriminate.
Defined.

End StatusClaims.

(** ** The feed client: closing *)
Section CloseFacts.
Import time channel json websocket.

(** With a socket open, closeConnection writes the close frame, closes
    the socket and forgets it. *)
Lemma closeConnection_open (c : Client) (cn : Conn) :
  conn c = Some cn ->
  closeConnection c = (setConn c None, [CloseFrameWritten cn; ConnClosed cn]).
Proof. intros H. unfold closeConnection. rewrite H. reflexivity. Qed.

(** Without a socket it does nothing, so calling it again after a call
    changes nothing. *)
Lemma closeConnection_no_socket (c : Client) :
  conn c = None -> closeConnection c = (c, []).
Proof. intros H. unfold closeConnection. rewrite H. reflexivity. Qed.

Lemma closeConnection_idempotent (c : Client) :
  closeConnection (fst (closeConnection c)) = (fst (closeConnection c), []).
Proof.
  apply closeConnection_no_socket. unfold closeConnection.
  destruct (conn c) eqn:E; [reflexivity | exact E].
Qed.

(** The first Close on a client with a socket sends the close frame and
    releases the socket. *)
Lemma Close_open (c : Client) (cn : Conn) :
  done c = Open -> conn c = Some cn ->
  Close c = Returns (setConn (setDone c Closed) None,
                     [CloseFrameWritten cn; ConnClosed cn]).
Proof.
  intros Hd Hc. unfold Close. rewrite Hd. simpl.
  rewrite (closeConnection_open _ cn) by exact Hc. reflexivity.
Qed.

(** Whatever Close returns, it has closed the done channel. *)
Lemma Close_closes_done (c c' : Client) (evs : list event) :
  Close c = Returns (c', evs) -> done c' = Closed /\ conn c' = None.
Proof.
  unfold Close. destruct (done c); simpl; [|discriminate].
  unfold closeConnection. change (conn (setDone c Closed)) with (conn c).
  destruct (conn c) eqn:E; intros [= <- <-]; split; try reflexivity. exact E.
Qed.

(** So a second Close runs into the panic of closing a closed channel. *)
Lemma Close_after_Close (c c' : Client) (evs : list event) :
  Close c = Returns (c', evs) -> Close c' = Panics "close of closed channel".
Proof.
  intros H. apply Close_closes_done in H as [H _]. unfold Close. rewrite H. reflexivity.
Qed.

End CloseFacts.

Section CloseClaims.
Import time channel json websocket.

(** C8, at the input where the code departs from it.  On a new client,
    which has no socket, the first Close returns, having closed the done
    channel; the second Close does not return: it panics on closing the
    closed channel. *)
Theorem Close_twice_panics :
  Close (NewClient true) = Returns (setDone (NewClient true) Closed, [])
  /\ Close (setDone (NewClient true) Closed) = Panics "close of closed channel".
Proof. split; reflexivity. Qed.

End CloseClaims.

(** ** The delivery client: retries *)
Section DeliveryFacts.
Import time http notifier.

Lemma sendRequest_delivered (n : Notifier) (title message priority tags : string)
    (x : exchange) :
  snd (sendRequest n title message priority tags x) = None <-> delivered x = true.
Proof.
  destruct x as [cause|cause|code]; simpl; try (split; discriminate).
  destruct (Z.ltb_spec code 200), (Z.geb_spec code 300),
           (Z.leb_spec 200 code), (Z.ltb_spec code 300);
    simpl; split; intros; try reflexivity; try discriminate; lia.
Qed.

Lemma delivered_range (x : exchange) :
  delivered x = true <-> exists code, x = Responds code /\ 200 <= code < 300.
Proof.
  destruct x as [cause|cause|code]; simpl.
  - split; [discriminate|]. intros (c & E & _). discriminate E.
  - split; [discriminate|]. intros (c & E & _). discriminate E.
  - rewrite andb_true_iff, Z.leb_le, Z.ltb_lt. split.
    + intros H. exists code. split; [reflexivity | exact H].
    + intros (c & [= <-] & H). exact H.
Qed.

Lemma sendRequest_one_request (n : Notifier) (title message priority tags : string)
    (x : exchange) :
  requests (fst (sendRequest n title message priority tags x)) = 1%nat
  /\ waits (fst (sendRequest n title message priority tags x)) = []
  /\ forall d rest, fst (sendRequest n title message priority tags x) <> Waited d :: rest.
Proof. destruct x; repeat split; try reflexivity; intros d rest; discriminate. Qed.

Lemma requests_app (evs evs' : list event) :
  requests (evs ++ evs') = (requests evs + requests evs')%nat.
Proof.
  induction evs as [|ev evs IH]; [reflexivity|].
  destruct ev; simpl; rewrite IH; reflexivity.
Qed.

Lemma waits_app (evs evs' : list event) :
  waits (evs ++ evs') = (waits evs ++ waits evs')%list.
Proof.
  induction evs as [|ev evs IH]; [reflexivity|].
  destruct ev; simpl; rewrite IH; reflexivity.
Qed.

(** The three turns of the loop, laid out. *)
Lemma Send_unrolled (n : Notifier) (env : nat -> conditions) (msg : websocket.P2000Message) :
  let call i := sendRequest n (formatTitle n msg) (formatMessage n msg)
                  defaultPriority (getTags (websocket.Type_ msg)) (exchanged (env i)) in
  Send n env msg
  = match snd (call 0%nat) with
    | None => (fst (call 0%nat), None)
    | Some _ =>
        match waiting (env 1%nat) with
        | DoneWhileWaiting =>
            ((fst (call 0%nat) ++ [Waited (2 * Second)])%list, Some ContextErr)
        | TimerFires =>
            match snd (call 1%nat) with
            | None =>
                ((fst (call 0%nat) ++ Waited (2 * Second) :: fst (call 1%nat))%list, None)
            | Some _ =>
                match waiting (env 2%nat) with
                | DoneWhileWaiting =>
                    ((fst (call 0%nat) ++ Waited (2 * Second) :: fst (call 1%nat)
                        ++ [Waited (4 * Second)])%list, Some ContextErr)
                | TimerFires =>
                    ((fst (call 0%nat) ++ Waited (2 * Second) :: fst (call 1%nat)
                        ++ Waited (4 * Second) :: fst (call 2%nat))%list,
                     match snd (call 2%nat) with
                     | None => None
                     | Some err => Some (FailedAfter 3 (Some err))
                     end)
                end
            end
        end
    end.
Proof.
  intros call. unfold Send. change (Z.to_nat maxRetries) with 3%nat.
  cbn [attemptsFrom Nat.ltb Nat.leb]. fold (call 0%nat) (call 1%nat) (call 2%nat).
  destruct (call 0%nat) as [e0 [r0|]]; [|reflexivity].
  destruct (waiting (env 1%nat)); [|reflexivity].
  destruct (call 1%nat) as [e1 [r1|]]; [|reflexivity].
  destruct (waiting (env 2%nat)); [|reflexivity].
  destruct (call 2%nat) as [e2 [r2|]]; simpl; rewrite ?app_nil_r; reflexivity.
Qed.
End DeliveryFacts.

Section DeliveryClaims.
Import time http notifier.

(** C2. [Send] calls sendRequest at least once and at most three times.
    A call succeeds exactly when a response arrives whose status code is
    in [200,300); a request that cannot be built, a failed round trip and
    any other status are failures, each followed by the next turn.
    Nothing is waited for before the first call; 2s are waited for
    before the second and 4s before the third, and when the context is
    done during a wait [Send] returns the context's error without a
    further call.  When the third call fails too, the error returned
    counts 3 attempts and carries the error of the third call. *)
Theorem Send_bounded_retries (n : Notifier) (env : nat -> conditions)
    (msg : websocket.P2000Message) :
  let call i := sendRequest n (formatTitle n msg) (formatMessage n msg)
                  defaultPriority (getTags (websocket.Type_ msg)) (exchanged (env i)) in
  let ok i := delivered (exchanged (env i)) in
  let w1 := Waited (2 * Second) in
  let w2 := Waited (4 * Second) in
  (forall i, snd (call i) = None
             <-> exists code, exchanged (env i) = Responds code /\ 200 <= code < 300)
  /\ (1 <= requests (fst (Send n env msg)) <= 3)%nat
  /\ (exists k, waits (fst (Send n env msg)) = firstn k [2 * Second; 4 * Second])
  /\ (forall d rest, fst (Send n env msg) <> Waited d :: rest)
  /\ (ok 0%nat = true -> Send n env msg = (fst (call 0%nat), None))
  /\ (ok 0%nat = false -> waiting (env 1%nat) = DoneWhileWaiting ->
      Send n env msg = ((fst (call 0%nat) ++ [w1])%list, Some ContextErr))
  /\ (ok 0%nat = false -> waiting (env 1%nat) = TimerFires -> ok 1%nat = true ->
      Send n env msg = ((fst (call 0%nat) ++ w1 :: fst (call 1%nat))%list, None))
  /\ (ok 0%nat = false -> waiting (env 1%nat) = TimerFires -> ok 1%nat = false ->
      waiting (env 2%nat) = DoneWhileWaiting ->
      Send n env msg
      = ((fst (call 0%nat) ++ w1 :: fst (call 1%nat) ++ [w2])%list, Some ContextErr))
  /\ (ok 0%nat = false -> waiting (env 1%nat) = TimerFires -> ok 1%nat = false ->
      waiting (env 2%nat) = TimerFires -> ok 2%nat = true ->
      Send n env msg
      = ((fst (call 0%nat) ++ w1 :: fst (call 1%nat) ++ w2 :: fst (call 2%nat))%list,
         None))
  /\ (ok 0%nat = false -> waiting (env 1%nat) = TimerFires -> ok 1%nat = false ->
      waiting (env 2%nat) = TimerFires -> ok 2%nat = false ->
      exists cause,
        snd (call 2%nat) = Some cause
        /\ Send n env msg
           = ((fst (call 0%nat) ++ w1 :: fst (call 1%nat) ++ w2 :: fst (call 2%nat))%list,
              Some (FailedAfter 3 (Some cause)))).
Proof.
  intros call ok w1 w2.
  assert (D : forall i, snd (call i) = None <-> ok i = true)
    by (intros i; apply sendRequest_delivered).
  assert (F : forall i, ok i = false -> exists cause, snd (call i) = Some cause).
  { intros i H. destruct (snd (call i)) as [cause|] eqn:E; [exists cause; reflexivity|].
    apply D in E. congruence. }
  pose proof (Send_unrolled n env msg) as U. cbv zeta in U. fold call in U.
  assert (R : forall i, requests (fst (call i)) = 1%nat /\ waits (fst (call i)) = []
                        /\ forall d rest, fst (call i) <> Waited d :: rest)
    by (intros i; apply sendRequest_one_request).
  destruct (R 0%nat) as (R0 & W0 & N0), (R 1%nat) as (R1 & W1 & _),
           (R 2%nat) as (R2 & W2 & _).
  split; [intros i; rewrite D; apply delivered_range|].
  split; [|split; [|split]].
  - rewrite U.
    destruct (snd (call 0%nat)); [|simpl; lia].
    destruct (waiting (env 1%nat)); [|simpl; rewrite requests_app; simpl; lia].
    destruct (snd (call 1%nat));
      [|simpl; rewrite requests_app; simpl; lia].
    destruct (waiting (env 2%nat)); simpl;
      rewrite requests_app; simpl; rewrite requests_app; simpl; lia.
  - rewrite U.
    destruct (snd (call 0%nat)); [|exists 0%nat; simpl; exact W0].
    destruct (waiting (env 1%nat));
      [|exists 1%nat; simpl; rewrite waits_app, W0; reflexivity].
    destruct (snd (call 1%nat));
      [|exists 1%nat; simpl; rewrite waits_app, W0; simpl; rewrite W1; reflexivity].
    destruct (waiting (env 2%nat)); exists 2%nat; simpl;
      rewrite waits_app, W0; simpl; rewrite waits_app, W1; simpl; rewrite ?W2;
      reflexivity.
  - intros d rest. rewrite U.
    assert (A : forall tail, (fst (call 0%nat) ++ tail)%list <> Waited d :: rest).
    { intros tail. destruct (fst (call 0%nat)) as [|ev evs] eqn:E; [discriminate R0|].
      simpl. intros [= -> _]. apply (N0 d evs). reflexivity. }
    destruct (snd (call 0%nat)); [|apply N0].
    destruct (waiting (env 1%nat)); [|apply A].
    destruct (snd (call 1%nat)); [|apply A].
    destruct (waiting (env 2%nat)); apply A.
  - repeat split.
    + intros H0. apply D in H0. rewrite U, H0. reflexivity.
    + intros H0 Hw. apply F in H0 as [c0 H0]. rewrite U, H0, Hw. reflexivity.
    + intros H0 Hw H1. apply F in H0 as [c0 H0]. apply D in H1.
      rewrite U, H0, Hw, H1. reflexivity.
    + intros H0 Hw H1 Hw2. apply F in H0 as [c0 H0]. apply F in H1 as [c1 H1].
      rewrite U, H0, Hw, H1, Hw2. reflexivity.
    + intros H0 Hw H1 Hw2 H2. apply F in H0 as [c0 H0]. apply F in H1 as [c1 H1].
      apply D in H2. rewrite U, H0, Hw, H1, Hw2, H2. reflexivity.
    + intros H0 Hw H1 Hw2 H2. apply F in H0 as [c0 H0]. apply F in H1 as [c1 H1].
      apply F in H2 as [c2 H2]. exists c2. split; [exact H2|].
      rewrite U, H0, Hw, H1, Hw2, H2. reflexivity.
Qed.

Lemma Send_bounded_retries_witness :
  exists req,
    Send testdata.plainNotifier testdata.always500 testdata.testAlert
    = ([Did req; Waited (2 * Second); Did req; Waited (4 * Second); Did req],
       Some (FailedAfter 3 (Some (UnexpectedStatusCode 500)))).
Proof.
  destruct (Send_bounded_retries testdata.plainNotifier testdata.always500
              testdata.testAlert) as (_ & _ & _ & _ & _ & _ & _ & _ & _ & H).
  destruct H as (cause & Hc & Hs); try reflexivity.
  eexists. rewrite Hs. injection Hc as <-. reflexivity.
Defined.

End DeliveryClaims.

(** ** The delivery client: credentials, title and agency label *)
Section NotifierFacts.
Import time http.

(** The copy in src/unnamed/part_000 knows one credential, the token. *)
Lemma newRequest_authorization (n : notifier.Notifier)
    (title message priority tags : string) :
  Header (notifier.newRequest n title message priority tags) !! "Authorization"
  = if String.eqb (notifier.token n) EmptyString then None
    else Some ("Bearer " ++ notifier.token n).
Proof.
  unfold notifier.newRequest.
  destruct (String.eqb (notifier.token n) EmptyString); cbn [negb]; cbv zeta.
  - unfold HeaderSet; cbn [Header]. reflexivity.
  - unfold HeaderSet; cbn [Header]. apply lookup_insert_eq.
Qed.

(** The second copy selects the credential in the order password,
    token, none. *)
Lemma rev_newRequest_authorization (n : notifier_rev.Notifier)
    (title message priority tags : string) :
  Header (notifier_rev.newRequest n title message priority tags) !! "Authorization"
  = if negb (String.eqb (notifier_rev.password n) EmptyString)
    then Some ("Basic " ++ EncodeToString (notifier_rev.username n ++ ":"
                                            ++ notifier_rev.password n))
    else if negb (String.eqb (notifier_rev.token n) EmptyString)
    then Some ("Bearer " ++ notifier_rev.token n)
    else None.
Proof.
  unfold notifier_rev.newRequest.
  destruct (String.eqb (notifier_rev.password n) EmptyString); cbn [negb]; cbv zeta.
  - destruct (String.eqb (notifier_rev.token n) EmptyString); cbn [negb].
    + unfold HeaderSet; cbn [Header]. reflexivity.
    + unfold HeaderSet; cbn [Header]. apply lookup_insert_eq.
  - unfold SetBasicAuth, HeaderSet; cbn [Header]. apply lookup_insert_eq.
Qed.

(** The second copy takes the title from the message body and the
    agency label from the record of the first capcode. *)
Lemma rev_formatTitle (n : notifier_rev.Notifier) (msg : websocket.P2000Message) :
  notifier_rev.formatTitle n msg
  = if String.eqb (websocket.Message msg) EmptyString
    then notifier.siren ++ " P2000"
    else notifier.siren ++ " " ++ websocket.Message msg.
Proof.
  unfold notifier_rev.formatTitle.
  destruct (String.eqb (websocket.Message msg) EmptyString); reflexivity.
Qed.

Lemma rev_formatMessage_agency (n : notifier_rev.Notifier) (msg : websocket.P2000Message) :
  (exists details,
     notifier_rev.formatMessage n msg
     = notifier_rev.agencyLabel n msg ++ notifier.nl ++ notifier.nl ++ details)
  /\ (forall first rest lookup info,
        websocket.Capcodes msg = first :: rest ->
        notifier_rev.capcodeLookup n = Some lookup ->
        capcode.Get lookup first = Some info ->
        notifier_rev.agencyLabel n msg = capcode.Agency info)
  /\ ((websocket.Capcodes msg = []
       \/ notifier_rev.capcodeLookup n = None
       \/ exists first rest lookup,
            websocket.Capcodes msg = first :: rest
            /\ notifier_rev.capcodeLookup n = Some lookup
            /\ capcode.Get lookup first = None) ->
      notifier_rev.agencyLabel n msg = "overig").
Proof.
  split; [|split].
  - eexists. reflexivity.
  - intros first rest lookup info Hc Hl Hg. unfold notifier_rev.agencyLabel.
    rewrite Hc, Hl. simpl. rewrite Hg. reflexivity.
  - unfold notifier_rev.agencyLabel.
    intros [Hc|[Hl|(first & rest & lookup & Hc & Hl & Hg)]].
    + rewrite Hc. reflexivity.
    + rewrite Hl. destruct (websocket.Capcodes msg); reflexivity.
    + rewrite Hc, Hl. simpl. rewrite Hg. reflexivity.
Qed.

(** Every request the second copy sends is the one [newRequest] builds
    from the formatted title and text. *)
Lemma rev_Did_sendRequest (n : notifier_rev.Notifier)
    (title message priority tags : string) (x : exchange) (req : Request) :
  notifier.Did req ∈ fst (notifier_rev.sendRequest n title message priority tags x) ->
  req = notifier_rev.newRequest n title message priority tags.
Proof.
  destruct x; simpl; intros H; apply list_elem_of_singleton in H;
    [discriminate H | injection H as -> | injection H as ->]; reflexivity.
Qed.

Lemma rev_Did_attemptsFrom (n : notifier_rev.Notifier) (env : nat -> notifier.conditions)
    (title message priority tags : string) (remaining attempt : nat)
    (lastErr : option notifier.sendError) (req : Request) :
  notifier.Did req
    ∈ fst (notifier_rev.attemptsFrom n env title message priority tags
             remaining attempt lastErr) ->
  req = notifier_rev.newRequest n title message priority tags.
Proof.
  revert attempt lastErr. induction remaining as [|r IH]; intros attempt lastErr H.
  - cbn in H. inversion H.
  - cbn [notifier_rev.attemptsFrom] in H.
    pose proof (rev_Did_sendRequest n title message priority tags
                  (notifier.exchanged (env attempt)) req) as R.
    destruct (notifier_rev.sendRequest n title message priority tags
                (notifier.exchanged (env attempt))) as [evs [err|]].
    + specialize (IH (S attempt) (Some err)).
      destruct (notifier_rev.attemptsFrom n env title message priority tags r
                  (S attempt) (Some err)) as [evs' res].
      cbn [fst] in R, IH.
      destruct (Nat.ltb 0 attempt); [destruct (notifier.waiting (env attempt))|];
        cbn [fst] in H.
      * apply elem_of_cons in H as [H|H]; [discriminate H|].
        apply elem_of_app in H as [H|H]; auto.
      * apply list_elem_of_singleton in H. discriminate H.
      * apply elem_of_app in H as [H|H]; auto.
    + cbn [fst] in R.
      destruct (Nat.ltb 0 attempt); [destruct (notifier.waiting (env attempt))|];
        cbn [fst] in H.
      * apply elem_of_cons in H as [H|H]; [discriminate H | auto].
      * apply list_elem_of_singleton in H. discriminate H.
      * auto.
Qed.

Lemma rev_Did_Send (n : notifier_rev.Notifier) (env : nat -> notifier.conditions)
    (msg : websocket.P2000Message) (req : Request) :
  notifier.Did req ∈ fst (notifier_rev.Send n env msg) ->
  req = notifier_rev.newRequest n (notifier_rev.formatTitle n msg)
          (notifier_rev.formatMessage n msg) notifier.defaultPriority
          (notifier_rev.getTags (websocket.Type_ msg)).
Proof. unfold notifier_rev.Send. apply rev_Did_attemptsFrom. Qed.

End NotifierFacts.

Section NotifierClaims.
Import time http.

(** The copy in src/unnamed/part_000, which main.go is written against,
    is the older one: with a token and a password both configured it
    sends the token as a Bearer credential, where the second copy sends
    Basic authentication for the configured user. *)
Lemma password_credential_not_used (title message priority tags : string) :
  Header (notifier.newRequest (main.newNotifier testdata.bothCredentials ∅ None)
            title message priority tags) !! "Authorization"
  = Some "Bearer token"
  /\ Header (notifier_rev.newRequest
               (notifier_rev.NewNotifier "https://ntfy.sh" "test-topic"
                  "token" "user" "pass" ∅ None)
               title message priority tags) !! "Authorization"
     = Some "Basic dXNlcjpwYXNz".
Proof.
  split.
  - rewrite newRequest_authorization. reflexivity.
  - rewrite rev_newRequest_authorization. reflexivity.
Qed.

(** The older copy also takes the title from the agency, as its comment
    says, and writes no agency label into the text. *)
Lemma title_and_agency_label_differ :
  notifier.formatTitle testdata.plainNotifier testdata.brandWoning
  = notifier.siren ++ " P2000"
  /\ strings.Contains
       (notifier.formatMessage testdata.plainNotifier testdata.twoCapcodes) "overig"
     = false
  /\ (forall n, notifier_rev.formatTitle n testdata.brandWoning
                = notifier.siren ++ " Brand woning")
  /\ (forall server topic token username password translations,
        String.prefix "overig"
          (notifier_rev.formatMessage
             (notifier_rev.NewNotifier server topic token username password
                translations None)
             testdata.twoCapcodes) = true).
Proof.
  split; [reflexivity|]. split; [vm_compute; reflexivity|]. split.
  - intros n. reflexivity.
  - intros. reflexivity.
Qed.

(** C3. In the notifier with the password credential (the second copy of
    the package, the one the tests are written against), every request of
    a delivery carries the credential chosen in a fixed order from what
    [NewNotifier] was given: with a password, Basic authentication for
    the given username and that password, whatever the token; without a
    password and with a token, the header Authorization: Bearer and the
    token; without both, no Authorization header.  A request has one
    Authorization header at most, so the three exclude each other. *)
Theorem Send_authentication_precedence
    (server topic token username password : string)
    (translations : gmap string string) (lookup : option capcode.Lookup)
    (env : nat -> notifier.conditions) (msg : websocket.P2000Message) (req : Request) :
  notifier.Did req
    ∈ fst (notifier_rev.Send
             (notifier_rev.NewNotifier server topic token username password
                translations lookup) env msg) ->
  (password <> EmptyString ->
   Header req !! "Authorization"
   = Some ("Basic " ++ EncodeToString (username ++ ":" ++ password)))
  /\ (password = EmptyString -> token <> EmptyString ->
      Header req !! "Authorization" = Some ("Bearer " ++ token))
  /\ (password = EmptyString -> token = EmptyString ->
      Header req !! "Authorization" = None).
Proof.
  intros H. apply rev_Did_Send in H. subst req.
  rewrite rev_newRequest_authorization.
  cbn [notifier_rev.password notifier_rev.username notifier_rev.token
       notifier_rev.NewNotifier].
  split; [|split].
  - intros Hp. apply String.eqb_neq in Hp. rewrite Hp. reflexivity.
  - intros -> Ht. apply String.eqb_neq in Ht. rewrite Ht. reflexivity.
  - intros -> ->. reflexivity.
Qed.

Lemma Send_authentication_precedence_witness :
  Header (notifier_rev.newRequest testdata.preferredNotifier
            (notifier_rev.formatTitle testdata.preferredNotifier testdata.testAlert)
            (notifier_rev.formatMessage testdata.preferredNotifier testdata.testAlert)
            notifier.defaultPriority (notifier_rev.getTags "FLEX")) !! "Authorization"
  = Some "Basic dXNlcjpwYXNz".
Proof.
  apply (Send_authentication_precedence "https://ntfy.sh" "test-topic" "token" "user"
           "pass" ∅ None testdata.answers200 testdata.testAlert).
  - vm_compute. left.
  - discriminate.
Defined.

(** C9. In that notifier the title is made from the body of the message,
    and is the constant placeholder when the body is empty.  The text
    opens with the agency label: the agency of the record the lookup
    holds for the first capcode of the message, and the constant label
    overig when the message has no capcode, when there is no lookup, or
    when the lookup has no record for the first capcode; the records of
    the other capcodes do not enter the label.  Title and text are what
    every request of the delivery carries. *)
Theorem title_from_body_label_from_first_capcode (n : notifier_rev.Notifier)
    (msg : websocket.P2000Message) :
  let details :=
    match websocket.Capcodes msg with
    | [] => EmptyString
    | capcodes =>
        "Capcode Details:" ++ notifier.nl ++ notifier_rev.capcodeSection n 0 capcodes
    end in
  (websocket.Message msg <> EmptyString ->
   notifier_rev.formatTitle n msg = notifier.siren ++ " " ++ websocket.Message msg)
  /\ (websocket.Message msg = EmptyString ->
      notifier_rev.formatTitle n msg = notifier.siren ++ " P2000")
  /\ (forall first rest lookup info,
        websocket.Capcodes msg = first :: rest ->
        notifier_rev.capcodeLookup n = Some lookup ->
        capcode.Get lookup first = Some info ->
        notifier_rev.formatMessage n msg
        = capcode.Agency info ++ notifier.nl ++ notifier.nl ++ details)
  /\ ((websocket.Capcodes msg = []
       \/ notifier_rev.capcodeLookup n = None
       \/ exists first rest lookup,
            websocket.Capcodes msg = first :: rest
            /\ notifier_rev.capcodeLookup n = Some lookup
            /\ capcode.Get lookup first = None) ->
      notifier_rev.formatMessage n msg
      = "overig" ++ notifier.nl ++ notifier.nl ++ details)
  /\ (forall env req,
        notifier.Did req ∈ fst (notifier_rev.Send n env msg) ->
        Header req !! "Title" = Some (notifier_rev.formatTitle n msg)
        /\ Body req = notifier_rev.formatMessage n msg).
Proof.
  intros details.
  destruct (rev_formatMessage_agency n msg) as (_ & A & O).
  split; [|split; [|split; [|split]]].
  - intros H. rewrite rev_formatTitle. apply String.eqb_neq in H. rewrite H. reflexivity.
  - intros H. rewrite rev_formatTitle, H. reflexivity.
  - intros first rest lookup info Hc Hl Hg.
    rewrite <- (A first rest lookup info Hc Hl Hg). reflexivity.
  - intros H. rewrite <- (O H). reflexivity.
  - intros env req H. apply rev_Did_Send in H. subst req.
    unfold notifier_rev.newRequest, SetBasicAuth, HeaderSet.
    destruct (String.eqb (notifier_rev.password n) EmptyString);
      destruct (String.eqb (notifier_rev.token n) EmptyString);
      cbn [negb Body Header]; split; try reflexivity;
      repeat (first [ rewrite lookup_insert_eq; reflexivity
                    | rewrite lookup_insert_ne by discriminate ]).
Qed.

Lemma title_from_body_label_from_first_capcode_witness :
  notifier_rev.formatTitle testdata.preferredNotifier testdata.brandWoning
  = notifier.siren ++ " Brand woning"
  /\ notifier_rev.formatTitle testdata.preferredNotifier testdata.twoCapcodes
     = notifier.siren ++ " P2000"
  /\ String.prefix ("Ambulance" ++ notifier.nl ++ notifier.nl)
       (notifier_rev.formatMessage testdata.lookupNotifier testdata.twoCapcodes) = true
  /\ String.prefix ("overig" ++ notifier.nl ++ notifier.nl)
       (notifier_rev.formatMessage testdata.preferredNotifier testdata.twoCapcodes) = true.
Proof.
  split; [|split; [|split]].
  - apply (title_from_body_label_from_first_capcode testdata.preferredNotifier
             testdata.brandWoning).
    discriminate.
  - apply (title_from_body_label_from_first_capcode testdata.preferredNotifier
             testdata.twoCapcodes).
    reflexivity.
  - destruct (title_from_body_label_from_first_capcode testdata.lookupNotifier
                testdata.twoCapcodes) as (_ & _ & H & _).
    rewrite (H "0101001" ["0101002"] testdata.leadingZeros
               {| capcode.Capcode := "0101001"; capcode.Agency := "Ambulance";
                  capcode.Region := "Utrecht"; capcode.Station := "Utrecht";
                  capcode.Function := "A1 Dienst" |});
      [reflexivity | reflexivity | reflexivity | vm_compute; reflexivity].
  - destruct (title_from_body_label_from_first_capcode testdata.preferredNotifier
                testdata.twoCapcodes) as (_ & _ & _ & H & _).
    rewrite H; [reflexivity | right; left; reflexivity].
Defined.

End NotifierClaims.

(* ===================================================================== *)
(** * Part III: further properties of the code                            *)
(* ===================================================================== *)

(** ** The enrichment lookup: what a loaded table answers *)
Section LookupRows.
Import capcode capcode_rows.

Lemma infoOf_addRecord (m : gmap string CapcodeInfo) (record : list string) :
  addRecord m record
  = match infoOf record with
    | Some info => <[Capcode info := info]> (<[normalize (Capcode info) := info]> m)
    | None => m
    end.
Proof. destruct record as [|? [|? [|? [|? [|? ?]]]]]; reflexivity. Qed.

Lemma infoOf_complete (record : list string) :
  is_Some (infoOf record) <-> complete record = true.
Proof.
  destruct record as [|? [|? [|? [|? [|? ?]]]]]; simpl; split;
    try discriminate; try (intros [? H]; discriminate H); try reflexivity.
  intros _. eexists. reflexivity.
Qed.

Lemma infoOf_rowKey (record : list string) (info : CapcodeInfo) :
  infoOf record = Some info -> Capcode info = rowKey record.
Proof.
  destruct record as [|? [|? [|? [|? [|? ?]]]]]; simpl; try discriminate.
  intros [= <-]. reflexivity.
Qed.

(** Whatever the table holds under a key was put there by a row whose
    capcode is the key or normalizes to it. *)
Lemma foldl_addRecord_sound (rows : list (list string)) (m : gmap string CapcodeInfo)
    (k : string) (info : CapcodeInfo) :
  foldl addRecord m rows !! k = Some info ->
  m !! k = Some info
  \/ exists row, row ∈ rows /\ infoOf row = Some info
                 /\ (k = Capcode info \/ k = normalize (Capcode info)).
Proof.
  revert m. induction rows as [|r rows IH]; intros m H; [left; exact H|].
  simpl in H. apply IH in H as [H|(row & Hin & Hi & Hk)].
  - rewrite infoOf_addRecord in H. destruct (infoOf r) as [i|] eqn:E; [|left; exact H].
    destruct (decide (Capcode i = k)) as [<-|N1].
    + rewrite lookup_insert_eq in H. injection H as <-.
      right. exists r. split; [left|]. split; [exact E | left; reflexivity].
    + rewrite lookup_insert_ne in H by exact N1.
      destruct (decide (normalize (Capcode i) = k)) as [<-|N2].
      * rewrite lookup_insert_eq in H. injection H as <-.
        right. exists r. split; [left|]. split; [exact E | right; reflexivity].
      * rewrite lookup_insert_ne in H by exact N2. left. exact H.
  - right. exists row. split; [right; exact Hin|]. split; assumption.
Qed.

(** Loading never removes a key. *)
Lemma foldl_addRecord_keeps (rows : list (list string)) (m : gmap string CapcodeInfo)
    (k : string) :
  is_Some (m !! k) -> is_Some (foldl addRecord m rows !! k).
Proof.
  revert m. induction rows as [|r rows IH]; intros m H; [exact H|].
  simpl. apply IH. rewrite infoOf_addRecord. destruct (infoOf r) as [i|]; [|exact H].
  rewrite !lookup_insert. repeat case_decide; try (eexists; reflexivity). exact H.
Qed.

(** Every complete row leaves its normalized key in the table. *)
Lemma foldl_addRecord_complete (rows : list (list string)) (m : gmap string CapcodeInfo)
    (row : list string) :
  row ∈ rows -> complete row = true ->
  is_Some (foldl addRecord m rows !! normalize (rowKey row)).
Proof.
  revert m. induction rows as [|r rows IH]; intros m Hin Hc; [inversion Hin|].
  apply elem_of_cons in Hin as [->|Hin]; [|apply IH; assumption].
  simpl. apply foldl_addRecord_keeps. rewrite infoOf_addRecord.
  apply infoOf_complete in Hc as [i Hi]. rewrite Hi.
  rewrite <- (infoOf_rowKey r i Hi).
  rewrite !lookup_insert. repeat case_decide; try (eexists; reflexivity). congruence.
Qed.

Lemma foldl_addRecord_filter (rows : list (list string)) (m : gmap string CapcodeInfo) :
  foldl addRecord m (List.filter complete rows) = foldl addRecord m rows.
Proof.
  revert m. induction rows as [|r rows IH]; intros m; [reflexivity|].
  simpl. destruct (complete r) eqn:E; simpl; [apply IH|].
  rewrite IH. f_equal. symmetry. apply addRecord_short.
  unfold complete in E. apply Nat.leb_gt in E. exact E.
Qed.

Lemma NewLookup_data (records : list (list string)) (l : Lookup) :
  NewLookup (Records records) = Loaded l ->
  data l = foldl addRecord ∅ (dataRows records).
Proof.
  unfold NewLookup, dataRows. destruct (startIdx records); [|discriminate].
  intros [= <-]. reflexivity.
Qed.

(** X1. A loaded table answers for a capcode exactly when some complete
    data row has a capcode with the same normalized form; and what it
    answers is, field for field, the record of such a row. *)
Theorem Get_finds_rows_by_normal_form (records : list (list string)) (l : Lookup)
    (c : string) :
  NewLookup (Records records) = Loaded l ->
  (is_Some (Get l c)
   <-> exists row, row ∈ dataRows records /\ complete row = true
                   /\ normalize (rowKey row) = normalize c)
  /\ (forall info, Get l c = Some info ->
        exists row, row ∈ dataRows records /\ infoOf row = Some info
                    /\ normalize (Capcode info) = normalize c).
Proof.
  intros HL. apply NewLookup_data in HL.
  assert (S : forall info, Get l c = Some info ->
            exists row, row ∈ dataRows records /\ infoOf row = Some info
                        /\ normalize (Capcode info) = normalize c).
  { intros info H. unfold Get in H. rewrite HL in H.
    destruct (foldl addRecord ∅ (dataRows records) !! c) as [i|] eqn:E.
    - injection H as <-. apply foldl_addRecord_sound in E as [E|(row & Hin & Hi & Hk)];
        [rewrite lookup_empty in E; discriminate E|].
      exists row. split; [exact Hin|]. split; [exact Hi|].
      destruct Hk as [->| ->]; [reflexivity | rewrite normalize_idem; reflexivity].
    - apply foldl_addRecord_sound in H as [H|(row & Hin & Hi & Hk)];
        [rewrite lookup_empty in H; discriminate H|].
      exists row. split; [exact Hin|]. split; [exact Hi|].
      destruct Hk as [Hk|Hk].
      + rewrite <- Hk. apply normalize_idem.
      + rewrite <- (normalize_idem c), Hk, !normalize_idem. reflexivity. }
  split; [|exact S]. split.
  - intros [info H]. destruct (S info H) as (row & Hin & Hi & Hn).
    exists row. split; [exact Hin|]. split; [apply infoOf_complete; eauto|].
    rewrite <- (infoOf_rowKey row info Hi). exact Hn.
  - intros (row & Hin & Hc & Hn). unfold Get. rewrite HL.
    destruct (foldl addRecord ∅ (dataRows records) !! c) as [i|]; [eexists; reflexivity|].
    rewrite <- Hn. apply foldl_addRecord_complete; assumption.
Qed.

Lemma Get_finds_rows_by_normal_form_witness :
  is_Some (Get testdata.leadingZeros "000123").
Proof.
  destruct (Get_finds_rows_by_normal_form
              [ ["0000123"; "Brandweer"; "Utrecht"; "Utrecht"; "Kazernealarm"];
                ["0101001"; "Ambulance"; "Utrecht"; "Utrecht"; "A1 Dienst"] ]
              testdata.leadingZeros "000123") as [H _]; [reflexivity|].
  apply H. exists ["0000123"; "Brandweer"; "Utrecht"; "Utrecht"; "Kazernealarm"].
  split; [left|]. split; reflexivity.
Defined.

(** X2. Rows of fewer than five fields after the first row change nothing:
    loading a file gives the same table as loading it without them. *)
Theorem NewLookup_ignores_short_rows (first : list string) (rows : list (list string)) :
  NewLookup (Records (first :: List.filter complete rows))
  = NewLookup (Records (first :: rows)).
Proof.
  unfold NewLookup.
  assert (E : startIdx (first :: List.filter complete rows) = startIdx (first :: rows))
    by (destruct first; reflexivity).
  rewrite E. destruct (startIdx (first :: rows)) as [[|[|i]]|] eqn:Hs; [| | |reflexivity].
  - do 2 f_equal. simpl. apply foldl_addRecord_filter.
  - do 2 f_equal. simpl. apply foldl_addRecord_filter.
  - exfalso. destruct first as [|f more]; [discriminate Hs|]. simpl in Hs.
    destruct (strings.Contains (strings.ToLower f) "capcode"
              || strings.Contains (strings.ToLower f) "cap")%bool; discriminate Hs.
Qed.

(** X3. [GetMultiple] keeps the order of its input and leaves out what
    [Get] does not find: it distributes over concatenation, returns at
    most one record per capcode, and as many records as capcodes exactly
    when every capcode is found. *)
Theorem GetMultiple_in_order (l : Lookup) (cs cs' : list string) :
  GetMultiple l (cs ++ cs') = (GetMultiple l cs ++ GetMultiple l cs')%list
  /\ (length (GetMultiple l cs) <= length cs)%nat
  /\ (length (GetMultiple l cs) = length cs <-> Forall (fun c => is_Some (Get l c)) cs)
  /\ (forall info, info ∈ GetMultiple l cs <-> exists c, c ∈ cs /\ Get l c = Some info).
Proof.
  split; [|split; [|split]].
  - induction cs as [|c cs IH]; [reflexivity|]. simpl.
    destruct (Get l c); rewrite IH; reflexivity.
  - induction cs as [|c cs IH]; [simpl; lia|]. simpl.
    destruct (Get l c); simpl; lia.
  - assert (B : forall xs, (length (GetMultiple l xs) <= length xs)%nat).
    { induction xs as [|x xs IH]; [simpl; lia|]. simpl. destruct (Get l x); simpl; lia. }
    induction cs as [|c cs IH]; [split; [constructor | reflexivity]|].
    simpl. destruct (Get l c) as [i|] eqn:E; simpl.
    + split.
      * intros H. constructor; [exists i; exact E|]. apply IH. lia.
      * intros H. inversion H as [|? ? _ H']. f_equal. apply IH. exact H'.
    + split.
      * intros H. pose proof (B cs). lia.
      * intros H. inversion H as [|? ? [? H'] _]. rewrite E in H'. discriminate H'.
  - intros info. induction cs as [|c cs IH].
    + simpl. split; [intros H; inversion H|]. intros (c & H & _). inversion H.
    + simpl. destruct (Get l c) as [i|] eqn:E.
      * rewrite elem_of_cons, IH. split.
        -- intros [->|(x & Hx & Hg)]; [exists c; split; [left | exact E]|].
           exists x. split; [right; exact Hx | exact Hg].
        -- intros (x & Hx & Hg). apply elem_of_cons in Hx as [->|Hx].
           ++ left. congruence.
           ++ right. exists x. split; assumption.
      * rewrite IH. split.
        -- intros (x & Hx & Hg). exists x. split; [right; exact Hx | exact Hg].
        -- intros (x & Hx & Hg). apply elem_of_cons in Hx as [->|Hx]; [congruence|].
           exists x. split; assumption.
Qed.

Lemma GetMultiple_in_order_witness :
  length (GetMultiple testdata.leadingZeros ["0000123"; "101001"]) = 2%nat.
Proof.
  apply (GetMultiple_in_order testdata.leadingZeros ["0000123"; "101001"] []).
  repeat constructor; vm_compute; eexists; reflexivity.
Defined.

End LookupRows.

(** ** The subscription filter: counting and composing *)
Section FilterMore.
Import filter.

Lemma allowedCaps_dom (capcodes : list string) (m : gmap string unit) :
  dom (foldl (fun m capcode => <[capcode := tt]> m) m capcodes)
  = (list_to_set capcodes ∪ dom m : gset string).
Proof.
  revert m. induction capcodes as [|a capcodes IH]; intros m; simpl.
  - symmetry. apply (left_id_L ∅ (∪)).
  - rewrite IH, dom_insert_L.
    change (list_to_set (a :: capcodes) : gset string)
      with ({[a]} ∪ list_to_set capcodes : gset string).
    rewrite (assoc_L (∪)). f_equal. apply (comm_L (∪)).
Qed.

Lemma ShouldForward_alt (f : CapcodeFilter) (capcodes : list string) :
  ShouldForward f capcodes = forwardAll f || anyAllowed (allowedCaps f) capcodes.
Proof.
  unfold ShouldForward. destruct (forwardAll f); [reflexivity|].
  destruct capcodes; reflexivity.
Qed.

Lemma anyAllowed_app (allowed : gmap string unit) (xs ys : list string) :
  anyAllowed allowed (xs ++ ys) = anyAllowed allowed xs || anyAllowed allowed ys.
Proof.
  induction xs as [|x xs IH]; [reflexivity|]. simpl.
  destruct (allowed !! x); [reflexivity | exact IH].
Qed.

(** X4. [Count] is the number of distinct configured capcodes: duplicates
    in the configuration collapse, so it never exceeds the length of the
    configured list. *)
Theorem Count_distinct (all : bool) (configured : list string) :
  Count (NewCapcodeFilter all configured) = length (remove_dups configured)
  /\ (Count (NewCapcodeFilter all configured) <= length configured)%nat
  /\ (NoDup configured -> Count (NewCapcodeFilter all configured) = length configured).
Proof.
  assert (E : Count (NewCapcodeFilter all configured) = length (remove_dups configured)).
  { unfold Count, NewCapcodeFilter; cbn [allowedCaps].
    rewrite <- size_dom, allowedCaps_dom, dom_empty_L, (right_id_L ∅ (∪)).
    rewrite <- (size_list_to_set (C := gset string) (remove_dups configured))
      by apply NoDup_remove_dups.
    f_equal. apply set_eq. intros x.
    rewrite !elem_of_list_to_set, elem_of_remove_dups. reflexivity. }
  split; [exact E|]. split.
  - rewrite E. clear E. induction configured as [|a l IH]; [simpl; lia|].
    simpl. destruct (decide_rel elem_of a l); simpl; lia.
  - intros H. rewrite E. clear E. induction H as [|a l Hn _ IH]; [reflexivity|].
    simpl. destruct (decide_rel elem_of a l); [contradiction|]. simpl. rewrite IH.
    reflexivity.
Qed.

Lemma Count_distinct_witness :
  Count (NewCapcodeFilter false ["0101001"; "0101002"]) = 2%nat.
Proof.
  apply (Count_distinct false ["0101001"; "0101002"]).
  apply NoDup_cons. split.
  - intros H. apply list_elem_of_singleton in H. discriminate H.
  - apply NoDup_singleton.
Defined.

(** X5. The decision of [ShouldForward] composes: for a concatenated
    list it is the disjunction of the decisions for the parts, so it does
    not depend on the order of the capcodes in a message; and it depends
    on the configured list only through its set of elements, growing with
    it. *)
Theorem ShouldForward_composes (f : CapcodeFilter) (all : bool)
    (xs ys configured configured' : list string) :
  ShouldForward f (xs ++ ys) = ShouldForward f xs || ShouldForward f ys
  /\ (xs ≡ₚ ys -> ShouldForward f xs = ShouldForward f ys)
  /\ ((forall c, c ∈ configured -> c ∈ configured') ->
      ShouldForward (NewCapcodeFilter all configured) xs = true ->
      ShouldForward (NewCapcodeFilter all configured') xs = true).
Proof.
  split; [|split].
  - rewrite !ShouldForward_alt, anyAllowed_app. destruct (forwardAll f); reflexivity.
  - intros P. rewrite !ShouldForward_alt. f_equal.
    apply eq_true_iff_eq. rewrite !anyAllowed_true. split.
    + intros (c & H & S). exists c. split; [rewrite <- P; exact H | exact S].
    + intros (c & H & S). exists c. split; [rewrite P; exact H | exact S].
  - intros Sub. rewrite !ShouldForward_alt. cbn [forwardAll]. destruct all; [reflexivity|].
    change (forwardAll (NewCapcodeFilter false configured)) with false.
    change (forwardAll (NewCapcodeFilter false configured')) with false.
    cbn [orb]. rewrite !anyAllowed_true. intros (c & H & S). exists c. split; [exact H|].
    apply (allowedCaps_NewCapcodeFilter false). apply Sub.
    apply (allowedCaps_NewCapcodeFilter false). exact S.
Qed.

Lemma ShouldForward_composes_witness :
  ShouldForward (NewCapcodeFilter false ["0101001"]) ["9999999"; "0101001"]
  = ShouldForward (NewCapcodeFilter false ["0101001"]) ["0101001"; "9999999"].
Proof.
  apply (ShouldForward_composes (NewCapcodeFilter false ["0101001"]) false
           ["9999999"; "0101001"] ["0101001"; "9999999"] [] []).
  apply Permutation_swap.
Defined.

End FilterMore.

(** ** The feed client: whole runs *)
Section FeedRuns.
Import time channel json websocket feed.

Variable codec : Codec.

Lemma closedConns_app (evs evs' : list event) :
  closedConns (evs ++ evs') = (closedConns evs ++ closedConns evs')%list.
Proof.
  induction evs as [|ev evs IH]; [reflexivity|].
  destruct ev; simpl; rewrite IH; reflexivity.
Qed.

Lemma closeFrames_app (evs evs' : list event) :
  closeFrames (evs ++ evs') = (closeFrames evs ++ closeFrames evs')%list.
Proof.
  induction evs as [|ev evs IH]; [reflexivity|].
  destruct ev; simpl; rewrite IH; reflexivity.
Qed.

Lemma handled_app (evs evs' : list event) :
  handled (evs ++ evs') = (handled evs ++ handled evs')%list.
Proof.
  induction evs as [|ev evs IH]; [reflexivity|].
  destruct ev; simpl; rewrite IH; reflexivity.
Qed.

Lemma decoded_app (frames frames' : list string) :
  decoded codec (frames ++ frames')
  = (decoded codec frames ++ decoded codec frames')%list.
Proof.
  induction frames as [|data frames IH]; [reflexivity|]. simpl.
  destruct (Unmarshal codec data zeroMessage); rewrite IH; reflexivity.
Qed.

(** What a frame leaves in the trace. *)
Lemma handleMessage_trace (c : Client) (data : string) :
  closedConns (handleMessage codec c data) = []
  /\ closeFrames (handleMessage codec c data) = []
  /\ handled (handleMessage codec c data)
     = (if msgHandler c then decoded codec [data] else []).
Proof.
  unfold handleMessage. simpl.
  destruct (Unmarshal codec data zeroMessage); destruct (msgHandler c);
    repeat split; reflexivity.
Qed.

Lemma readLoop_trace (c : Client) (cn : Conn) (frames : list string) (e : sessionEnd) :
  conn c = Some cn ->
  let '(c', _, evs) := readLoop codec c frames e in
  conn c' = None
  /\ (msgHandler c' = msgHandler c /\ done c' = done c /\ statusChan c' = statusChan c)
  /\ closedConns evs = [cn] /\ closeFrames evs = [cn]
  /\ handled evs = (if msgHandler c then decoded codec frames else []).
Proof.
  intros Hc. induction frames as [|data rest IH]; simpl.
  - rewrite (closeConnection_open c cn Hc).
    repeat split; try reflexivity. destruct (msgHandler c); reflexivity.
  - destruct (readLoop codec c rest e) as [[c' err] evs].
    destruct IH as (H1 & H2 & H3 & H4 & H5).
    destruct (handleMessage_trace c data) as (G1 & G2 & G3).
    split; [exact H1|]. split; [exact H2|].
    rewrite closedConns_app, closeFrames_app, handled_app, G1, G2, G3, H3, H4, H5.
    repeat split. simpl.
    destruct (msgHandler c); [|reflexivity].
    destruct (Unmarshal codec data zeroMessage); reflexivity.
Qed.

Lemma statusChan_notifyStatus (c c' : Client) (b : bool) :
  statusChan c = statusChan c' ->
  statusChan (notifyStatus c b) = statusChan (notifyStatus c' b).
Proof.
  intros H. unfold notifyStatus. rewrite H.
  destruct (send (statusChan c') b); [reflexivity | exact H].
Qed.

Lemma statusChan_reports (statuses : list bool) (c c' : Client) :
  statusChan c = statusChan c' ->
  statusChan (foldl notifyStatus c statuses) = statusChan (foldl notifyStatus c' statuses).
Proof.
  revert c c'. induction statuses as [|b rest IH]; intros c c' H; [exact H|].
  simpl. apply IH, statusChan_notifyStatus, H.
Qed.

Lemma notifyStatus_keeps (c : Client) (b : bool) :
  conn (notifyStatus c b) = conn c /\ msgHandler (notifyStatus c b) = msgHandler c
  /\ done (notifyStatus c b) = done c.
Proof. unfold notifyStatus. destruct (send (statusChan c) b); repeat split. Qed.

Lemma increaseBackoff_keeps (c : Client) :
  conn (increaseBackoff c) = conn c /\ msgHandler (increaseBackoff c) = msgHandler c
  /\ done (increaseBackoff c) = done c
  /\ statusChan (increaseBackoff c) = statusChan c.
Proof.
  unfold increaseBackoff.
  destruct (mul (backoff c) backoffMultiplier >? maxBackoff); repeat split.
Qed.

(** One call of connectAndListen on a client without a socket. *)
Lemma connectAndListen_trace (c : Client) (a : attempt) :
  conn c = None ->
  let '(c', _, evs) := connectAndListen codec c a in
  conn c' = None
  /\ msgHandler c' = msgHandler c /\ done c' = done c
  /\ statusChan c'
     = statusChan (match a with DialFails => c | Connects _ _ _ => notifyStatus c true end)
  /\ closedConns evs = match a with DialFails => [] | Connects cn _ _ => [cn] end
  /\ closeFrames evs = match a with DialFails => [] | Connects cn _ _ => [cn] end
  /\ handled evs
     = match a with
       | DialFails => []
       | Connects _ frames _ => if msgHandler c then decoded codec frames else []
       end.
Proof.
  intros Hc. destruct a as [|cn frames e]; simpl; [repeat split; exact Hc|].
  assert (He : conn (established c cn) = Some cn).
  { unfold established. destruct (notifyStatus_keeps (resetBackoff (setConn c (Some cn))) true)
      as (-> & _). reflexivity. }
  pose proof (readLoop_trace (established c cn) cn frames e He) as H.
  destruct (readLoop codec (established c cn) frames e) as [[c' err] evs].
  destruct H as (H1 & (K1 & K2 & K3) & H3 & H4 & H5).
  assert (Hm : msgHandler (established c cn) = msgHandler c).
  { unfold established.
    destruct (notifyStatus_keeps (resetBackoff (setConn c (Some cn))) true) as (_ & -> & _).
    reflexivity. }
  assert (Hd : done (established c cn) = done c).
  { unfold established.
    destruct (notifyStatus_keeps (resetBackoff (setConn c (Some cn))) true) as (_ & _ & ->).
    reflexivity. }
  split; [exact H1|]. split; [congruence|]. split; [congruence|]. split.
  - rewrite K3. unfold established. apply statusChan_notifyStatus. reflexivity.
  - simpl. rewrite H3, H4, H5, Hm. repeat split.
Qed.

(** A whole run of [Connect] on a client without a socket. *)
Lemma Connect_trace (script : list iteration) (c : Client) :
  conn c = None ->
  let '(c', evs) := Connect codec script c in
  conn c' = None
  /\ msgHandler c' = msgHandler c /\ done c' = done c
  /\ statusChan c' = statusChan (foldl notifyStatus c (reportedBy (executed script)))
  /\ closedConns evs = opened (executed script)
  /\ closeFrames evs = opened (executed script)
  /\ handled evs
     = (if msgHandler c then decoded codec (framesRead (executed script)) else []).
Proof.
  revert c. induction script as [|it rest IH]; intros c Hc.
  - simpl. repeat split; try assumption. destruct (msgHandler c); reflexivity.
  - cbn [Connect executed].
    pose proof (connectAndListen_trace c (meets it) Hc) as H.
    destruct (connectAndListen codec c (meets it)) as [[c1 err] evs].
    destruct H as (A1 & A2 & A3 & A4 & A5 & A6 & A7).
    destruct (notifyStatus_keeps c1 false) as (N1 & N2 & N3).
    assert (S2 : statusChan (notifyStatus c1 false)
                 = statusChan (foldl notifyStatus c (reportedBy [it]))).
    { simpl. destruct (meets it); simpl; apply statusChan_notifyStatus; exact A4. }
    destruct (wait it).
    + destruct (increaseBackoff_keeps (notifyStatus c1 false)) as (I1 & I2 & I3 & I4).
      specialize (IH (increaseBackoff (notifyStatus c1 false))).
      destruct (Connect codec rest (increaseBackoff (notifyStatus c1 false))) as [c3 evs'].
      destruct IH as (B1 & B2 & B3 & B4 & B5 & B6 & B7); [congruence|].
      split; [exact B1|]. split; [congruence|]. split; [congruence|].
      rewrite closedConns_app, closeFrames_app, handled_app. simpl.
      rewrite A5, A6, A7, B5, B6, B7, I2, N2, A2. split.
      * rewrite B4. transitivity
          (statusChan (foldl notifyStatus (foldl notifyStatus c (reportedBy [it]))
                         (reportedBy (executed rest)))).
        -- apply statusChan_reports. rewrite I4. exact S2.
        -- simpl. destruct (meets it); reflexivity.
      * destruct (meets it) as [|cn frames e]; simpl; repeat split.
        destruct (msgHandler c); [|reflexivity]. rewrite decoded_app. reflexivity.
    + split; [congruence|]. split; [congruence|]. split; [congruence|].
      rewrite closedConns_app, closeFrames_app, handled_app. simpl.
      rewrite !app_nil_r, A5, A6, A7. split.
      * rewrite S2. simpl. destruct (meets it); reflexivity.
      * destruct (meets it) as [|cn frames e]; simpl; rewrite ?app_nil_r; repeat split;
          destruct (msgHandler c); reflexivity.
Qed.

Lemma increaseBackoff_range (c : Client) :
  initialBackoff <= backoff c <= maxBackoff ->
  initialBackoff <= backoff (increaseBackoff c) <= maxBackoff.
Proof.
  intros H. unfold increaseBackoff, mul.
  rewrite wrap64_small
    by (unfold initialBackoff, maxBackoff, backoffMultiplier, Second in *; lia).
  destruct (Z.gtb_spec (backoff c * backoffMultiplier) maxBackoff); simpl;
    unfold initialBackoff, maxBackoff, backoffMultiplier, Second in *; lia.
Qed.

Lemma Connect_backoff_range (script : list iteration) (c : Client) :
  initialBackoff <= backoff c <= maxBackoff ->
  initialBackoff <= backoff (fst (Connect codec script c)) <= maxBackoff.
Proof.
  revert c. induction script as [|it rest IH]; intros c H; [exact H|].
  cbn [Connect].
  pose proof (connectAndListen_backoff codec c (meets it)) as [Hb _].
  destruct (connectAndListen codec c (meets it)) as [[c1 err] evs]. simpl in Hb.
  assert (R : initialBackoff <= backoff (notifyStatus c1 false) <= maxBackoff).
  { rewrite backoff_notifyStatus, Hb. destruct (meets it); [exact H|].
    unfold initialBackoff, maxBackoff, Second. lia. }
  destruct (wait it); [|exact R].
  specialize (IH _ (increaseBackoff_range _ R)).
  destruct (Connect codec rest (increaseBackoff (notifyStatus c1 false))). exact IH.
Qed.

(** Reports into a channel of one slot that nobody receives from: the
    slot keeps what it held, or else the first status. *)
Lemma reports_unreceived (statuses : list bool) (c : Client) :
  capacity (statusChan c) = 1%nat -> (length (buffer (statusChan c)) <= 1)%nat ->
  buffer (statusChan (foldl notifyStatus c statuses))
  = take 1 (buffer (statusChan c) ++ statuses).
Proof.
  revert c. induction statuses as [|b rest IH]; intros c Hc Hl.
  - simpl. rewrite app_nil_r. destruct (buffer (statusChan c)) as [|v [|? ?]];
      [reflexivity | reflexivity | simpl in Hl; lia].
  - simpl. destruct (buffer (statusChan c)) as [|v [|? ?]] eqn:E; [| |simpl in Hl; lia].
    + assert (N : statusChan (notifyStatus c b) = {| capacity := 1; buffer := [b] |}).
      { unfold notifyStatus, send. rewrite Hc, E. reflexivity. }
      rewrite IH; rewrite N; simpl; [reflexivity | reflexivity | lia].
    + assert (N : notifyStatus c b = c).
      { unfold notifyStatus, send. rewrite Hc, E. reflexivity. }
      rewrite N, IH, E by (try exact Hc; rewrite E; simpl; lia). reflexivity.
Qed.

End FeedRuns.

Section FeedProperties.
Import time channel json websocket feed.

(** X6. [Connect] leaves no socket behind: started on a new client, it
    returns without one, and the sockets it closed are exactly the
    sockets it opened, each once and in the order opened, each after a
    close frame was written to it. *)
Theorem Connect_closes_every_socket (codec : Codec) (handler : bool)
    (script : list iteration) :
  conn (fst (Connect codec script (NewClient handler))) = None
  /\ closedConns (snd (Connect codec script (NewClient handler)))
     = opened (executed script)
  /\ closeFrames (snd (Connect codec script (NewClient handler)))
     = opened (executed script).
Proof.
  pose proof (Connect_trace codec script (NewClient handler) eq_refl) as H.
  destruct (Connect codec script (NewClient handler)) as [c' evs].
  destruct H as (H1 & _ & _ & _ & H5 & H6 & _). repeat split; assumption.
Qed.

(** X7. The handler gets the messages in the order the frames were
    read, over all connections of a run: every frame that decodes once,
    none that does not; a client without a handler calls nothing. *)
Theorem Connect_hands_over_in_order (codec : Codec) (script : list iteration) :
  handled (snd (Connect codec script (NewClient true)))
  = decoded codec (framesRead (executed script))
  /\ handled (snd (Connect codec script (NewClient false))) = [].
Proof.
  split.
  - pose proof (Connect_trace codec script (NewClient true) eq_refl) as H.
    destruct (Connect codec script (NewClient true)) as [c' evs].
    destruct H as (_ & _ & _ & _ & _ & _ & H7). exact H7.
  - pose proof (Connect_trace codec script (NewClient false) eq_refl) as H.
    destruct (Connect codec script (NewClient false)) as [c' evs].
    destruct H as (_ & _ & _ & _ & _ & _ & H7). exact H7.
Qed.

(** X8. A run of [Connect] keeps the backoff between 1s and 30s when it
    starts there, never closes the done channel and never changes the
    handler. *)
Theorem Connect_keeps_client (codec : Codec) (script : list iteration) (c : Client) :
  conn c = None ->
  initialBackoff <= backoff c <= maxBackoff ->
  initialBackoff <= backoff (fst (Connect codec script c)) <= maxBackoff
  /\ done (fst (Connect codec script c)) = done c
  /\ msgHandler (fst (Connect codec script c)) = msgHandler c.
Proof.
  intros Hc Hb. split; [apply Connect_backoff_range; exact Hb|].
  pose proof (Connect_trace codec script c Hc) as H.
  destruct (Connect codec script c) as [c' evs].
  destruct H as (_ & H2 & H3 & _). split; assumption.
Qed.

Lemma Connect_keeps_client_witness :
  done (fst (Connect testdata.stubCodec testdata.reconnectScript (NewClient true)))
  = Open.
Proof.
  apply (Connect_keeps_client testdata.stubCodec testdata.reconnectScript (NewClient true)).
  - reflexivity.
  - vm_compute. split; discriminate.
Defined.

(** X9. While nobody receives from the status channel, the slot keeps
    the first status of the run and every later report is dropped: after
    a run that began with a handshake the slot still says connected, also
    when the connection has dropped since. *)
Theorem Connect_status_unreceived (codec : Codec) (handler : bool)
    (script : list iteration) :
  buffer (statusChan (fst (Connect codec script (NewClient handler))))
  = take 1 (reportedBy (executed script)).
Proof.
  pose proof (Connect_trace codec script (NewClient handler) eq_refl) as H.
  destruct (Connect codec script (NewClient handler)) as [c' evs].
  destruct H as (_ & _ & _ & H4 & _). simpl. rewrite H4.
  rewrite reports_unreceived; [reflexivity | reflexivity | simpl; lia].
Qed.

Lemma drained_sublist (ops : list statusOp) (c : Client) :
  drained c ops `sublist_of` (buffer (statusChan c) ++ reported ops)%list.
Proof.
  revert c. induction ops as [|[b|] rest IH]; intros c; simpl.
  - apply sublist_nil_l.
  - specialize (IH (notifyStatus c b)). unfold notifyStatus, send in *.
    destruct (Nat.ltb (length (buffer (statusChan c))) (capacity (statusChan c)));
      simpl in IH.
    + rewrite <- app_assoc in IH. exact IH.
    + etransitivity; [exact IH|]. apply sublist_app; [reflexivity|].
      apply sublist_cons. reflexivity.
  - unfold recv. destruct (buffer (statusChan c)) as [|v more] eqn:E.
    + specialize (IH c). rewrite E in IH. exact IH.
    + simpl. apply sublist_skip.
      exact (IH (setStatusChan c {| capacity := capacity (statusChan c); buffer := more |})).
Qed.

Lemma drained_prompt (statuses : list bool) (c : Client) :
  capacity (statusChan c) = 1%nat -> buffer (statusChan c) = [] ->
  drained c (prompt statuses) = statuses.
Proof.
  revert c. induction statuses as [|b rest IH]; intros c Hc Hb; [reflexivity|].
  cbn [prompt drained].
  assert (N : statusChan (notifyStatus c b) = {| capacity := 1; buffer := [b] |}).
  { unfold notifyStatus, send. rewrite Hc, Hb. reflexivity. }
  unfold recv. rewrite N. cbn [buffer capacity]. f_equal. apply IH; reflexivity.
Qed.

(** X10. The consumer of the status feed never receives a status that
    was not reported, and receives statuses in the order reported: what
    it receives is a subsequence of the reports.  A consumer that
    receives after every report receives every status. *)
Theorem status_feed_in_order (handler : bool) (ops : list statusOp)
    (statuses : list bool) :
  drained (NewClient handler) ops `sublist_of` reported ops
  /\ drained (NewClient handler) (prompt statuses) = statuses.
Proof.
  split.
  - apply (drained_sublist ops (NewClient handler)).
  - apply drained_prompt; reflexivity.
Qed.

End FeedProperties.

(** ** Strings, continued *)
Section StringMore.
Import strings.

Lemma append_cons (a : ascii) (s t : string) : String a s ++ t = String a (s ++ t).
Proof. reflexivity. Qed.

Lemma append_nil_l (t : string) : EmptyString ++ t = t.
Proof. reflexivity. Qed.

Lemma append_nil_r (s : string) : s ++ EmptyString = s.
Proof. induction s as [|a s IH]; [reflexivity|]. rewrite append_cons, IH. reflexivity. Qed.

Lemma append_assoc (s t u : string) : (s ++ t) ++ u = s ++ (t ++ u).
Proof.
  induction s as [|a s IH]; [reflexivity|]. rewrite !append_cons, IH. reflexivity.
Qed.

Lemma length_append (s t : string) :
  String.length (s ++ t) = (String.length s + String.length t)%nat.
Proof.
  induction s as [|a s IH]; [reflexivity|]. rewrite append_cons. simpl. rewrite IH.
  reflexivity.
Qed.

Lemma substring_all (t : string) : String.substring 0 (String.length t) t = t.
Proof. induction t as [|a t IH]; [reflexivity|]. simpl. rewrite IH. reflexivity. Qed.

Lemma substring_skip (s t : string) (k : nat) :
  String.substring (String.length s) k (s ++ t) = String.substring 0 k t.
Proof. induction s as [|a s IH]; [reflexivity|]. rewrite append_cons. simpl. exact IH. Qed.

Lemma substring_take (s t : string) :
  String.substring 0 (String.length s) (s ++ t) = s.
Proof.
  induction s as [|a s IH].
  - simpl. destruct (EmptyString ++ t); reflexivity.
  - rewrite append_cons. simpl. rewrite IH. reflexivity.
Qed.

(** A string is what is before a position followed by what is after it. *)
Lemma substring_split (s : string) (m : nat) :
  (m <= String.length s)%nat ->
  s = String.substring 0 m s ++ String.substring m (String.length s - m) s.
Proof.
  revert m. induction s as [|a s IH]; intros m H.
  - simpl in H. assert (m = 0%nat) as -> by lia. reflexivity.
  - destruct m as [|m].
    + simpl. rewrite substring_all. reflexivity.
    + simpl. rewrite append_cons. f_equal. apply IH. simpl in H. lia.
Qed.

Lemma TrimSuffix_append (s suffix : string) : TrimSuffix (s ++ suffix) suffix = s.
Proof.
  unfold TrimSuffix. rewrite length_append.
  replace (String.length s + String.length suffix - String.length suffix)%nat
    with (String.length s) by lia.
  rewrite substring_skip, substring_all, String.eqb_refl, substring_take.
  destruct (Nat.leb_spec (String.length suffix) (String.length s + String.length suffix));
    [reflexivity | lia].
Qed.

(** [TrimSuffix] returns its argument, or its argument without the
    suffix at its end. *)
Lemma TrimSuffix_cases (s suffix : string) :
  TrimSuffix s suffix = s \/ s = TrimSuffix s suffix ++ suffix.
Proof.
  unfold TrimSuffix.
  destruct (Nat.leb_spec (String.length suffix) (String.length s)) as [L|L];
    [|left; reflexivity].
  destruct (String.eqb_spec
              (String.substring (String.length s - String.length suffix)
                 (String.length suffix) s) suffix) as [E|N]; [|left; reflexivity].
  right. simpl.
  pose proof (substring_split s (String.length s - String.length suffix)) as H.
  replace (String.length s - (String.length s - String.length suffix))%nat
    with (String.length suffix) in H by lia.
  rewrite E in H. apply H. lia.
Qed.

Lemma prefix_nil (s : string) : String.prefix EmptyString s = true.
Proof. destruct s; reflexivity. Qed.

Lemma prefix_append (x y : string) : String.prefix x (x ++ y) = true.
Proof.
  induction x as [|a x IH]; [apply prefix_nil|]. rewrite append_cons. simpl.
  destruct (ascii_dec a a); [exact IH | contradiction].
Qed.

Lemma prefix_append_l (x s t : string) :
  String.prefix x s = true -> String.prefix x (s ++ t) = true.
Proof.
  revert s. induction x as [|a x IH]; intros s H; [apply prefix_nil|].
  destruct s as [|b s]; [discriminate H|]. rewrite append_cons. simpl in *.
  destruct (ascii_dec a b); [apply IH; exact H | discriminate H].
Qed.

Lemma Contains_unfold (s x : string) :
  Contains s x
  = if String.prefix x s then true
    else match s with EmptyString => false | String _ rest => Contains rest x end.
Proof. destruct s; reflexivity. Qed.

Lemma Contains_prefix (x y : string) : Contains (x ++ y) x = true.
Proof. rewrite Contains_unfold, prefix_append. reflexivity. Qed.

Lemma Contains_append_r (s t x : string) :
  Contains t x = true -> Contains (s ++ t) x = true.
Proof.
  intros H. induction s as [|a s IH]; [exact H|].
  rewrite append_cons, Contains_unfold.
  destruct (String.prefix x (String a (s ++ t))); [reflexivity | exact IH].
Qed.

Lemma Contains_append_l (s t x : string) :
  Contains s x = true -> Contains (s ++ t) x = true.
Proof.
  induction s as [|a s IH]; intros H.
  - rewrite Contains_unfold in H. destruct (String.prefix x EmptyString) eqn:E;
      [|discriminate H].
    rewrite Contains_unfold. rewrite (prefix_append_l x EmptyString t E). reflexivity.
  - rewrite Contains_unfold in H. rewrite append_cons, Contains_unfold.
    destruct (String.prefix x (String a s)) eqn:E.
    + rewrite <- append_cons, (prefix_append_l x (String a s) t E). reflexivity.
    + destruct (String.prefix x (String a (s ++ t))); [reflexivity|]. apply IH, H.
Qed.

End StringMore.

(** ** The delivery client: requests, outcome, texts *)
Section DeliveryMore.
Import time http notifier.

Lemma Did_sendRequest (n : Notifier) (title message priority tags : string)
    (x : exchange) (req : Request) :
  Did req ∈ fst (sendRequest n title message priority tags x) ->
  req = newRequest n title message priority tags.
Proof.
  destruct x; simpl; intros H; apply list_elem_of_singleton in H;
    [discriminate H | injection H as -> | injection H as ->]; reflexivity.
Qed.

Lemma newRequest_fields (n : Notifier) (title message priority tags : string) :
  let req := newRequest n title message priority tags in
  Method req = "POST" /\ URL req = server n ++ "/" ++ topic n /\ Body req = message
  /\ Header req !! "Title" = Some title
  /\ Header req !! "Priority" = Some priority
  /\ Header req !! "Tags" = Some tags.
Proof.
  unfold newRequest, HeaderSet.
  destruct (String.eqb (token n) EmptyString); cbn [negb Method URL Body Header];
    repeat split;
    repeat (first [ rewrite lookup_insert_eq; reflexivity
                  | rewrite lookup_insert_ne by discriminate ]).
Qed.

(** X11. Every request of a delivery is the same request: a POST to
    server/topic with the formatted text as body, the formatted title,
    priority 3 and the tags of the message type; retries change nothing
    in it. *)
Theorem Send_repeats_one_request (n : Notifier) (env : nat -> conditions)
    (msg : websocket.P2000Message) (req : Request) :
  Did req ∈ fst (Send n env msg) ->
  req = newRequest n (formatTitle n msg) (formatMessage n msg) defaultPriority
          (getTags (websocket.Type_ msg))
  /\ Method req = "POST"
  /\ URL req = server n ++ "/" ++ topic n
  /\ Body req = formatMessage n msg
  /\ Header req !! "Title" = Some (formatTitle n msg)
  /\ Header req !! "Priority" = Some "3"
  /\ Header req !! "Tags" = Some (getTags (websocket.Type_ msg)).
Proof.
  intros H.
  assert (E : req = newRequest n (formatTitle n msg) (formatMessage n msg)
                      defaultPriority (getTags (websocket.Type_ msg))).
  { rewrite Send_unrolled in H. cbv zeta in H.
    repeat match type of H with
           | context [match ?x with _ => _ end] => destruct x
           end;
      cbn [fst] in H;
      repeat (first [ apply elem_of_app in H as [H|H]
                    | apply elem_of_cons in H as [H|H] ]);
      try discriminate H;
      try (apply Did_sendRequest in H; exact H);
      inversion H. }
  split; [exact E|]. subst req. apply newRequest_fields.
Qed.

Lemma Send_repeats_one_request_witness :
  Header (newRequest testdata.plainNotifier
            (formatTitle testdata.plainNotifier testdata.testAlert)
            (formatMessage testdata.plainNotifier testdata.testAlert)
            defaultPriority (getTags "FLEX")) !! "Priority" = Some "3".
Proof.
  apply (Send_repeats_one_request testdata.plainNotifier testdata.always500
           testdata.testAlert).
  vm_compute. left.
Defined.

(** X12. [Send] returns the nil error exactly when one of its at most
    three calls is answered with a status in [200,300), every call
    before it failed and every wait before it ran to its end; the
    successful call is then the last one made. *)
Theorem Send_succeeds_iff (n : Notifier) (env : nat -> conditions)
    (msg : websocket.P2000Message) :
  (snd (Send n env msg) = None
   <-> exists k, (k < 3)%nat
         /\ delivered (exchanged (env k)) = true
         /\ (forall j, (j < k)%nat -> delivered (exchanged (env j)) = false)
         /\ (forall j, (1 <= j <= k)%nat -> waiting (env j) = TimerFires))
  /\ (forall k, (k < 3)%nat ->
        delivered (exchanged (env k)) = true ->
        (forall j, (j < k)%nat -> delivered (exchanged (env j)) = false) ->
        (forall j, (1 <= j <= k)%nat -> waiting (env j) = TimerFires) ->
        requests (fst (Send n env msg)) = S k).
Proof.
  set (call i := sendRequest n (formatTitle n msg) (formatMessage n msg)
                   defaultPriority (getTags (websocket.Type_ msg)) (exchanged (env i))).
  assert (D : forall i, snd (call i) = None <-> delivered (exchanged (env i)) = true)
    by (intros i; apply sendRequest_delivered).
  assert (F : forall i, delivered (exchanged (env i)) = false ->
                        exists cause, snd (call i) = Some cause).
  { intros i H. destruct (snd (call i)) as [cause|] eqn:E; [exists cause; reflexivity|].
    apply D in E. congruence. }
  assert (G : forall i cause, snd (call i) = Some cause ->
                              delivered (exchanged (env i)) = false).
  { intros i cause H. destruct (delivered (exchanged (env i))) eqn:E; [|reflexivity].
    apply D in E. congruence. }
  assert (R : forall i, requests (fst (call i)) = 1%nat)
    by (intros i; apply sendRequest_one_request).
  pose proof (Send_unrolled n env msg) as U. cbv zeta in U. fold call in U.
  split; [split|].
  - rewrite U. destruct (snd (call 0%nat)) as [c0|] eqn:E0.
    2:{ intros _. exists 0%nat. split; [lia|]. split; [apply D; exact E0|].
        split; intros j Hj; lia. }
    destruct (waiting (env 1%nat)) eqn:W1; [|discriminate].
    destruct (snd (call 1%nat)) as [c1|] eqn:E1.
    2:{ intros _. exists 1%nat. split; [lia|]. split; [apply D; exact E1|]. split.
        - intros j Hj. assert (j = 0%nat) as -> by lia. apply (G _ _ E0).
        - intros j Hj. assert (j = 1%nat) as -> by lia. exact W1. }
    destruct (waiting (env 2%nat)) eqn:W2; [|discriminate].
    destruct (snd (call 2%nat)) as [c2|] eqn:E2; [discriminate|].
    intros _. exists 2%nat. split; [lia|]. split; [apply D; exact E2|]. split.
    + intros j Hj. destruct j as [|[|j]]; [apply (G _ _ E0) | apply (G _ _ E1) | lia].
    + intros j Hj. destruct j as [|[|[|j]]]; [lia | exact W1 | exact W2 | lia].
  - intros (k & Hk & Hd & Hf & Hw). rewrite U.
    destruct k as [|[|[|k]]]; [| | |lia].
    + apply D in Hd. rewrite Hd. reflexivity.
    + destruct (F 0%nat (Hf 0%nat ltac:(lia))) as [c0 E0]. apply D in Hd.
      rewrite E0, (Hw 1%nat ltac:(lia)), Hd. reflexivity.
    + destruct (F 0%nat (Hf 0%nat ltac:(lia))) as [c0 E0].
      destruct (F 1%nat (Hf 1%nat ltac:(lia))) as [c1 E1]. apply D in Hd.
      rewrite E0, (Hw 1%nat ltac:(lia)), E1, (Hw 2%nat ltac:(lia)), Hd. reflexivity.
  - intros k Hk Hd Hf Hw. rewrite U.
    destruct k as [|[|[|k]]]; [| | |lia].
    + apply D in Hd. rewrite Hd. apply R.
    + destruct (F 0%nat (Hf 0%nat ltac:(lia))) as [c0 E0]. apply D in Hd.
      rewrite E0, (Hw 1%nat ltac:(lia)), Hd. cbn [fst].
      rewrite requests_app. simpl. rewrite !R. reflexivity.
    + destruct (F 0%nat (Hf 0%nat ltac:(lia))) as [c0 E0].
      destruct (F 1%nat (Hf 1%nat ltac:(lia))) as [c1 E1]. apply D in Hd.
      rewrite E0, (Hw 1%nat ltac:(lia)), E1, (Hw 2%nat ltac:(lia)). cbn [fst].
      rewrite requests_app. simpl. rewrite requests_app. simpl. rewrite !R. reflexivity.
Qed.

Lemma Send_succeeds_iff_witness :
  requests (fst (Send testdata.plainNotifier testdata.thirdTime200 testdata.testAlert))
  = 3%nat.
Proof.
  destruct (Send_succeeds_iff testdata.plainNotifier testdata.thirdTime200
              testdata.testAlert) as [_ H].
  apply (H 2%nat).
  - lia.
  - reflexivity.
  - intros j Hj. destruct j as [|[|j]]; [reflexivity | reflexivity | lia].
  - intros j Hj. reflexivity.
Defined.

(** X13. [NewNotifier] takes one slash off the end of the server, and
    nothing else: a server written with a slash at its end and the same
    server written without give the same request URL, with one slash
    before the topic. *)
Theorem NewNotifier_trailing_slash (server topic token : string)
    (translations : gmap string string) (lookup : option capcode.Lookup)
    (title message priority tags : string) :
  notifier.server (NewNotifier (server ++ "/") topic token translations lookup) = server
  /\ (notifier.server (NewNotifier server topic token translations lookup) = server
      \/ server
         = notifier.server (NewNotifier server topic token translations lookup) ++ "/")
  /\ URL (newRequest (NewNotifier (server ++ "/") topic token translations lookup)
            title message priority tags)
     = server ++ "/" ++ topic.
Proof.
  split; [apply TrimSuffix_append|]. split; [apply TrimSuffix_cases|].
  destruct (newRequest_fields
              (NewNotifier (server ++ "/") topic token translations lookup)
              title message priority tags) as (_ & -> & _).
  cbn [notifier.server notifier.topic NewNotifier]. rewrite TrimSuffix_append.
  reflexivity.
Qed.

Lemma capcodeDetails_mentions (n : Notifier) (c : string) :
  strings.Contains (capcodeDetails n c) c = true.
Proof.
  unfold capcodeDetails. destruct (lookupGet (capcodeLookup n) c) as [info|].
  - apply Contains_append_r, Contains_prefix.
  - destruct (translations n !! c); apply Contains_append_r, Contains_prefix.
Qed.

Lemma capcodeSection_mentions (n : Notifier) (capcodes : list string) (i : nat)
    (c : string) :
  c ∈ capcodes -> strings.Contains (capcodeSection n i capcodes) c = true.
Proof.
  revert i. induction capcodes as [|a rest IH]; intros i H; [inversion H|].
  cbn [capcodeSection]. apply Contains_append_r.
  apply elem_of_cons in H as [->|H].
  - apply Contains_append_l, capcodeDetails_mentions.
  - apply Contains_append_r, IH, H.
Qed.

(** X14. The text [formatMessage] builds opens with the body of the
    message and names every capcode of the message, whether or not the
    lookup or the translations know it. *)
Theorem formatMessage_names_every_capcode (n : Notifier) (msg : websocket.P2000Message)
    (c : string) :
  String.prefix (websocket.Message msg) (formatMessage n msg) = true
  /\ (c ∈ websocket.Capcodes msg -> strings.Contains (formatMessage n msg) c = true).
Proof.
  unfold formatMessage. split; [apply prefix_append|].
  intros H. do 3 apply Contains_append_r.
  destruct (websocket.Capcodes msg) as [|a rest] eqn:E; [inversion H|].
  do 2 apply Contains_append_r. apply capcodeSection_mentions. exact H.
Qed.

Lemma formatMessage_names_every_capcode_witness :
  strings.Contains (formatMessage testdata.plainNotifier testdata.twoCapcodes) "0101002"
  = true.
Proof.
  apply (formatMessage_names_every_capcode testdata.plainNotifier testdata.twoCapcodes).
  right. left.
Defined.

End DeliveryMore.

(** ** The second copy of the delivery client *)
Section SecondCopy.
Import time http notifier_rev.

Lemma rev_newRequest_fields (n : Notifier) (title message priority tags : string) :
  let req := newRequest n title message priority tags in
  Method req = "POST" /\ URL req = server n ++ "/" ++ topic n /\ Body req = message
  /\ Header req !! "Title" = Some title
  /\ Header req !! "Priority" = Some priority
  /\ Header req !! "Tags" = Some tags.
Proof.
  unfold newRequest, SetBasicAuth, HeaderSet.
  destruct (String.eqb (password n) EmptyString);
    destruct (String.eqb (token n) EmptyString); cbn [negb Method URL Body Header];
    repeat split;
    repeat (first [ rewrite lookup_insert_eq; reflexivity
                  | rewrite lookup_insert_ne by discriminate ]).
Qed.

(** X15. In the second copy of the notifier the credential of a request
    is chosen in a fixed order: a configured password gives Basic
    authentication for the configured user, whatever the token; without a
    password a configured token gives a Bearer header; without both there
    is no Authorization header.  The choice leaves the rest of the
    request alone. *)
Theorem rev_credentials_in_order (n : Notifier) (title message priority tags : string) :
  (password n <> EmptyString ->
   Header (newRequest n title message priority tags) !! "Authorization"
   = Some ("Basic " ++ EncodeToString (username n ++ ":" ++ password n)))
  /\ (password n = EmptyString -> token n <> EmptyString ->
      Header (newRequest n title message priority tags) !! "Authorization"
      = Some ("Bearer " ++ token n))
  /\ (password n = EmptyString -> token n = EmptyString ->
      Header (newRequest n title message priority tags) !! "Authorization" = None)
  /\ URL (newRequest n title message priority tags) = server n ++ "/" ++ topic n
  /\ Body (newRequest n title message priority tags) = message
  /\ Header (newRequest n title message priority tags) !! "Title" = Some title
  /\ Header (newRequest n title message priority tags) !! "Priority" = Some priority
  /\ Header (newRequest n title message priority tags) !! "Tags" = Some tags.
Proof.
  destruct (rev_newRequest_fields n title message priority tags)
    as (_ & F2 & F3 & F4 & F5 & F6).
  repeat split; try assumption; rewrite rev_newRequest_authorization.
  - intros H. apply String.eqb_neq in H. rewrite H. reflexivity.
  - intros -> H. apply String.eqb_neq in H. rewrite H. reflexivity.
  - intros -> ->. reflexivity.
Qed.

Lemma rev_credentials_in_order_witness :
  Header (newRequest (NewNotifier "https://ntfy.sh" "test-topic" EmptyString
                        "testuser" "testpass" ∅ None)
            "title" "text" "3" "warning") !! "Authorization"
  = Some "Basic dGVzdHVzZXI6dGVzdHBhc3M=".
Proof.
  apply (rev_credentials_in_order
           (NewNotifier "https://ntfy.sh" "test-topic" EmptyString
              "testuser" "testpass" ∅ None) "title" "text" "3" "warning").
  discriminate.
Defined.

Lemma rev_capcodeSection_without_records (n : Notifier) (capcodes : list string)
    (i : nat) :
  (forall c, c ∈ capcodes -> notifier.lookupGet (capcodeLookup n) c = None) ->
  capcodeSection n (S i) capcodes = strings.copies (length capcodes) (ascii_of_nat 10).
Proof.
  revert i. induction capcodes as [|a rest IH]; intros i H; [reflexivity|].
  cbn [capcodeSection]. unfold capcodeDetails. rewrite (H a) by left.
  rewrite (IH (S i)) by (intros c Hc; apply H; right; exact Hc).
  reflexivity.
Qed.

(** X16. In the second copy a capcode without a lookup record leaves no
    trace of its identifier in the text: when none of the capcodes of a
    message has a record (or there is no lookup at all), the text is the
    label overig, the heading, and one line feed between consecutive
    capcodes, so it depends on the number of capcodes only. *)
Theorem rev_formatMessage_without_records (n : Notifier) (msg : websocket.P2000Message) :
  (forall c, c ∈ websocket.Capcodes msg ->
             notifier.lookupGet (capcodeLookup n) c = None) ->
  formatMessage n msg
  = "overig" ++ notifier.nl ++ notifier.nl
    ++ match websocket.Capcodes msg with
       | [] => EmptyString
       | _ :: rest =>
           "Capcode Details:" ++ notifier.nl
           ++ strings.copies (length rest) (ascii_of_nat 10)
       end.
Proof.
  intros H. unfold formatMessage, agencyLabel.
  destruct (websocket.Capcodes msg) as [|a rest] eqn:E; [reflexivity|].
  rewrite (H a) by left. do 5 f_equal.
  cbn [capcodeSection]. unfold capcodeDetails. rewrite (H a) by left.
  rewrite rev_capcodeSection_without_records
    by (intros c Hc; apply H; right; exact Hc).
  reflexivity.
Qed.

Lemma rev_formatMessage_without_records_witness :
  formatMessage (NewNotifier "https://ntfy.sh" "topic" EmptyString EmptyString
                   EmptyString ∅ None) testdata.twoCapcodes
  = "overig" ++ notifier.nl ++ notifier.nl ++ "Capcode Details:" ++ notifier.nl
    ++ notifier.nl.
Proof.
  apply (rev_formatMessage_without_records
           (NewNotifier "https://ntfy.sh" "topic" EmptyString EmptyString
              EmptyString ∅ None) testdata.twoCapcodes).
  intros c _. reflexivity.
Defined.

End SecondCopy.

(** ** The configuration *)
Section Settings.
Import config settings.

Lemma Validate_None (c : Config) :
  Validate c = None
  <-> (ForwardAll c = true \/ Capcodes c <> [])
      /\ Server (Ntfy c) <> EmptyString /\ Topic (Ntfy c) <> EmptyString.
Proof.
  unfold Validate.
  destruct (ForwardAll c); destruct (Capcodes c) as [|a l]; simpl;
    destruct (String.eqb_spec (Server (Ntfy c)) EmptyString) as [Es|Ns];
    destruct (String.eqb_spec (Topic (Ntfy c)) EmptyString) as [Et|Nt];
    (split; [intros H; try discriminate H; repeat split;
               solve [assumption | left; reflexivity | right; discriminate]
            | intros ([H1|H1] & H2 & H3);
                solve [reflexivity | contradiction | discriminate H1
                      | exfalso; apply H1; reflexivity]]).
Qed.

(** The environment laid over a configuration, field by field. *)
Lemma overrides_record (w : World) (c : Config) :
  overrides w c
  = {| ForwardAll := match strconv.ParseBool (Getenv w "FORWARD_ALL") with
                     | Some fa => fa
                     | None => ForwardAll c
                     end;
       Capcodes := Capcodes c;
       CapcodeTranslations := CapcodeTranslations c;
       CapcodeCSVPath :=
         (if negb (String.eqb (Getenv w "CAPCODE_CSV_PATH") EmptyString)
          then Getenv w "CAPCODE_CSV_PATH" else CapcodeCSVPath c);
       Ntfy :=
         {| Server := (if negb (String.eqb (Getenv w "NTFY_SERVER") EmptyString)
                       then Getenv w "NTFY_SERVER" else Server (Ntfy c));
            Topic := (if negb (String.eqb (Getenv w "NTFY_TOPIC") EmptyString)
                      then Getenv w "NTFY_TOPIC" else Topic (Ntfy c));
            Token := (if negb (String.eqb (Getenv w "NTFY_TOKEN") EmptyString)
                      then Getenv w "NTFY_TOKEN" else Token (Ntfy c));
            Username := (if negb (String.eqb (Getenv w "NTFY_USERNAME") EmptyString)
                         then Getenv w "NTFY_USERNAME" else Username (Ntfy c));
            Password := (if negb (String.eqb (Getenv w "NTFY_PASSWORD") EmptyString)
                         then Getenv w "NTFY_PASSWORD" else Password (Ntfy c)) |};
       Server_ :=
         {| Port := match strconv.Atoi (Getenv w "SERVER_PORT") with
                    | Some p => p
                    | None => Port (Server_ c)
                    end;
            HealthPath := HealthPath (Server_ c);
            MetricsPath := MetricsPath (Server_ c);
            ReadTimeout := ReadTimeout (Server_ c);
            WriteTimeout := WriteTimeout (Server_ c) |} |}.
Proof.
  assert (PB : strconv.ParseBool EmptyString = None) by reflexivity.
  assert (AT : strconv.Atoi EmptyString = None) by reflexivity.
  destruct c as [fa caps tr csv [s t tok u p] [port hp mp rt wt]].
  unfold overrides. unfold overrideForwardAll.
  cbn [ForwardAll Capcodes CapcodeTranslations CapcodeCSVPath Ntfy Server_].
  destruct (String.eqb_spec (Getenv w "FORWARD_ALL") EmptyString) as [E1|N1];
    [rewrite E1, PB | destruct (strconv.ParseBool (Getenv w "FORWARD_ALL"))];
    cbn [negb]; unfold overrideNtfy, withNtfy;
    cbn [ForwardAll Capcodes CapcodeTranslations CapcodeCSVPath Ntfy Server_
         Server Topic Token Username Password];
    unfold overridePort;
    cbn [ForwardAll Capcodes CapcodeTranslations CapcodeCSVPath Ntfy Server_
         Port HealthPath MetricsPath ReadTimeout WriteTimeout];
    (destruct (String.eqb_spec (Getenv w "SERVER_PORT") EmptyString) as [E2|N2];
     [rewrite E2, AT | destruct (strconv.Atoi (Getenv w "SERVER_PORT"))]);
    cbn [negb]; unfold overrideCSVPath;
    cbn [ForwardAll Capcodes CapcodeTranslations CapcodeCSVPath Ntfy Server_];
    destruct (String.eqb (Getenv w "CAPCODE_CSV_PATH") EmptyString); cbn [negb];
    reflexivity.
Qed.

Lemma overrides_fields (w : World) (c : Config) :
  let pick name cur :=
    if negb (String.eqb (Getenv w name) EmptyString) then Getenv w name else cur in
  Capcodes (overrides w c) = Capcodes c
  /\ CapcodeTranslations (overrides w c) = CapcodeTranslations c
  /\ Ntfy (overrides w c)
     = {| Server := pick "NTFY_SERVER" (Server (Ntfy c));
          Topic := pick "NTFY_TOPIC" (Topic (Ntfy c));
          Token := pick "NTFY_TOKEN" (Token (Ntfy c));
          Username := pick "NTFY_USERNAME" (Username (Ntfy c));
          Password := pick "NTFY_PASSWORD" (Password (Ntfy c)) |}
  /\ CapcodeCSVPath (overrides w c) = pick "CAPCODE_CSV_PATH" (CapcodeCSVPath c)
  /\ ForwardAll (overrides w c)
     = match strconv.ParseBool (Getenv w "FORWARD_ALL") with
       | Some fa => fa
       | None => ForwardAll c
       end
  /\ Port (Server_ (overrides w c))
     = match strconv.Atoi (Getenv w "SERVER_PORT") with
       | Some p => p
       | None => Port (Server_ c)
       end.
Proof.
  cbv zeta. rewrite (overrides_record w c).
  cbn [ForwardAll Capcodes CapcodeTranslations CapcodeCSVPath Ntfy Server_ Port].
  repeat split.
Qed.

(** X17. [Load] never returns a configuration that [Validate] refuses:
    what it returns has a server and a topic, and either forwards
    everything or names at least one capcode; and it is the file (or the
    defaults) with the environment laid over it. *)
Theorem Load_returns_valid (w : World) (configPath : string) (cfg : Config) :
  Load w configPath = inl cfg ->
  Validate cfg = None
  /\ Server (Ntfy cfg) <> EmptyString /\ Topic (Ntfy cfg) <> EmptyString
  /\ (ForwardAll cfg = true \/ Capcodes cfg <> [])
  /\ exists base, fromFile w configPath = inl base /\ cfg = overrides w base.
Proof.
  unfold Load. destruct (fromFile w configPath) as [base|e]; [|discriminate].
  destruct (Validate (overrides w base)) eqn:V; [discriminate|].
  intros [= <-]. split; [exact V|].
  apply Validate_None in V as (V1 & V2 & V3).
  repeat split; try assumption. exists base. split; reflexivity.
Qed.

Lemma Load_returns_valid_witness :
  exists cfg, Load testdata.envOnly EmptyString = inl cfg
              /\ Server (Ntfy cfg) <> EmptyString.
Proof.
  eexists. split; [reflexivity|].
  eapply (Load_returns_valid testdata.envOnly EmptyString). reflexivity.
Defined.

(** X18. The environment is laid over the file one variable at a time:
    a variable that is set and not empty replaces the value of the file,
    an empty or unset one leaves it, and so does a FORWARD_ALL or a
    SERVER_PORT that does not parse.  Laying the environment over twice
    is the same as once, and with none of the eight variables set the
    configuration is unchanged. *)
Theorem overrides_environment_wins (w : World) (c : Config) :
  overrides w (overrides w c) = overrides w c
  /\ ((forall name, Getenv w name = EmptyString) -> overrides w c = c)
  /\ (Getenv w "NTFY_SERVER" <> EmptyString ->
      Server (Ntfy (overrides w c)) = Getenv w "NTFY_SERVER")
  /\ (Getenv w "NTFY_TOPIC" <> EmptyString ->
      Topic (Ntfy (overrides w c)) = Getenv w "NTFY_TOPIC")
  /\ (Getenv w "NTFY_TOKEN" <> EmptyString ->
      Token (Ntfy (overrides w c)) = Getenv w "NTFY_TOKEN")
  /\ (Getenv w "NTFY_USERNAME" <> EmptyString ->
      Username (Ntfy (overrides w c)) = Getenv w "NTFY_USERNAME")
  /\ (Getenv w "NTFY_PASSWORD" <> EmptyString ->
      Password (Ntfy (overrides w c)) = Getenv w "NTFY_PASSWORD")
  /\ (Getenv w "CAPCODE_CSV_PATH" <> EmptyString ->
      CapcodeCSVPath (overrides w c) = Getenv w "CAPCODE_CSV_PATH")
  /\ (strconv.ParseBool (Getenv w "FORWARD_ALL") = None ->
      ForwardAll (overrides w c) = ForwardAll c)
  /\ (strconv.Atoi (Getenv w "SERVER_PORT") = None ->
      Port (Server_ (overrides w c)) = Port (Server_ c)).
Proof.
  destruct (overrides_fields w c) as (F1 & F2 & F3 & F4 & F5 & F6). cbv zeta in *.
  split; [|split].
  - rewrite (overrides_record w (overrides w c)), (overrides_record w c).
    cbn [ForwardAll Capcodes CapcodeTranslations CapcodeCSVPath Ntfy Server_
         Server Topic Token Username Password
         Port HealthPath MetricsPath ReadTimeout WriteTimeout].
    destruct (strconv.ParseBool (Getenv w "FORWARD_ALL"));
      destruct (strconv.Atoi (Getenv w "SERVER_PORT"));
      destruct (String.eqb (Getenv w "CAPCODE_CSV_PATH") EmptyString);
      destruct (String.eqb (Getenv w "NTFY_SERVER") EmptyString);
      destruct (String.eqb (Getenv w "NTFY_TOPIC") EmptyString);
      destruct (String.eqb (Getenv w "NTFY_TOKEN") EmptyString);
      destruct (String.eqb (Getenv w "NTFY_USERNAME") EmptyString);
      destruct (String.eqb (Getenv w "NTFY_PASSWORD") EmptyString);
      reflexivity.
  - intros H. rewrite (overrides_record w c), !H.
    destruct c as [fa caps tr csv [s t tok u p] [port hp mp rt wt]]. reflexivity.
  - rewrite F3, F4, F5, F6. cbn [Server Topic Token Username Password].
    repeat split; intros H;
      try (apply String.eqb_neq in H; rewrite H; reflexivity);
      rewrite H; reflexivity.
Qed.

Lemma overrides_environment_wins_witness :
  Server (Ntfy (overrides testdata.envOnly defaults)) = "https://ntfy.sh".
Proof.
  apply (overrides_environment_wins testdata.envOnly defaults). discriminate.
Defined.

(** X19. Without a configuration file [Load] starts from the defaults,
    which name no capcode: it succeeds exactly when the environment gives
    a server and a topic and does not switch forwarding of everything
    off, and what it returns forwards everything. *)
Theorem Load_without_file (w : World) :
  ((exists cfg, Load w EmptyString = inl cfg)
   <-> Getenv w "NTFY_SERVER" <> EmptyString
       /\ Getenv w "NTFY_TOPIC" <> EmptyString
       /\ strconv.ParseBool (Getenv w "FORWARD_ALL") <> Some false)
  /\ (forall cfg, Load w EmptyString = inl cfg ->
        ForwardAll cfg = true /\ Capcodes cfg = []
        /\ Server (Ntfy cfg) = Getenv w "NTFY_SERVER"
        /\ Topic (Ntfy cfg) = Getenv w "NTFY_TOPIC").
Proof.
  destruct (overrides_fields w defaults) as (F1 & F2 & F3 & F4 & F5 & F6).
  cbv zeta in *.
  assert (V : Validate (overrides w defaults) = None
              <-> Getenv w "NTFY_SERVER" <> EmptyString
                  /\ Getenv w "NTFY_TOPIC" <> EmptyString
                  /\ strconv.ParseBool (Getenv w "FORWARD_ALL") <> Some false).
  { rewrite Validate_None, F1, F3, F5. cbn [Server Topic Ntfy defaults Capcodes ForwardAll].
    destruct (String.eqb_spec (Getenv w "NTFY_SERVER") EmptyString) as [Es|Ns];
      destruct (String.eqb_spec (Getenv w "NTFY_TOPIC") EmptyString) as [Et|Nt];
      destruct (strconv.ParseBool (Getenv w "FORWARD_ALL")) as [[|]|]; cbn [negb];
      split; intros (H1 & H2 & H3);
      try contradiction; try (exfalso; apply H3; reflexivity);
      try (destruct H1 as [H1|H1]; [discriminate H1 | exfalso; apply H1; reflexivity]);
      repeat split; try assumption; try discriminate; try (left; reflexivity). }
  assert (L : Load w EmptyString
              = match Validate (overrides w defaults) with
                | Some e => inr (InvalidConfiguration e)
                | None => inl (overrides w defaults)
                end) by reflexivity.
  split.
  - rewrite <- V, L. destruct (Validate (overrides w defaults)); split.
    + intros [cfg H]. discriminate H.
    + discriminate.
    + reflexivity.
    + intros _. eexists. reflexivity.
  - intros cfg H. rewrite L in H.
    destruct (Validate (overrides w defaults)) eqn:E; [discriminate H|].
    injection H as <-. destruct (proj1 V eq_refl) as (Ns & Nt & Nf).
    rewrite F1, F3, F5. cbn [Server Topic Ntfy defaults Capcodes ForwardAll].
    apply String.eqb_neq in Ns, Nt. rewrite Ns, Nt. cbn [negb].
    destruct (strconv.ParseBool (Getenv w "FORWARD_ALL")) as [[|]|];
      [| exfalso; apply Nf; reflexivity |]; repeat split.
Qed.

Lemma Load_without_file_witness :
  exists cfg, Load testdata.envOnly EmptyString = inl cfg /\ ForwardAll cfg = true.
Proof.
  eexists. split; [reflexivity|].
  eapply (Load_without_file testdata.envOnly). reflexivity.
Defined.

End Settings.

(** ** The application: counters, liveness *)
Section Application.
Import time metrics app.

Lemma Send_requests_bounds (n : notifier.Notifier) (env : nat -> notifier.conditions)
    (msg : websocket.P2000Message) :
  (1 <= notifier.requests (fst (notifier.Send n env msg)) <= 3)%nat.
Proof.
  rewrite Send_unrolled. cbv zeta.
  repeat match goal with
         | |- context [match ?x with _ => _ end] => destruct x
         end;
    cbn [fst]; rewrite ?requests_app; simpl; rewrite ?requests_app; simpl;
    repeat match goal with
           | |- context [notifier.requests (fst (notifier.sendRequest ?n ?t ?m ?p ?g ?x))] =>
               rewrite (proj1 (sendRequest_one_request n t m p g x))
           end; lia.
Qed.

(** What one message does to the application. *)
Lemma handleMessage_effect (a : Application) (at_ : arrival)
    (msg : websocket.P2000Message) :
  let a' := fst (handleMessage a at_ msg) in
  let passes :=
    if filter.ShouldForward (filter_ a) (websocket.Capcodes msg) then 1 else 0 in
  filter_ a' = filter_ a /\ notifier_ a' = notifier_ a
  /\ wsConnected a' = wsConnected a
  /\ WebsocketConnected (metrics_ a') = WebsocketConnected (metrics_ a)
  /\ lastMsg a' = now at_
  /\ MessagesReceived (metrics_ a') = MessagesReceived (metrics_ a) + 1
  /\ MessagesFiltered (metrics_ a') = MessagesFiltered (metrics_ a) + passes
  /\ NotificationsSent (metrics_ a') + NotificationsFailed (metrics_ a')
     = NotificationsSent (metrics_ a) + NotificationsFailed (metrics_ a) + passes
  /\ NotificationsSent (metrics_ a) <= NotificationsSent (metrics_ a')
  /\ NotificationsFailed (metrics_ a) <= NotificationsFailed (metrics_ a')
  /\ Z.of_nat (length (NotificationDuration (metrics_ a')))
     - NotificationsSent (metrics_ a')
     = Z.of_nat (length (NotificationDuration (metrics_ a)))
       - NotificationsSent (metrics_ a).
Proof.
  unfold handleMessage. cbv zeta. cbn [filter_ notifier_ metrics_].
  destruct (filter.ShouldForward (filter_ a) (websocket.Capcodes msg)); cbn [negb].
  - cbn [withMetrics notifier_ metrics_ filter_].
    destruct (notifier.Send (notifier_ a) (delivery at_) msg) as [evs [err|]];
      cbn [fst withMetrics metrics_ filter_ notifier_ lastMsg wsConnected
           RecordMessageReceived RecordMessageFiltered RecordNotificationFailed
           RecordNotificationSent Observe MessagesReceived MessagesFiltered
           NotificationsSent NotificationsFailed NotificationDuration
           WebsocketConnected];
      rewrite ?length_app; cbn [length]; repeat split; lia.
  - cbn [fst metrics_ filter_ notifier_ lastMsg wsConnected RecordMessageReceived
         MessagesReceived MessagesFiltered NotificationsSent NotificationsFailed
         NotificationDuration WebsocketConnected].
    repeat split; lia.
Qed.

Lemma step_effect (hs : list happening) (a : Application) :
  let a' := foldl step a hs in
  filter_ a' = filter_ a /\ notifier_ a' = notifier_ a
  /\ MessagesReceived (metrics_ a') = MessagesReceived (metrics_ a) + arrivals hs
  /\ MessagesFiltered (metrics_ a')
     = MessagesFiltered (metrics_ a) + forwarded (filter_ a) hs
  /\ NotificationsSent (metrics_ a') + NotificationsFailed (metrics_ a')
     = NotificationsSent (metrics_ a) + NotificationsFailed (metrics_ a)
       + forwarded (filter_ a) hs
  /\ NotificationsSent (metrics_ a) <= NotificationsSent (metrics_ a')
  /\ NotificationsFailed (metrics_ a) <= NotificationsFailed (metrics_ a')
  /\ Z.of_nat (length (NotificationDuration (metrics_ a')))
     - NotificationsSent (metrics_ a')
     = Z.of_nat (length (NotificationDuration (metrics_ a)))
       - NotificationsSent (metrics_ a)
  /\ (WebsocketConnected (metrics_ a') - (if wsConnected a' then 1 else 0)
      = WebsocketConnected (metrics_ a) - (if wsConnected a then 1 else 0)
      \/ WebsocketConnected (metrics_ a') = (if wsConnected a' then 1 else 0)).
Proof.
  revert a. induction hs as [|h hs IH]; intros a.
  - cbn. repeat split; lia.
  - cbn [foldl]. specialize (IH (step a h)). cbv zeta in IH.
    destruct IH as (I1 & I2 & I3 & I4 & I5 & I6 & I7 & I8 & I9).
    destruct h as [at_ msg|connected].
    + destruct (handleMessage_effect a at_ msg)
        as (E1 & E2 & E3 & E4 & E5 & E6 & E7 & E8 & E9 & E10 & E11).
      cbv zeta in *. cbn [step] in *. rewrite E1 in *.
      cbn [arrivals forwarded]. rewrite E3, E4 in I9.
      repeat split; try congruence; lia.
    + cbn [step arrivals forwarded] in *. cbn in I3, I4, I5, I6, I7, I8.
      repeat split; try assumption. right.
      destruct I9 as [I9|I9]; [|exact I9]. cbn in I9.
      destruct connected; lia.
Qed.



(** X21. A message the filter refuses causes no request at all and
    counts only as received; a message it lets pass causes at least one
    request and at most three.  Either way the message sets the time of
    the last message. *)
Theorem handleMessage_requests (a : Application) (at_ : arrival)
    (msg : websocket.P2000Message) :
  (filter.ShouldForward (filter_ a) (websocket.Capcodes msg) = false ->
   snd (handleMessage a at_ msg) = []
   /\ metrics_ (fst (handleMessage a at_ msg)) = RecordMessageReceived (metrics_ a))
  /\ (filter.ShouldForward (filter_ a) (websocket.Capcodes msg) = true ->
      (1 <= notifier.requests (snd (handleMessage a at_ msg)) <= 3)%nat)
  /\ lastMsg (fst (handleMessage a at_ msg)) = now at_.
Proof.
  split; [|split].
  - intros H. unfold handleMessage. cbn [filter_]. rewrite H. split; reflexivity.
  - intros H. unfold handleMessage. cbv zeta. cbn [filter_]. rewrite H.
    cbn [negb withMetrics notifier_ metrics_ filter_].
    pose proof (Send_requests_bounds (notifier_ a) (delivery at_) msg) as B.
    destruct (notifier.Send (notifier_ a) (delivery at_) msg) as [evs [err|]]; exact B.
  - apply handleMessage_effect.
Qed.

Lemma handleMessage_requests_witness :
  snd (handleMessage testdata.oneCapcodeApp (testdata.arrivalAt 5)
         (testdata.forCapcode "9999999")) = [].
Proof.
  apply (handleMessage_requests testdata.oneCapcodeApp (testdata.arrivalAt 5)
           (testdata.forCapcode "9999999")).
  reflexivity.
Defined.

Lemma wsConnected_from_status (hs : list happening) (a : Application) :
  wsConnected (foldl step a hs) = true ->
  wsConnected a = true \/ Status true ∈ hs.
Proof.
  revert a. induction hs as [|h hs IH]; intros a H; [left; exact H|].
  cbn [foldl] in H. apply IH in H as [H|H]; [|right; right; exact H].
  destruct h as [at_ msg|connected].
  - left. cbn [step] in H.
    destruct (handleMessage_effect a at_ msg) as (_ & _ & E3 & _). congruence.
  - cbn [step statusReceived wsConnected] in H. rewrite H. right. left.
Qed.

Lemma Since_window (clock t : Z) :
  (Since clock t >? healthCheckWindow) = (clock - t >? healthCheckWindow).
Proof.
  unfold Since, healthCheckWindow, Second.
  destruct (Z.gtb_spec (Z.max (- 2 ^ 63) (Z.min (2 ^ 63 - 1) (clock - t)))
              (5 * (60 * 1000000000)));
    destruct (Z.gtb_spec (clock - t) (5 * (60 * 1000000000))); try reflexivity; lia.
Qed.

(** X22. The health check answers 200 exactly when the last status
    received says connected and the last message is at most five minutes
    old.  Over every run from start-up the gauge mirrors the last status,
    the check cannot answer 200 before a status connected was received,
    and any message, forwarded or not, keeps a connected application
    healthy for the next five minutes. *)
Theorem health_follows_status_and_messages (f : filter.CapcodeFilter)
    (n : notifier.Notifier) (clock : Z) (hs : list happening) (t : Z) :
  let a := foldl step (start f n clock) hs in
  (healthCheckHandler a t = 200
   <-> wsConnected a = true /\ t - lastMsg a <= healthCheckWindow)
  /\ (healthCheckHandler a t = 200 \/ healthCheckHandler a t = 503)
  /\ WebsocketConnected (metrics_ a) = (if wsConnected a then 1 else 0)
  /\ (healthCheckHandler a t = 200 -> Status true ∈ hs)
  /\ (forall at_ msg,
        wsConnected a = true -> now at_ <= t <= now at_ + healthCheckWindow ->
        healthCheckHandler (fst (handleMessage a at_ msg)) t = 200).
Proof.
  intros a.
  assert (H200 : forall b, healthCheckHandler b t = 200
                           <-> wsConnected b = true /\ t - lastMsg b <= healthCheckWindow).
  { intros b. unfold healthCheckHandler. rewrite Since_window.
    destruct (wsConnected b); cbn [negb];
      [|split; [discriminate | intros [H _]; discriminate H]].
    destruct (Z.gtb_spec (t - lastMsg b) healthCheckWindow); split;
      try discriminate; try (intros [_ H']; lia); intros _; split; [reflexivity | lia]. }
  split; [apply H200|]. split; [|split; [|split]].
  - unfold healthCheckHandler. destruct (negb (wsConnected a)); [right; reflexivity|].
    destruct (Since t (lastMsg a) >? healthCheckWindow); [right | left]; reflexivity.
  - destruct (step_effect hs (start f n clock)) as (_ & _ & _ & _ & _ & _ & _ & _ & I9).
    cbv zeta in I9. fold a in I9. destruct I9 as [I9|I9]; [|exact I9]. cbn in I9. lia.
  - intros H. apply H200 in H as [H _].
    apply wsConnected_from_status in H as [H|H]; [discriminate H | exact H].
  - intros at_ msg Hc Ht. apply H200.
    destruct (handleMessage_effect a at_ msg) as (_ & _ & E3 & _ & E5 & _).
    cbv zeta in *. rewrite E3, E5. split; [exact Hc | lia].
Qed.

Lemma health_follows_status_and_messages_witness :
  healthCheckHandler
    (fst (handleMessage (foldl step testdata.oneCapcodeApp [Status true])
            (testdata.arrivalAt 5) (testdata.forCapcode "9999999"))) 6 = 200.
Proof.
  destruct (health_follows_status_and_messages
              (filter.NewCapcodeFilter false ["0101001"]) testdata.plainNotifier 0
              [Status true] 6) as (_ & _ & _ & _ & H).
  apply (H (testdata.arrivalAt 5) (testdata.forCapcode "9999999")).
  - reflexivity.
  - vm_compute. split; discriminate.
Defined.

End Application.
